(** * GO_DUNG: transactional progression and economy engine

    A shallow embedding of the run/attempt service, the auction service and
    the MongoDB repositories they are built on, followed by the properties of
    the specification that concern them.

    Conventions of the embedding.
    - Go [string] is [string]; [int] and [int64] are [Z] with the 64-bit
      two's-complement wrap-around written out ([wrap64]); [float64] is the
      kernel's binary64 [float]; [time.Time] is an instant on the datastore's
      clock, a [Z].
    - Go [error] values are chains built by [fmt.Errorf("...: %w", err)] over
      the sentinels of package [errors]; [errorsIs] is [errors.Is].
    - A MongoDB collection is the list of its documents; a filter is a boolean
      predicate on documents; unique indexes are enforced by the insert
      operations, as the server does.
    - A transaction body is a function from the store to an error or to a
      result and a new store; [WithTransaction] commits the new store or, on
      error, keeps the old one.
    - The datastore is reliable: a repository call fails only for the reasons
      its code distinguishes (no document, duplicate key, rejected update). *)

From Stdlib Require Import ZArith List String Bool Lia Floats.
Import ListNotations.

Local Open Scope string_scope.
Local Open Scope Z_scope.

(** Go's [==] on strings. *)
Infix "=?s" := String.eqb (at level 70, no associativity).

(** ** Package errors *)

Module apperrors.

Inductive sentinel : Type :=
| ErrValidation
| ErrNotFound
| ErrConflict
| ErrForbidden
| ErrUnauthorized
| ErrInsufficient
| ErrWrongStepOrder
| ErrNotInRange
| ErrAlreadyHandled
| ErrInvalidArgument.

Definition sentinel_eqb (a b : sentinel) : bool :=
  match a, b with
  | ErrValidation, ErrValidation
  | ErrNotFound, ErrNotFound
  | ErrConflict, ErrConflict
  | ErrForbidden, ErrForbidden
  | ErrUnauthorized, ErrUnauthorized
  | ErrInsufficient, ErrInsufficient
  | ErrWrongStepOrder, ErrWrongStepOrder
  | ErrNotInRange, ErrNotInRange
  | ErrAlreadyHandled, ErrAlreadyHandled
  | ErrInvalidArgument, ErrInvalidArgument => true
  | _, _ => false
  end.

(** An error value: a sentinel, an error of a library (driver, encoder), or
    [fmt.Errorf(msg ++ ": %w", e)]. Formatted arguments of the message are
    left out: only the constant text is kept. *)
Inductive error : Type :=
| Sentinel (s : sentinel)
| LibraryError (msg : string)
| Errorf (msg : string) (e : error).

(** [errors.Is(err, target)] for a sentinel target. *)
Fixpoint errorsIs (err : error) (target : sentinel) : bool :=
  match err with
  | Sentinel s => sentinel_eqb s target
  | LibraryError _ => false
  | Errorf _ e => errorsIs e target
  end.

End apperrors.
Export apperrors.

(** A Go result [(T, error)] with [err == nil] on the right. *)
Definition result (A : Type) : Type := (error + A)%type.

(** [errors.Is] on the error of a result; [false] on success. *)
Definition failsWith {A} (r : result A) (target : sentinel) : bool :=
  match r with
  | inl e => errorsIs e target
  | inr _ => false
  end.

(** ** Machine integers *)

Definition min_int64 : Z := - 2 ^ 63.
Definition max_int64 : Z := 2 ^ 63 - 1.

Definition int64 (z : Z) : Prop := min_int64 <= z <= max_int64.

Definition in_int64 (z : Z) : bool := (min_int64 <=? z) && (z <=? max_int64).

(** Two's-complement wrap-around of Go's [int64] (and 64-bit [int])
    arithmetic. *)
Definition wrap64 (z : Z) : Z := (z + 2 ^ 63) mod 2 ^ 64 - 2 ^ 63.

(** ** Package geo *)

Module geo.

(** The functions of Go's [math] package that have no counterpart among the
    kernel's float operations. [math.Sqrt] is [PrimFloat.sqrt]. *)
Class MathLib : Type := {
  Sin : float -> float;
  Cos : float -> float;
  Atan2 : float -> float -> float
}.

Local Open Scope float_scope.

Definition earthRadiusMeters : float := 6371000.

(** [math.Pi / 180], a constant expression: evaluated exactly and rounded
    once to the nearest float64. *)
Definition piOver180 : float := 0x1.1df46a2529d39p-6.

Definition toRadians (v : float) : float := v * piOver180.

Definition HaversineMeters `{MathLib} (lat1 lon1 lat2 lon2 : float) : float :=
  let dLat := toRadians (lat2 - lat1) in
  let dLon := toRadians (lon2 - lon1) in
  let lat1R := toRadians lat1 in
  let lat2R := toRadians lat2 in
  let a := Sin (dLat / 2) * Sin (dLat / 2)
           + Cos lat1R * Cos lat2R * Sin (dLon / 2) * Sin (dLon / 2) in
  let c := 2 * Atan2 (sqrt a) (sqrt (1 - a)) in
  earthRadiusMeters * c.

End geo.

(** Go's [x > y] on float64: false as soon as one side is NaN. *)
Definition float_gt (x y : float) : bool := PrimFloat.ltb y x.

(** ** Package models *)

Definition Time : Type := Z.

Module models.

Inductive RunState : Type := RunStateActive | RunStateCompleted | RunStateAbandoned.

Definition RunState_eqb (a b : RunState) : bool :=
  match a, b with
  | RunStateActive, RunStateActive
  | RunStateCompleted, RunStateCompleted
  | RunStateAbandoned, RunStateAbandoned => true
  | _, _ => false
  end.

Module KilledStep.
Record t : Type := {
  BossStepID : string;
  KilledAt : Time;
  AttemptID : string
}.
End KilledStep.

Module Run.
Record t : Type := {
  ID : string;
  DungeonID : string;
  PlayerID : string;
  State : RunState;
  CurrentStep : Z;
  KilledSteps : list KilledStep.t;
  StartedAt : Time;
  EndedAt : option Time;
  UpdatedAt : Time
}.
End Run.

Module AttemptRequest.
Record t : Type := {
  Lat : option float;
  Lon : option float;
  DeviceTime : string;
  GPSAccuracyM : option float;
  IdempotencyKey : string
}.
End AttemptRequest.

Module Player.
Record t : Type := {
  ID : string;
  DisplayName : string;
  Gold : Z;
  CreatedAt : Time;
  UpdatedAt : Time;
  Email : string;
  PasswordHash : string;
  Role : string
}.
End Player.

Module RewardItem.
Record t : Type := {
  ItemID : string;
  Qty : Z
}.
End RewardItem.

Module Rewards.
Record t : Type := {
  Gold : Z;
  Items : list RewardItem.t
}.
End Rewards.

Module BossLocation.
Record t : Type := {
  Lat : float;
  Lon : float;
  RadiusMeters : float
}.
End BossLocation.

Module BossStep.
Record t : Type := {
  ID : string;
  DungeonID : string;
  Order : Z;
  Name : string;
  Location : BossLocation.t;
  ZoneDescription : string;
  Difficulty : Z;
  Rewards : Rewards.t;
  CreatedAt : Time;
  UpdatedAt : Time
}.
End BossStep.

Module AttemptResponse.
Record t : Type := {
  RunID : string;
  StepID : string;
  DistanceM : float;
  Rewards : Rewards.t;
  Run : Run.t;
  Player : Player.t;
  Idempotency : bool
}.
End AttemptResponse.

Module InventoryEntry.
Record t : Type := {
  ID : string;
  PlayerID : string;
  ItemID : string;
  Qty : Z;
  UpdatedAt : Time
}.
End InventoryEntry.

Inductive ListingStatus : Type :=
| ListingStatusActive
| ListingStatusSold
| ListingStatusCancelled
| ListingStatusExpired.

Definition ListingStatus_eqb (a b : ListingStatus) : bool :=
  match a, b with
  | ListingStatusActive, ListingStatusActive
  | ListingStatusSold, ListingStatusSold
  | ListingStatusCancelled, ListingStatusCancelled
  | ListingStatusExpired, ListingStatusExpired => true
  | _, _ => false
  end.

Module Listing.
Record t : Type := {
  ID : string;
  SellerID : string;
  BuyerID : string;
  ItemID : string;
  Qty : Z;
  PricePerUnit : Z;
  Status : ListingStatus;
  CreatedAt : Time;
  ExpiresAt : option Time
}.
End Listing.

Module Trade.
Record t : Type := {
  ID : string;
  BuyerID : string;
  SellerID : string;
  ListingID : string;
  ItemID : string;
  Qty : Z;
  TotalPrice : Z;
  CreatedAt : Time
}.
End Trade.

Module BuyListingRequest.
Record t : Type := {
  Qty : Z
}.
End BuyListingRequest.

End models.
Export models.

(** ** Stored attempt responses

    [AttemptRecord.Response] has Go type [any]: the driver encodes the
    [AttemptResponse] written by [UpdateAttemptRecord] to BSON and hands back a
    generic value on read; [decodeAttemptResponse] sends that value through
    [encoding/json]. The three library functions are parameters of the
    development. *)
Class Codec : Type := {
  Raw : Type;
  (** the value read back for a field that was stored as [nil] *)
  rawNil : Raw;
  (** the value read back for a stored [AttemptResponse] *)
  bsonReadBack : AttemptResponse.t -> Raw;
  (** a JSON text *)
  Payload : Type;
  (** [json.Marshal]: an error message or the payload *)
  jsonMarshal : Raw -> string + Payload;
  (** [json.Unmarshal] into an [AttemptResponse] *)
  jsonUnmarshal : Payload -> string + AttemptResponse.t
}.

Module AttemptRecord.
Section WithCodec.
Context `{Codec}.
Record t : Type := {
  ID : string;
  RunID : string;
  StepID : string;
  PlayerID : string;
  IdempotencyKey : string;
  RewardApplied : bool;
  Response : Raw;
  CreatedAt : Time
}.
End WithCodec.
End AttemptRecord.

(** ** The datastore and package mongodb *)

Module mongodb.
Section WithCodec.
Context `{Codec}.

(** The collections the two services touch. *)
Record Store : Type := {
  runs : list Run.t;
  attempts : list AttemptRecord.t;
  players : list Player.t;
  inventory : list InventoryEntry.t;
  boss_steps : list BossStep.t;
  auction_listings : list Listing.t;
  auction_trades : list Trade.t
}.

Definition set_runs (v : list Run.t) (st : Store) : Store :=
  {| runs := v; attempts := attempts st; players := players st;
     inventory := inventory st; boss_steps := boss_steps st;
     auction_listings := auction_listings st; auction_trades := auction_trades st |}.

Definition set_attempts (v : list AttemptRecord.t) (st : Store) : Store :=
  {| runs := runs st; attempts := v; players := players st;
     inventory := inventory st; boss_steps := boss_steps st;
     auction_listings := auction_listings st; auction_trades := auction_trades st |}.

Definition set_players (v : list Player.t) (st : Store) : Store :=
  {| runs := runs st; attempts := attempts st; players := v;
     inventory := inventory st; boss_steps := boss_steps st;
     auction_listings := auction_listings st; auction_trades := auction_trades st |}.

Definition set_inventory (v : list InventoryEntry.t) (st : Store) : Store :=
  {| runs := runs st; attempts := attempts st; players := players st;
     inventory := v; boss_steps := boss_steps st;
     auction_listings := auction_listings st; auction_trades := auction_trades st |}.

Definition set_auction_listings (v : list Listing.t) (st : Store) : Store :=
  {| runs := runs st; attempts := attempts st; players := players st;
     inventory := inventory st; boss_steps := boss_steps st;
     auction_listings := v; auction_trades := auction_trades st |}.

Definition set_auction_trades (v : list Trade.t) (st : Store) : Store :=
  {| runs := runs st; attempts := attempts st; players := players st;
     inventory := inventory st; boss_steps := boss_steps st;
     auction_listings := auction_listings st; auction_trades := v |}.

(** A sequence of repository calls inside a transaction. *)
Definition Tx (A : Type) : Type := Store -> error + (A * Store).

Definition ret {A} (a : A) : Tx A := fun st => inr (a, st).

Definition fail {A} (e : error) : Tx A := fun _ => inl e.

Definition bind {A B} (m : Tx A) (k : A -> Tx B) : Tx B :=
  fun st =>
    match m st with
    | inl e => inl e
    | inr (a, st') => k a st'
    end.

(** [if err := call; err != nil { return fmt.Errorf(msg, err) }] *)
Definition wrapErr {A} (msg : string) (m : Tx A) : Tx A :=
  fun st =>
    match m st with
    | inl e => inl (Errorf msg e)
    | inr r => inr r
    end.

(** [WithTransaction]: the body's writes are committed when it returns nil
    and discarded when it returns an error, which comes back wrapped. The
    value the Go closure leaves in a captured variable is returned here. *)
Definition WithTransaction {A} (fn : Tx A) (st : Store) : result A * Store :=
  match fn st with
  | inl e => (inl (Errorf "transaction body" e), st)
  | inr (a, st') => (inr a, st')
  end.


End WithCodec.

(** [FindOne(filter)] *)
Definition findOne {A} (filter : A -> bool) (coll : list A) : option A :=
  List.find filter coll.

(** The update of the first document that matches the filter, as in
    [UpdateOne], [FindOneAndUpdate] and [FindOneAndReplace]. *)
Fixpoint updateFirst {A} (filter : A -> bool) (f : A -> A) (coll : list A) : list A :=
  match coll with
  | [] => []
  | d :: ds => if filter d then f d :: ds else d :: updateFirst filter f ds
  end.

End mongodb.
Export mongodb.

Declare Scope tx_scope.
Delimit Scope tx_scope with tx.
Notation "x <- m ;; k" := (bind m (fun x => k))
  (at level 61, m at next level, right associativity) : tx_scope.
Notation "m ;;; k" := (bind m (fun _ => k))
  (at level 61, right associativity) : tx_scope.

(** ** Package repositories/player *)

Module playerRepo.
Section WithCodec.
Context `{Codec}.

Definition byCustomID (id : string) (p : Player.t) : bool := Player.ID p =?s id.

Definition withGold (gold : Z) (updatedAt : Time) (p : Player.t) : Player.t :=
  {| Player.ID := Player.ID p; Player.DisplayName := Player.DisplayName p;
     Player.Gold := gold; Player.CreatedAt := Player.CreatedAt p;
     Player.UpdatedAt := updatedAt; Player.Email := Player.Email p;
     Player.PasswordHash := Player.PasswordHash p; Player.Role := Player.Role p |}.

Definition GetByID (st : Store) (id : string) : result Player.t :=
  match findOne (byCustomID id) (players st) with
  | Some p => inr p
  | None => inl (Errorf "player id" (Sentinel ErrNotFound))
  end.

(** [FindOneAndUpdate] with [$inc] on [gold], returning the document after
    the update. The server rejects an [$inc] whose 64-bit result overflows. *)
Definition IncrementGold (id : string) (delta : Z) (updatedAt : Time) : Tx Player.t :=
  fun st =>
    match findOne (byCustomID id) (players st) with
    | None => inl (Errorf "player id" (Sentinel ErrNotFound))
    | Some p =>
        if in_int64 (Player.Gold p + delta) then
          let updated := withGold (Player.Gold p + delta) updatedAt p in
          inr (updated,
               set_players (updateFirst (byCustomID id) (fun _ => updated) (players st)) st)
        else inl (Errorf "increment gold" (LibraryError "Failed to apply $inc operations"))
    end.

(** [FindOneAndUpdate] with [$set] on [gold]. *)
Definition SetGold (id : string) (gold : Z) (updatedAt : Time) : Tx Player.t :=
  fun st =>
    match findOne (byCustomID id) (players st) with
    | None => inl (Errorf "player id" (Sentinel ErrNotFound))
    | Some p =>
        let updated := withGold gold updatedAt p in
        inr (updated,
             set_players (updateFirst (byCustomID id) (fun _ => updated) (players st)) st)
    end.

End WithCodec.
End playerRepo.

(** ** Package repositories/inventory *)

Module inventoryRepo.
Section WithCodec.
Context `{Codec}.

Definition byPlayerItem (playerID itemID : string) (e : InventoryEntry.t) : bool :=
  (InventoryEntry.PlayerID e =?s playerID) && (InventoryEntry.ItemID e =?s itemID).

Definition withQty (qty : Z) (updatedAt : Time) (e : InventoryEntry.t) : InventoryEntry.t :=
  {| InventoryEntry.ID := InventoryEntry.ID e;
     InventoryEntry.PlayerID := InventoryEntry.PlayerID e;
     InventoryEntry.ItemID := InventoryEntry.ItemID e;
     InventoryEntry.Qty := qty; InventoryEntry.UpdatedAt := updatedAt |}.

(** [UpdateOne] with upsert: [$inc] on [qty] of the entry of (player, item),
    or the insertion of a new entry whose [_id] is ["player:item"]. *)
Definition AddItem (playerID itemID : string) (qty : Z) (updatedAt : Time) : Tx unit :=
  fun st =>
    if qty <=? 0 then inl (Errorf "qty must be positive" (Sentinel ErrValidation))
    else
      match findOne (byPlayerItem playerID itemID) (inventory st) with
      | Some e =>
          if in_int64 (InventoryEntry.Qty e + qty) then
            inr (tt, set_inventory
                       (updateFirst (byPlayerItem playerID itemID)
                          (withQty (InventoryEntry.Qty e + qty) updatedAt) (inventory st)) st)
          else inl (Errorf "add inventory item"
                      (LibraryError "Failed to apply $inc operations"))
      | None =>
          let id := (playerID ++ ":" ++ itemID)%string in
          if existsb (fun e => InventoryEntry.ID e =?s id) (inventory st) then
            inl (Errorf "add inventory item" (LibraryError "duplicate key"))
          else
            inr (tt, set_inventory
                       (inventory st ++
                        [{| InventoryEntry.ID := id; InventoryEntry.PlayerID := playerID;
                            InventoryEntry.ItemID := itemID; InventoryEntry.Qty := qty;
                            InventoryEntry.UpdatedAt := updatedAt |}]) st)
      end.

End WithCodec.
End inventoryRepo.

(** ** Package repositories/run *)

Module runRepo.
Section WithCodec.
Context `{Codec}.

Definition byRunID (id : string) (r : Run.t) : bool := Run.ID r =?s id.

Definition byRunStep (runID stepID : string) (a : AttemptRecord.t) : bool :=
  (AttemptRecord.RunID a =?s runID) && (AttemptRecord.StepID a =?s stepID).

Definition byAttemptID (id : string) (a : AttemptRecord.t) : bool :=
  AttemptRecord.ID a =?s id.

Definition GetRunByID (st : Store) (id : string) : result Run.t :=
  match findOne (byRunID id) (runs st) with
  | Some r => inr r
  | None => inl (Errorf "run id" (Sentinel ErrNotFound))
  end.

(** [FindOneAndReplace] on [_id], returning the document after. *)
Definition ReplaceRun (run : Run.t) : Tx Run.t :=
  fun st =>
    match findOne (byRunID (Run.ID run)) (runs st) with
    | None => inl (Errorf "run id" (Sentinel ErrNotFound))
    | Some _ =>
        inr (run, set_runs (updateFirst (byRunID (Run.ID run)) (fun _ => run) (runs st)) st)
    end.

(** [InsertOne]: a duplicate key, on [_id] or on the unique index
    (runId, stepId), is reported as [ErrAlreadyHandled]. *)
Definition CreateAttemptRecord (record : AttemptRecord.t) : Tx unit :=
  fun st =>
    if existsb (fun a => byAttemptID (AttemptRecord.ID record) a
                         || byRunStep (AttemptRecord.RunID record)
                              (AttemptRecord.StepID record) a) (attempts st)
    then inl (Errorf "duplicate attempt key" (Sentinel ErrAlreadyHandled))
    else inr (tt, set_attempts (attempts st ++ [record]) st).

Definition GetAttemptRecord (st : Store) (runID stepID : string) : result AttemptRecord.t :=
  match findOne (byRunStep runID stepID) (attempts st) with
  | Some rec => inr rec
  | None => inl (Errorf "attempt record missing" (Sentinel ErrNotFound))
  end.

Definition withResponse (response : AttemptResponse.t) (rewardApplied : bool)
    (a : AttemptRecord.t) : AttemptRecord.t :=
  {| AttemptRecord.ID := AttemptRecord.ID a; AttemptRecord.RunID := AttemptRecord.RunID a;
     AttemptRecord.StepID := AttemptRecord.StepID a;
     AttemptRecord.PlayerID := AttemptRecord.PlayerID a;
     AttemptRecord.IdempotencyKey := AttemptRecord.IdempotencyKey a;
     AttemptRecord.RewardApplied := rewardApplied;
     AttemptRecord.Response := bsonReadBack response;
     AttemptRecord.CreatedAt := AttemptRecord.CreatedAt a |}.

(** [UpdateOne] on [_id] with [$set] of [response] and [rewardApplied]. *)
Definition UpdateAttemptRecord (id : string) (response : AttemptResponse.t)
    (rewardApplied : bool) : Tx unit :=
  fun st =>
    if existsb (byAttemptID id) (attempts st) then
      inr (tt, set_attempts
                 (updateFirst (byAttemptID id) (withResponse response rewardApplied)
                    (attempts st)) st)
    else inl (Errorf "attempt record missing" (Sentinel ErrNotFound)).

End WithCodec.
End runRepo.

(** ** Package repositories/dungeon *)

Module dungeonRepo.
Section WithCodec.
Context `{Codec}.

Definition GetStep (st : Store) (dungeonID stepID : string) : result BossStep.t :=
  match findOne (fun s => (BossStep.ID s =?s stepID) && (BossStep.DungeonID s =?s dungeonID))
          (boss_steps st) with
  | Some s => inr s
  | None => inl (Errorf "step id" (Sentinel ErrNotFound))
  end.

(** The sort of [SetSort(order: 1)]. *)
Fixpoint insertByOrder (s : BossStep.t) (l : list BossStep.t) : list BossStep.t :=
  match l with
  | [] => [s]
  | x :: xs =>
      if BossStep.Order s <=? BossStep.Order x then s :: l else x :: insertByOrder s xs
  end.

Definition sortByOrder (l : list BossStep.t) : list BossStep.t :=
  fold_right insertByOrder [] l.

Definition ListStepsByDungeon (st : Store) (dungeonID : string) : result (list BossStep.t) :=
  inr (sortByOrder (filter (fun s => BossStep.DungeonID s =?s dungeonID) (boss_steps st))).

End WithCodec.
End dungeonRepo.

(** ** Package repositories/auction *)

Module auctionRepo.
Section WithCodec.
Context `{Codec}.

Definition byListingID (id : string) (l : Listing.t) : bool := Listing.ID l =?s id.

Definition GetByID (st : Store) (id : string) : result Listing.t :=
  match findOne (byListingID id) (auction_listings st) with
  | Some l => inr l
  | None => inl (Errorf "listing id" (Sentinel ErrNotFound))
  end.

(** [FindOneAndReplace] on [_id], returning the document after. *)
Definition ReplaceListing (listing : Listing.t) : Tx Listing.t :=
  fun st =>
    match findOne (byListingID (Listing.ID listing)) (auction_listings st) with
    | None => inl (Errorf "listing id" (Sentinel ErrNotFound))
    | Some _ =>
        inr (listing,
             set_auction_listings
               (updateFirst (byListingID (Listing.ID listing)) (fun _ => listing)
                  (auction_listings st)) st)
    end.

(** [InsertOne]: appends the receipt; a duplicate [_id] is a driver error. *)
Definition InsertTrade (trade : Trade.t) : Tx unit :=
  fun st =>
    if existsb (fun t => Trade.ID t =?s Trade.ID trade) (auction_trades st) then
      inl (Errorf "insert trade" (LibraryError "duplicate key"))
    else inr (tt, set_auction_trades (auction_trades st ++ [trade]) st).

End WithCodec.
End auctionRepo.

(** A read inside a transaction. *)
Definition readTx `{Codec} {A} (q : Store -> result A) : Tx A :=
  fun st =>
    match q st with
    | inl e => inl e
    | inr a => inr (a, st)
    end.

(** ** Package services/run *)

Module run.
Section Service.
Context `{Codec} `{geo.MathLib}.

Local Open Scope tx_scope.

(** The [validate] tags of [models.AttemptRequest]: [lat] and [lon] required,
    [deviceTime] at most 64 characters, [gpsAccuracyMeters] not negative when
    given, [idempotencyKey] of 8 to 128 characters. Lengths are counted in
    characters of the Rocq string. *)
Definition validateAttemptRequest (req : AttemptRequest.t) : bool :=
  match AttemptRequest.Lat req, AttemptRequest.Lon req with
  | Some _, Some _ =>
      (String.length (AttemptRequest.DeviceTime req) <=? 64)%nat
      && match AttemptRequest.GPSAccuracyM req with
         | None => true
         | Some v => PrimFloat.leb 0 v
         end
      && (8 <=? String.length (AttemptRequest.IdempotencyKey req))%nat
      && (String.length (AttemptRequest.IdempotencyKey req) <=? 128)%nat
  | _, _ => false
  end.

Definition decodeAttemptResponse (raw : Raw) : result AttemptResponse.t :=
  match jsonMarshal raw with
  | inl msg => inl (Errorf "marshal stored response" (LibraryError msg))
  | inr payload =>
      match jsonUnmarshal payload with
      | inl msg => inl (Errorf "unmarshal stored response" (LibraryError msg))
      | inr response => inr response
      end
  end.

(** [resp.Idempotency = true] *)
Definition asReplay (resp : AttemptResponse.t) : AttemptResponse.t :=
  {| AttemptResponse.RunID := AttemptResponse.RunID resp;
     AttemptResponse.StepID := AttemptResponse.StepID resp;
     AttemptResponse.DistanceM := AttemptResponse.DistanceM resp;
     AttemptResponse.Rewards := AttemptResponse.Rewards resp;
     AttemptResponse.Run := AttemptResponse.Run resp;
     AttemptResponse.Player := AttemptResponse.Player resp;
     AttemptResponse.Idempotency := true |}.

Definition keyMismatch : error :=
  Errorf "attempt already handled with another idempotency key" (Sentinel ErrAlreadyHandled).

(** [Attempt], from the validation of the request to the geofence check:
    the run, the step and the distance on admission. *)
Definition attemptAdmission (st : Store) (playerID runID stepID : string)
    (req : AttemptRequest.t) : result (Run.t * BossStep.t * float) :=
  if negb (validateAttemptRequest req) then
    inl (Errorf "validate attempt request" (Sentinel ErrValidation))
  else
    match runRepo.GetRunByID st runID with
    | inl err => inl (Errorf "load run" err)
    | inr run =>
        if negb (Run.PlayerID run =?s playerID) then
          inl (Errorf "run owner mismatch" (Sentinel ErrForbidden))
        else if negb (RunState_eqb (Run.State run) RunStateActive) then
          inl (Errorf "run is not active" (Sentinel ErrConflict))
        else
          match dungeonRepo.GetStep st (Run.DungeonID run) stepID with
          | inl err => inl (Errorf "load step" err)
          | inr step =>
              if negb (BossStep.Order step =? Run.CurrentStep run) then
                inl (Errorf "expected step order" (Sentinel ErrWrongStepOrder))
              else
                match AttemptRequest.Lat req, AttemptRequest.Lon req with
                | Some lat, Some lon =>
                    let distance :=
                      geo.HaversineMeters lat lon
                        (BossLocation.Lat (BossStep.Location step))
                        (BossLocation.Lon (BossStep.Location step)) in
                    if float_gt distance (BossLocation.RadiusMeters (BossStep.Location step))
                    then inl (Errorf "distance exceeds" (Sentinel ErrNotInRange))
                    else inr (run, step, distance)
                | _, _ => inl (LibraryError "nil pointer dereference")
                end
          end
    end.

(** [Attempt], the lookup of an existing attempt record: [None] when there is
    none and the attempt is a fresh one. *)
Definition attemptReplay (st : Store) (runID stepID : string) (req : AttemptRequest.t)
  : option (result AttemptResponse.t) :=
  match runRepo.GetAttemptRecord st runID stepID with
  | inr existing =>
      if negb (AttemptRecord.IdempotencyKey existing =?s "")
         && negb (AttemptRecord.IdempotencyKey existing =?s AttemptRequest.IdempotencyKey req)
      then Some (inl keyMismatch)
      else if negb (AttemptRecord.RewardApplied existing) then
        Some (inl (Errorf "attempt already in progress" (Sentinel ErrAlreadyHandled)))
      else
        match decodeAttemptResponse (AttemptRecord.Response existing) with
        | inl convErr => Some (inl (Errorf "decode cached attempt response" convErr))
        | inr resp => Some (inr (asReplay resp))
        end
  | inl err =>
      if errorsIs err ErrNotFound then None
      else Some (inl (Errorf "check attempt replay state" err))
  end.

Fixpoint applyRewardItems (playerID : string) (now : Time) (items : list RewardItem.t)
  : Tx unit :=
  match items with
  | [] => ret tt
  | item :: rest =>
      wrapErr "apply inventory reward item"
        (inventoryRepo.AddItem playerID (RewardItem.ItemID item) (RewardItem.Qty item) now) ;;;
      applyRewardItems playerID now rest
  end.

(** The mutation of [run] inside the transaction: a killed step appended,
    [CurrentStep++], completion once it exceeds [len(steps)]. *)
Definition progress (run : Run.t) (stepID attemptID : string) (now : Time)
    (nsteps : Z) : Run.t :=
  let current := wrap64 (Run.CurrentStep run + 1) in
  {| Run.ID := Run.ID run; Run.DungeonID := Run.DungeonID run;
     Run.PlayerID := Run.PlayerID run;
     Run.State := if current >? nsteps then RunStateCompleted else Run.State run;
     Run.CurrentStep := current;
     Run.KilledSteps :=
       Run.KilledSteps run ++
       [{| KilledStep.BossStepID := stepID; KilledStep.KilledAt := now;
           KilledStep.AttemptID := attemptID |}];
     Run.StartedAt := Run.StartedAt run;
     Run.EndedAt := if current >? nsteps then Some now else Run.EndedAt run;
     Run.UpdatedAt := now |}.

(** The body of the transaction of [Attempt]. *)
Definition settle (now : Time) (playerID runID stepID : string) (run : Run.t)
    (step : BossStep.t) (distance : float) (steps : list BossStep.t)
    (record : AttemptRecord.t) : Tx AttemptResponse.t :=
  wrapErr "create attempt idempotency record" (runRepo.CreateAttemptRecord record) ;;;
  updatedPlayer <- wrapErr "apply gold reward"
                     (playerRepo.IncrementGold playerID
                        (Rewards.Gold (BossStep.Rewards step)) now) ;;
  applyRewardItems playerID now (Rewards.Items (BossStep.Rewards step)) ;;;
  updatedRun <- wrapErr "update run progression"
                  (runRepo.ReplaceRun
                     (progress run stepID (AttemptRecord.ID record) now
                        (Z.of_nat (List.length steps)))) ;;
  let response :=
    {| AttemptResponse.RunID := runID; AttemptResponse.StepID := stepID;
       AttemptResponse.DistanceM := distance;
       AttemptResponse.Rewards := BossStep.Rewards step;
       AttemptResponse.Run := updatedRun; AttemptResponse.Player := updatedPlayer;
       AttemptResponse.Idempotency := false |} in
  wrapErr "persist attempt replay response"
    (runRepo.UpdateAttemptRecord (AttemptRecord.ID record) response true) ;;;
  ret response.

(** The attempt record in its pending form, inserted before the ledger is
    touched. *)
Definition pendingRecord (now : Time) (uuid playerID runID stepID : string)
    (req : AttemptRequest.t) : AttemptRecord.t :=
  {| AttemptRecord.ID := uuid; AttemptRecord.RunID := runID;
     AttemptRecord.StepID := stepID; AttemptRecord.PlayerID := playerID;
     AttemptRecord.IdempotencyKey := AttemptRequest.IdempotencyKey req;
     AttemptRecord.RewardApplied := false; AttemptRecord.Response := rawNil;
     AttemptRecord.CreatedAt := now |}.

(** [Attempt], the fresh path: the transaction and, when it fails on a
    duplicate attempt record, the answer from the record that is there.
    [now] is the reading of [s.now()] and [uuid] the value of
    [functions.NewUUID()]. *)
Definition attemptFresh (now : Time) (uuid : string) (st : Store)
    (playerID runID stepID : string) (req : AttemptRequest.t) (run : Run.t)
    (step : BossStep.t) (distance : float) : result AttemptResponse.t * Store :=
  match dungeonRepo.ListStepsByDungeon st (Run.DungeonID run) with
  | inl err => (inl (Errorf "list steps for completion check" err), st)
  | inr steps =>
      let record := pendingRecord now uuid playerID runID stepID req in
      match WithTransaction
              (settle now playerID runID stepID run step distance steps record) st with
      | (inr response, st') => (inr response, st')
      | (inl txErr, st') =>
          if errorsIs txErr ErrAlreadyHandled then
            match runRepo.GetAttemptRecord st' runID stepID with
            | inl err => (inl (Errorf "load existing attempt after duplicate key" err), st')
            | inr record =>
                if negb (AttemptRecord.IdempotencyKey record =?s "")
                   && negb (AttemptRecord.IdempotencyKey record
                            =?s AttemptRequest.IdempotencyKey req)
                then (inl keyMismatch, st')
                else
                  match decodeAttemptResponse (AttemptRecord.Response record) with
                  | inl convErr =>
                      (inl (Errorf "decode existing attempt response" convErr), st')
                  | inr resp => (inr (asReplay resp), st')
                  end
            end
          else (inl (Errorf "attempt transaction" txErr), st')
      end
  end.

(** [Service.Attempt]. The service holds no lock between its lookup of the
    attempt record and its transaction: [concurrent] is what other requests
    commit to the store in between (the identity when there are none). The
    result comes with the store the call leaves. *)
Definition Attempt (concurrent : Store -> Store) (now : Time) (uuid : string)
    (st : Store) (playerID runID stepID : string) (req : AttemptRequest.t)
  : result AttemptResponse.t * Store :=
  match attemptAdmission st playerID runID stepID req with
  | inl err => (inl err, st)
  | inr (run, step, distance) =>
      match attemptReplay st runID stepID req with
      | Some answer => (answer, st)
      | None =>
          attemptFresh now uuid (concurrent st) playerID runID stepID req run step distance
      end
  end.

(** The number of steps [Attempt] counts for the dungeon of a run. *)
Definition stepCount (st : Store) (dungeonID : string) : Z :=
  Z.of_nat (List.length (filter (fun s => BossStep.DungeonID s =?s dungeonID)
                           (boss_steps st))).

(** A client working through a run: one call of [Attempt] after the other,
    with no other request in between, each one a fresh success. [None] as
    soon as a call fails or answers with a replay. *)
Record AttemptCall : Type := {
  atTime : Time;
  withUUID : string;
  onStep : string;
  request : AttemptRequest.t
}.

Definition sequential : Store -> Store := fun st => st.

Fixpoint attemptEach (st : Store) (playerID runID : string) (calls : list AttemptCall)
  : option Store :=
  match calls with
  | [] => Some st
  | call :: rest =>
      match Attempt sequential (atTime call) (withUUID call) st playerID runID
              (onStep call) (request call) with
      | (inr resp, st') =>
          if AttemptResponse.Idempotency resp then None
          else attemptEach st' playerID runID rest
      | (inl _, _) => None
      end
  end.

Definition killedBy (call : AttemptCall) : KilledStep.t :=
  {| KilledStep.BossStepID := onStep call; KilledStep.KilledAt := atTime call;
     KilledStep.AttemptID := withUUID call |}.

End Service.
End run.

(** ** Package services/auction *)

Module auction.
Section Service.
Context `{Codec}.

Local Open Scope tx_scope.

(** The [validate] tag of [models.BuyListingRequest]: [qty] required, at
    least 1. *)
Definition validateBuyListingRequest (req : BuyListingRequest.t) : bool :=
  1 <=? BuyListingRequest.Qty req.

(** [totalPrice := req.Qty * listing.PricePerUnit], an int64 product. *)
Definition totalPrice (req : BuyListingRequest.t) (listing : Listing.t) : Z :=
  wrap64 (BuyListingRequest.Qty req * Listing.PricePerUnit listing).

(** The listing after a buy: sold to the buyer when the whole quantity goes,
    reduced otherwise. *)
Definition fill (listing : Listing.t) (buyerID : string) (qty : Z) : Listing.t :=
  if qty =? Listing.Qty listing then
    {| Listing.ID := Listing.ID listing; Listing.SellerID := Listing.SellerID listing;
       Listing.BuyerID := buyerID; Listing.ItemID := Listing.ItemID listing;
       Listing.Qty := 0; Listing.PricePerUnit := Listing.PricePerUnit listing;
       Listing.Status := ListingStatusSold; Listing.CreatedAt := Listing.CreatedAt listing;
       Listing.ExpiresAt := Listing.ExpiresAt listing |}
  else
    {| Listing.ID := Listing.ID listing; Listing.SellerID := Listing.SellerID listing;
       Listing.BuyerID := Listing.BuyerID listing; Listing.ItemID := Listing.ItemID listing;
       Listing.Qty := wrap64 (Listing.Qty listing - qty);
       Listing.PricePerUnit := Listing.PricePerUnit listing;
       Listing.Status := Listing.Status listing;
       Listing.CreatedAt := Listing.CreatedAt listing;
       Listing.ExpiresAt := Listing.ExpiresAt listing |}.

Definition receipt (uuid buyerID : string) (listing : Listing.t) (qty total : Z)
    (now : Time) : Trade.t :=
  {| Trade.ID := uuid; Trade.BuyerID := buyerID; Trade.SellerID := Listing.SellerID listing;
     Trade.ListingID := Listing.ID listing; Trade.ItemID := Listing.ItemID listing;
     Trade.Qty := qty; Trade.TotalPrice := total; Trade.CreatedAt := now |}.

(** The body of the transaction of [Buy]. *)
Definition settle (now : Time) (uuid buyerID : string) (req : BuyListingRequest.t)
    (listing : Listing.t) : Tx Listing.t :=
  let total := totalPrice req listing in
  buyer <- wrapErr "load buyer" (readTx (fun st => playerRepo.GetByID st buyerID)) ;;
  if Player.Gold buyer <? total then
    fail (Errorf "insufficient funds" (Sentinel ErrInsufficient))
  else
    wrapErr "debit buyer wallet"
      (playerRepo.SetGold buyerID (wrap64 (Player.Gold buyer - total)) now) ;;;
    wrapErr "credit seller wallet"
      (playerRepo.IncrementGold (Listing.SellerID listing) total now) ;;;
    wrapErr "transfer item to buyer inventory"
      (inventoryRepo.AddItem buyerID (Listing.ItemID listing)
         (BuyListingRequest.Qty req) now) ;;;
    let listing' := fill listing buyerID (BuyListingRequest.Qty req) in
    out <- wrapErr "update listing status after buy" (auctionRepo.ReplaceListing listing') ;;
    wrapErr "insert trade"
      (auctionRepo.InsertTrade
         (receipt uuid buyerID listing' (BuyListingRequest.Qty req) total now)) ;;;
    ret out.

(** [listing.ExpiresAt != nil && listing.ExpiresAt.Before(now)] *)
Definition expired (listing : Listing.t) (now : Time) : bool :=
  match Listing.ExpiresAt listing with
  | Some expiresAt => expiresAt <? now
  | None => false
  end.

(** [Service.Buy]. [nowCheck] and [now] are the two readings of [s.now()],
    the first taken by the expiry check, and [uuid] the value of
    [functions.NewUUID()]. The result comes with the store the call leaves. *)
Definition Buy (nowCheck now : Time) (uuid : string) (st : Store)
    (buyerID listingID : string) (req : BuyListingRequest.t) : result Listing.t * Store :=
  if negb (validateBuyListingRequest req) then
    (inl (Errorf "validate buy listing" (Sentinel ErrValidation)), st)
  else
    match auctionRepo.GetByID st listingID with
    | inl err => (inl (Errorf "load listing" err), st)
    | inr listing =>
        if negb (ListingStatus_eqb (Listing.Status listing) ListingStatusActive) then
          (inl (Errorf "listing is not active" (Sentinel ErrConflict)), st)
        else if Listing.SellerID listing =?s buyerID then
          (inl (Errorf "seller cannot buy own listing" (Sentinel ErrConflict)), st)
        else if BuyListingRequest.Qty req >? Listing.Qty listing then
          (inl (Errorf "requested qty exceeds listing qty" (Sentinel ErrConflict)), st)
        else if expired listing nowCheck then
          (inl (Errorf "listing expired" (Sentinel ErrConflict)), st)
        else
          match WithTransaction (settle now uuid buyerID req listing) st with
          | (inl err, st') => (inl (Errorf "transaction buy listing" err), st')
          | (inr out, st') => (inr out, st')
          end
    end.

End Service.
End auction.

(** ** Concrete data

    Instances of the library parameters and the stores of the scenarios of the
    specification, on which the definitions above are evaluated. *)

Module fixtures.

(** A codec that keeps the stored response as it is. *)
#[export] Instance typedCodec : Codec :=
  {| Raw := option AttemptResponse.t;
     rawNil := None;
     bsonReadBack := Some;
     Payload := option AttemptResponse.t;
     jsonMarshal := fun raw => inr raw;
     jsonUnmarshal := fun payload =>
       match payload with
       | Some response => inr response
       | None => inl "null"
       end |}.

(** The first-order approximations [sin x = x], [cos x = 1] and
    [atan2 y x = y / x], enough to run the geofence on the fixtures: exact at
    distance zero, and within a fraction of a percent of the distance one
    degree of latitude away. *)
#[export] Instance flatMath : geo.MathLib :=
  {| geo.Sin := fun x => x;
     geo.Cos := fun _ => 1%float;
     geo.Atan2 := fun y x => (y / x)%float |}.

Definition louvre : BossLocation.t :=
  {| BossLocation.Lat := 0x1.86ea3677d7a5bp+5; BossLocation.Lon := 0x1.2b2e9cc79b3a7p+1;
     BossLocation.RadiusMeters := 100 |}.

Definition reward : Rewards.t :=
  {| Rewards.Gold := 50;
     Rewards.Items := [{| RewardItem.ItemID := "potion"; RewardItem.Qty := 1 |}] |}.

Definition bossStep (id : string) (order : Z) : BossStep.t :=
  {| BossStep.ID := id; BossStep.DungeonID := "d-1"; BossStep.Order := order;
     BossStep.Name := id; BossStep.Location := louvre; BossStep.ZoneDescription := "zone";
     BossStep.Difficulty := 1; BossStep.Rewards := reward;
     BossStep.CreatedAt := 0; BossStep.UpdatedAt := 0 |}.

Definition player (id : string) (gold : Z) : Player.t :=
  {| Player.ID := id; Player.DisplayName := id; Player.Gold := gold;
     Player.CreatedAt := 0; Player.UpdatedAt := 0; Player.Email := id;
     Player.PasswordHash := ""; Player.Role := "player" |}.

Definition freshRun : Run.t :=
  {| Run.ID := "run-1"; Run.DungeonID := "d-1"; Run.PlayerID := "p-1";
     Run.State := RunStateActive; Run.CurrentStep := 1; Run.KilledSteps := [];
     Run.StartedAt := 10; Run.EndedAt := None; Run.UpdatedAt := 10 |}.

(** A dungeon of two steps, a fresh run of player p-1 on it. *)
Definition dungeonStore : Store :=
  {| runs := [freshRun]; attempts := []; players := [player "p-1" 0];
     inventory := []; boss_steps := [bossStep "s-1" 1; bossStep "s-2" 2];
     auction_listings := []; auction_trades := [] |}.

Definition attemptAt (lat lon : float) (key : string) : AttemptRequest.t :=
  {| AttemptRequest.Lat := Some lat; AttemptRequest.Lon := Some lon;
     AttemptRequest.DeviceTime := ""; AttemptRequest.GPSAccuracyM := None;
     AttemptRequest.IdempotencyKey := key |}.

Definition onSite (key : string) : AttemptRequest.t :=
  attemptAt (BossLocation.Lat louvre) (BossLocation.Lon louvre) key.

Definition listingOf (qty price : Z) : Listing.t :=
  {| Listing.ID := "L-1"; Listing.SellerID := "seller"; Listing.BuyerID := "";
     Listing.ItemID := "sword"; Listing.Qty := qty; Listing.PricePerUnit := price;
     Listing.Status := ListingStatusActive; Listing.CreatedAt := 5;
     Listing.ExpiresAt := None |}.

(** A market with one active listing of [qty] swords at [price] a piece, the
    seller without gold and the buyer with 100. *)
Definition marketStore (qty price : Z) : Store :=
  {| runs := []; attempts := [];
     players := [player "seller" 0; player "buyer" 100];
     inventory := []; boss_steps := [];
     auction_listings := [listingOf qty price]; auction_trades := [] |}.

Definition buyQty (qty : Z) : BuyListingRequest.t := {| BuyListingRequest.Qty := qty |}.

(** One degree of latitude north of the step. *)
Definition offSite (key : string) : AttemptRequest.t :=
  attemptAt (BossLocation.Lat louvre + 1)%float (BossLocation.Lon louvre) key.

(** The first attempt of the scenario: step s-1 of the fresh run, on site,
    under the key idem-key-1; its response and the store it leaves. *)
Definition firstAttempt : result AttemptResponse.t * Store :=
  run.Attempt run.sequential 1000 "a-1" dungeonStore "p-1" "run-1" "s-1"
    (onSite "idem-key-1").

Definition settledRun : Run.t :=
  {| Run.ID := "run-1"; Run.DungeonID := "d-1"; Run.PlayerID := "p-1";
     Run.State := RunStateActive; Run.CurrentStep := 2;
     Run.KilledSteps :=
       [{| KilledStep.BossStepID := "s-1"; KilledStep.KilledAt := 1000;
           KilledStep.AttemptID := "a-1" |}];
     Run.StartedAt := 10; Run.EndedAt := None; Run.UpdatedAt := 1000 |}.

Definition firstResponse : AttemptResponse.t :=
  {| AttemptResponse.RunID := "run-1"; AttemptResponse.StepID := "s-1";
     AttemptResponse.DistanceM := 0; AttemptResponse.Rewards := reward;
     AttemptResponse.Run := settledRun;
     AttemptResponse.Player := playerRepo.withGold 50 1000 (player "p-1" 0);
     AttemptResponse.Idempotency := false |}.

Definition settledStore : Store :=
  {| runs := [settledRun];
     attempts :=
       [{| AttemptRecord.ID := "a-1"; AttemptRecord.RunID := "run-1";
           AttemptRecord.StepID := "s-1"; AttemptRecord.PlayerID := "p-1";
           AttemptRecord.IdempotencyKey := "idem-key-1";
           AttemptRecord.RewardApplied := true;
           AttemptRecord.Response := Some firstResponse;
           AttemptRecord.CreatedAt := 1000 |}];
     players := [playerRepo.withGold 50 1000 (player "p-1" 0)];
     inventory :=
       [{| InventoryEntry.ID := "p-1:potion"; InventoryEntry.PlayerID := "p-1";
           InventoryEntry.ItemID := "potion"; InventoryEntry.Qty := 1;
           InventoryEntry.UpdatedAt := 1000 |}];
     boss_steps := boss_steps dungeonStore;
     auction_listings := []; auction_trades := [] |}.

(** The two calls that clear the dungeon. *)
Definition clearDungeon : list run.AttemptCall :=
  [{| run.atTime := 1000; run.withUUID := "a-1"; run.onStep := "s-1";
      run.request := onSite "idem-key-1" |};
   {| run.atTime := 2000; run.withUUID := "a-2"; run.onStep := "s-2";
      run.request := onSite "idem-key-2" |}].

Definition clearedStore : Store :=
  Eval vm_compute in
    match run.attemptEach dungeonStore "p-1" "run-1" clearDungeon with
    | Some st => st
    | None => dungeonStore
    end.

(** An attempt record of (run-1, s-1) without an idempotency key, and the
    store of a fresh run to which a concurrent request has added it. *)
Definition keylessRecord : AttemptRecord.t :=
  {| AttemptRecord.ID := "a-0"; AttemptRecord.RunID := "run-1";
     AttemptRecord.StepID := "s-1"; AttemptRecord.PlayerID := "p-1";
     AttemptRecord.IdempotencyKey := ""; AttemptRecord.RewardApplied := true;
     AttemptRecord.Response := Some firstResponse; AttemptRecord.CreatedAt := 900 |}.

Definition withKeylessRecord (st : Store) : Store := set_attempts [keylessRecord] st.

End fixtures.

(** ** More of package models *)

Module QueryParams.
Record t : Type := {
  Page : Z;
  Limit : Z
}.
End QueryParams.

Definition Normalize (q : QueryParams.t) : QueryParams.t :=
  {| QueryParams.Page := if QueryParams.Page q <=? 0 then 1 else QueryParams.Page q;
     QueryParams.Limit :=
       if (QueryParams.Limit q <=? 0) || (QueryParams.Limit q >? 100) then 20
       else QueryParams.Limit q |}.

(** [(n.Page - 1) * n.Limit], an int64 product. *)
Definition Skip (q : QueryParams.t) : Z :=
  let n := Normalize q in
  wrap64 (wrap64 (QueryParams.Page n - 1) * QueryParams.Limit n).

Inductive DungeonStatus : Type :=
| DungeonStatusDraft
| DungeonStatusPublished
| DungeonStatusArchived.

Module Dungeon.
Record t : Type := {
  ID : string;
  Title : string;
  Description : string;
  CreatedBy : string;
  AreaName : string;
  Status : DungeonStatus;
  CreatedAt : Time;
  UpdatedAt : Time
}.
End Dungeon.

Module ItemDef.
Record t : Type := {
  ID : string;
  Type_ : string;
  Rarity : string;
  Name : string;
  Description : string;
  Tradable : bool;
  BaseValue : Z;
  CreatedAt : Time;
  UpdatedAt : Time
}.
End ItemDef.

Module StartRunRequest.
Record t : Type := {
  DungeonID : string
}.
End StartRunRequest.

Module CreateListingRequest.
Record t : Type := {
  ItemID : string;
  Qty : Z;
  PricePerUnit : Z;
  ExpiresInH : Z
}.
End CreateListingRequest.

Module InventoryItem.
Record t : Type := {
  ItemID : string;
  Qty : Z
}.
End InventoryItem.

Module InventoryResponse.
Record t : Type := {
  PlayerID : string;
  Items : list InventoryItem.t
}.
End InventoryResponse.

(** The collections that the run and auction services only read: the
    dungeons and the item definitions. *)
Record Catalog : Type := {
  dungeons : list Dungeon.t;
  item_defs : list ItemDef.t
}.

(** [time.Hour] on the clock of [Time], which counts milliseconds. *)
Definition Hour : Z := 3600000.

(** [Find] with [SetSkip] and [SetLimit] on the sorted matches. The server
    refuses a negative skip. *)
Definition page {A} (q : QueryParams.t) (sorted : list A) : string + list A :=
  if Skip q <? 0 then inl "skip value must be non-negative"
  else inr (firstn (Z.to_nat (QueryParams.Limit q)) (skipn (Z.to_nat (Skip q)) sorted)).

(** A sort on a time field, latest first; among documents of equal time the
    order is one of those the server may return. *)
Fixpoint insertLatest {A} (at_ : A -> Time) (d : A) (l : list A) : list A :=
  match l with
  | [] => [d]
  | x :: xs => if at_ x <? at_ d then d :: l else x :: insertLatest at_ d xs
  end.

Definition sortLatestFirst {A} (at_ : A -> Time) (l : list A) : list A :=
  fold_right (insertLatest at_) [] l.

(** A list in the order of the sort: no document is later than one before
    it. *)
Fixpoint latestFirst {A} (at_ : A -> Time) (l : list A) : Prop :=
  match l with
  | [] => True
  | x :: xs => (forall y, In y xs -> at_ y <= at_ x) /\ latestFirst at_ xs
  end.

(** ** More of package repositories/inventory *)

Module inventoryRepoExt.
Section WithCodec.
Context `{Codec}.

(** The filter of [RemoveItem]: the entry of (player, item) when it holds at
    least [qty]. *)
Definition holding (playerID itemID : string) (qty : Z) (e : InventoryEntry.t) : bool :=
  inventoryRepo.byPlayerItem playerID itemID e && (qty <=? InventoryEntry.Qty e).

(** [UpdateOne] with [$inc] of [-qty] on the entry that holds at least [qty];
    no match is reported as [ErrConflict]. *)
Definition RemoveItem (playerID itemID : string) (qty : Z) (updatedAt : Time) : Tx unit :=
  fun st =>
    if qty <=? 0 then inl (Errorf "qty must be positive" (Sentinel ErrValidation))
    else
      match findOne (holding playerID itemID qty) (inventory st) with
      | Some e =>
          if in_int64 (InventoryEntry.Qty e + wrap64 (- qty)) then
            inr (tt, set_inventory
                       (updateFirst (holding playerID itemID qty)
                          (inventoryRepo.withQty (InventoryEntry.Qty e + wrap64 (- qty))
                             updatedAt) (inventory st)) st)
          else inl (Errorf "remove inventory item"
                      (LibraryError "Failed to apply $inc operations"))
      | None => inl (Errorf "not enough item quantity" (Sentinel ErrConflict))
      end.

(** [Find] on the player's entries of positive quantity. *)
Definition ListInventory (st : Store) (playerID : string) : result (list InventoryEntry.t) :=
  inr (filter (fun e => (InventoryEntry.PlayerID e =?s playerID)
                        && (InventoryEntry.Qty e >? 0)) (inventory st)).

Definition GetItemDef (cat : Catalog) (itemID : string) : result ItemDef.t :=
  match findOne (fun i => ItemDef.ID i =?s itemID) (item_defs cat) with
  | Some item => inr item
  | None => inl (Errorf "item" (Sentinel ErrNotFound))
  end.

End WithCodec.
End inventoryRepoExt.

(** ** Package services/inventory *)

Module inventory.
Section Service.
Context `{Codec}.

Definition GetInventory (st : Store) (playerID : string) : result InventoryResponse.t :=
  match inventoryRepoExt.ListInventory st playerID with
  | inl err => inl (Errorf "list inventory" err)
  | inr entries =>
      inr {| InventoryResponse.PlayerID := playerID;
             InventoryResponse.Items :=
               map (fun e => {| InventoryItem.ItemID := InventoryEntry.ItemID e;
                                InventoryItem.Qty := InventoryEntry.Qty e |}) entries |}
  end.

End Service.
End inventory.

(** ** More of package repositories/auction *)

Module auctionRepoExt.
Section WithCodec.
Context `{Codec}.

(** [InsertOne]: a duplicate [_id] is a driver error. *)
Definition CreateListing (listing : Listing.t) : Tx unit :=
  fun st =>
    if existsb (auctionRepo.byListingID (Listing.ID listing)) (auction_listings st) then
      inl (Errorf "insert listing" (LibraryError "duplicate key"))
    else inr (tt, set_auction_listings (auction_listings st ++ [listing]) st).

(** The filter of [ListActive]: active, and without expiry or expiring after
    [now]. *)
Definition listed (now : Time) (l : Listing.t) : bool :=
  ListingStatus_eqb (Listing.Status l) ListingStatusActive
  && match Listing.ExpiresAt l with
     | None => true
     | Some expiresAt => expiresAt >? now
     end.

(** [now] is the reading of [time.Now()]. *)
Definition ListActive (now : Time) (st : Store) (params : QueryParams.t)
  : result (list Listing.t) :=
  let q := Normalize params in
  match page q (sortLatestFirst Listing.CreatedAt (filter (listed now) (auction_listings st)))
  with
  | inl msg => inl (Errorf "list listings" (LibraryError msg))
  | inr listings => inr listings
  end.

End WithCodec.
End auctionRepoExt.

(** ** More of package services/auction *)

Module auctionExt.
Section Service.
Context `{Codec}.

Local Open Scope tx_scope.

(** The [validate] tags of [models.CreateListingRequest]: [itemId] of 1 to 64
    characters, [qty] and [pricePerUnit] at least 1, [expiresInHours] absent
    (zero) or from 1 to 720. *)
Definition validateCreateListingRequest (req : CreateListingRequest.t) : bool :=
  (1 <=? String.length (CreateListingRequest.ItemID req))%nat
  && (String.length (CreateListingRequest.ItemID req) <=? 64)%nat
  && (1 <=? CreateListingRequest.Qty req)
  && (1 <=? CreateListingRequest.PricePerUnit req)
  && ((CreateListingRequest.ExpiresInH req =? 0)
      || ((1 <=? CreateListingRequest.ExpiresInH req)
          && (CreateListingRequest.ExpiresInH req <=? 720))).

(** The listing [CreateListing] builds before its transaction. *)
Definition newListing (now : Time) (uuid sellerID : string) (req : CreateListingRequest.t)
  : Listing.t :=
  {| Listing.ID := uuid; Listing.SellerID := sellerID; Listing.BuyerID := "";
     Listing.ItemID := CreateListingRequest.ItemID req;
     Listing.Qty := CreateListingRequest.Qty req;
     Listing.PricePerUnit := CreateListingRequest.PricePerUnit req;
     Listing.Status := ListingStatusActive; Listing.CreatedAt := now;
     Listing.ExpiresAt :=
       if CreateListingRequest.ExpiresInH req >? 0
       then Some (now + CreateListingRequest.ExpiresInH req * Hour)
       else None |}.

(** [Service.CreateListing]; [now] is the reading of [s.now()] and [uuid] the
    value of [functions.NewUUID()]. *)
Definition CreateListing (cat : Catalog) (now : Time) (uuid : string) (st : Store)
    (sellerID : string) (req : CreateListingRequest.t) : result Listing.t * Store :=
  if negb (validateCreateListingRequest req) then
    (inl (Errorf "validate create listing" (Sentinel ErrValidation)), st)
  else
    match inventoryRepoExt.GetItemDef cat (CreateListingRequest.ItemID req) with
    | inl err => (inl (Errorf "load item def" err), st)
    | inr item =>
        if negb (ItemDef.Tradable item) then
          (inl (Errorf "item not tradable" (Sentinel ErrConflict)), st)
        else
          let listing := newListing now uuid sellerID req in
          match WithTransaction
                  (wrapErr "remove seller inventory for listing"
                     (inventoryRepoExt.RemoveItem sellerID (CreateListingRequest.ItemID req)
                        (CreateListingRequest.Qty req) now) ;;;
                   wrapErr "create listing" (auctionRepoExt.CreateListing listing) ;;;
                   ret tt) st with
          | (inl err, st') => (inl (Errorf "transaction create listing" err), st')
          | (inr _, st') => (inr listing, st')
          end
    end.

Definition ListActive (now : Time) (st : Store) (params : QueryParams.t)
  : result (list Listing.t) :=
  match auctionRepoExt.ListActive now st params with
  | inl err => inl (Errorf "list active listings" err)
  | inr listings => inr listings
  end.

(** [listing.Status = models.ListingStatusCancelled] *)
Definition cancelled (listing : Listing.t) : Listing.t :=
  {| Listing.ID := Listing.ID listing; Listing.SellerID := Listing.SellerID listing;
     Listing.BuyerID := Listing.BuyerID listing; Listing.ItemID := Listing.ItemID listing;
     Listing.Qty := Listing.Qty listing;
     Listing.PricePerUnit := Listing.PricePerUnit listing;
     Listing.Status := ListingStatusCancelled;
     Listing.CreatedAt := Listing.CreatedAt listing;
     Listing.ExpiresAt := Listing.ExpiresAt listing |}.

(** [Service.Cancel]; [now] is the reading of [s.now()]. *)
Definition Cancel (now : Time) (st : Store) (sellerID listingID : string)
  : result Listing.t * Store :=
  match auctionRepo.GetByID st listingID with
  | inl err => (inl (Errorf "load listing" err), st)
  | inr listing =>
      if negb (Listing.SellerID listing =?s sellerID) then
        (inl (Errorf "cannot cancel foreign listing" (Sentinel ErrForbidden)), st)
      else if negb (ListingStatus_eqb (Listing.Status listing) ListingStatusActive) then
        (inl (Errorf "listing cannot be cancelled in current state" (Sentinel ErrConflict)),
         st)
      else
        match WithTransaction
                ((if Listing.Qty listing >? 0 then
                    wrapErr "restore inventory on cancel"
                      (inventoryRepo.AddItem sellerID (Listing.ItemID listing)
                         (Listing.Qty listing) now)
                  else ret tt) ;;;
                 wrapErr "update listing to cancelled"
                   (auctionRepo.ReplaceListing (cancelled listing))) st with
        | (inl err, st') => (inl (Errorf "transaction cancel listing" err), st')
        | (inr out, st') => (inr out, st')
        end
  end.

End Service.
End auctionExt.

(** ** More of package repositories/run and repositories/dungeon *)

Module runRepoExt.
Section WithCodec.
Context `{Codec}.

(** The filter of [HasActiveRun], which is also the scope of the partial
    unique index on (playerId, dungeonId, state). *)
Definition activeOf (playerID dungeonID : string) (r : Run.t) : bool :=
  (Run.PlayerID r =?s playerID) && (Run.DungeonID r =?s dungeonID)
  && RunState_eqb (Run.State r) RunStateActive.

(** [InsertOne]: a duplicate key, on [_id] or, for an active run, on the
    partial unique index, is reported as [ErrConflict]. *)
Definition CreateRun (run : Run.t) : Tx unit :=
  fun st =>
    if existsb (fun r => runRepo.byRunID (Run.ID run) r
                         || (RunState_eqb (Run.State run) RunStateActive
                             && activeOf (Run.PlayerID run) (Run.DungeonID run) r))
         (runs st)
    then inl (Errorf "active run already exists" (Sentinel ErrConflict))
    else inr (tt, set_runs (runs st ++ [run]) st).

(** [CountDocuments(...) > 0] *)
Definition HasActiveRun (st : Store) (playerID dungeonID : string) : result bool :=
  inr (0 <? Z.of_nat (List.length (filter (activeOf playerID dungeonID) (runs st)))).

Definition ListRunsByPlayer (st : Store) (playerID : string) (params : QueryParams.t)
  : result (list Run.t) :=
  let q := Normalize params in
  match page q (sortLatestFirst Run.StartedAt
                  (filter (fun r => Run.PlayerID r =?s playerID) (runs st))) with
  | inl msg => inl (Errorf "list runs" (LibraryError msg))
  | inr found => inr found
  end.

End WithCodec.
End runRepoExt.

Module dungeonRepoExt.

Definition GetDungeonByID (cat : Catalog) (id : string) : result Dungeon.t :=
  match findOne (fun d => Dungeon.ID d =?s id) (dungeons cat) with
  | Some d => inr d
  | None => inl (Errorf "dungeon id" (Sentinel ErrNotFound))
  end.

(** [FindOneAndReplace] on [_id], returning the document after. *)
Definition UpdateDungeon (d : Dungeon.t) (cat : Catalog) : result (Dungeon.t * Catalog) :=
  match findOne (fun x => Dungeon.ID x =?s Dungeon.ID d) (dungeons cat) with
  | Some _ =>
      inr (d, {| dungeons := updateFirst (fun x => Dungeon.ID x =?s Dungeon.ID d)
                               (fun _ => d) (dungeons cat);
                 item_defs := item_defs cat |})
  | None => inl (Errorf "dungeon id" (Sentinel ErrNotFound))
  end.

End dungeonRepoExt.

(** ** More of package services/run *)

Module runExt.
Section Service.
Context `{Codec}.

(** The [validate] tag of [models.StartRunRequest]: [dungeonId] of 1 to 64
    characters. *)
Definition validateStartRunRequest (req : StartRunRequest.t) : bool :=
  (1 <=? String.length (StartRunRequest.DungeonID req))%nat
  && (String.length (StartRunRequest.DungeonID req) <=? 64)%nat.

(** The run [Start] builds. *)
Definition newRun (now : Time) (uuid playerID : string) (req : StartRunRequest.t) : Run.t :=
  {| Run.ID := uuid; Run.DungeonID := StartRunRequest.DungeonID req;
     Run.PlayerID := playerID; Run.State := RunStateActive; Run.CurrentStep := 1;
     Run.KilledSteps := []; Run.StartedAt := now; Run.EndedAt := None;
     Run.UpdatedAt := now |}.

(** [Service.Start]; [now] is the reading of [s.now()] and [uuid] the value
    of [functions.NewUUID()]. *)
Definition Start (cat : Catalog) (now : Time) (uuid : string) (st : Store)
    (playerID : string) (req : StartRunRequest.t) : result Run.t * Store :=
  if negb (validateStartRunRequest req) then
    (inl (Errorf "validate start run request" (Sentinel ErrValidation)), st)
  else
    match dungeonRepoExt.GetDungeonByID cat (StartRunRequest.DungeonID req) with
    | inl err => (inl (Errorf "get dungeon for run" err), st)
    | inr dungeon =>
        match Dungeon.Status dungeon with
        | DungeonStatusPublished =>
            match playerRepo.GetByID st playerID with
            | inl err => (inl (Errorf "get player for run" err), st)
            | inr _ =>
                match runRepoExt.HasActiveRun st playerID (StartRunRequest.DungeonID req) with
                | inl err => (inl (Errorf "check active run" err), st)
                | inr true =>
                    (inl (Errorf "an active run already exists for this dungeon"
                            (Sentinel ErrConflict)), st)
                | inr false =>
                    let run := newRun now uuid playerID req in
                    match runRepoExt.CreateRun run st with
                    | inl err => (inl (Errorf "create run" err), st)
                    | inr (_, st') => (inr run, st')
                    end
                end
            end
        | _ => (inl (Errorf "dungeon not published" (Sentinel ErrValidation)), st)
        end
    end.

Definition List (st : Store) (playerID : string) (params : QueryParams.t)
  : result (list Run.t) :=
  match runRepoExt.ListRunsByPlayer st playerID params with
  | inl err => inl (Errorf "list runs" err)
  | inr found => inr found
  end.

Definition Get (st : Store) (playerID runID : string) : result Run.t :=
  match runRepo.GetRunByID st runID with
  | inl err => inl (Errorf "get run" err)
  | inr run =>
      if negb (Run.PlayerID run =?s playerID) then
        inl (Errorf "run owner mismatch" (Sentinel ErrForbidden))
      else inr run
  end.

End Service.
End runExt.

(** ** Package services/dungeon *)

Module dungeon.
Section Service.
Context `{Codec}.

(** [d.Status = models.DungeonStatusPublished; d.UpdatedAt = s.now()] *)
Definition published (now : Time) (d : Dungeon.t) : Dungeon.t :=
  {| Dungeon.ID := Dungeon.ID d; Dungeon.Title := Dungeon.Title d;
     Dungeon.Description := Dungeon.Description d; Dungeon.CreatedBy := Dungeon.CreatedBy d;
     Dungeon.AreaName := Dungeon.AreaName d; Dungeon.Status := DungeonStatusPublished;
     Dungeon.CreatedAt := Dungeon.CreatedAt d; Dungeon.UpdatedAt := now |}.

(** [st.Location.RadiusMeters <= 0] *)
Definition invalidRadius (step : BossStep.t) : bool :=
  PrimFloat.leb (BossLocation.RadiusMeters (BossStep.Location step)) PrimFloat.zero.

(** [Service.PublishDungeon]; [now] is the reading of [s.now()]. The steps
    are read from the store and the dungeon is replaced in the catalog, which
    comes back with the result. *)
Definition PublishDungeon (now : Time) (cat : Catalog) (st : Store)
    (mjID dungeonID : string) : result Dungeon.t * Catalog :=
  match dungeonRepoExt.GetDungeonByID cat dungeonID with
  | inl err => (inl (Errorf "get dungeon" err), cat)
  | inr d =>
      if negb (Dungeon.CreatedBy d =?s mjID) then
        (inl (Errorf "cannot publish foreign dungeon" (Sentinel ErrForbidden)), cat)
      else
        match dungeonRepo.ListStepsByDungeon st dungeonID with
        | inl err => (inl (Errorf "list steps" err), cat)
        | inr steps =>
            if (List.length steps =? 0)%nat then
              (inl (Errorf "cannot publish empty dungeon" (Sentinel ErrValidation)), cat)
            else
              match find invalidRadius steps with
              | Some _ =>
                  (inl (Errorf "step has invalid radius" (Sentinel ErrValidation)), cat)
              | None =>
                  match dungeonRepoExt.UpdateDungeon (published now d) cat with
                  | inl err => (inl (Errorf "publish dungeon" err), cat)
                  | inr (updated, cat') => (inr updated, cat')
                  end
              end
        end
  end.

(** [Service.GetPublishedByID] *)
Definition GetPublishedByID (cat : Catalog) (st : Store) (id : string)
  : result (Dungeon.t * list BossStep.t) :=
  match dungeonRepoExt.GetDungeonByID cat id with
  | inl err => inl (Errorf "get dungeon" err)
  | inr d =>
      match Dungeon.Status d with
      | DungeonStatusPublished =>
          match dungeonRepo.ListStepsByDungeon st id with
          | inl err => inl (Errorf "list steps" err)
          | inr steps => inr (d, steps)
          end
      | _ => inl (Errorf "dungeon is not published" (Sentinel ErrNotFound))
      end
  end.

End Service.
End dungeon.

(** ** Observations on a store *)

Section Observations.
Context `{Codec}.

(** The quantity a player holds of an item: the sum over the entries of
    (player, item), of which the unique index of the collection allows one. *)
Definition held (st : Store) (playerID itemID : string) : Z :=
  fold_right Z.add 0
    (map InventoryEntry.Qty
       (filter (inventoryRepo.byPlayerItem playerID itemID) (inventory st))).

(** The number of active runs of a player on a dungeon. *)
Definition activeRuns (st : Store) (playerID dungeonID : string) : nat :=
  List.length (filter (runRepoExt.activeOf playerID dungeonID) (runs st)).

(** The number of attempt records of a (run, step). *)
Definition recordsOf (st : Store) (runID stepID : string) : nat :=
  List.length (filter (runRepo.byRunStep runID stepID) (attempts st)).

(** The unique index of the inventory: at most one entry for each
    (player, item). *)
Definition entriesOf (st : Store) (playerID itemID : string) : nat :=
  List.length (filter (inventoryRepo.byPlayerItem playerID itemID) (inventory st)).

(** A sound inventory: the unique index holds and no quantity is
    negative. *)
Definition inventoryOk (st : Store) : Prop :=
  (forall p i, (entriesOf st p i <= 1)%nat)
  /\ (forall e, In e (inventory st) -> 0 <= InventoryEntry.Qty e).

(** The quantity of an item among the reward items of a step. *)
Definition rewardQty (items : list RewardItem.t) (itemID : string) : Z :=
  fold_right Z.add 0
    (map RewardItem.Qty (filter (fun item => RewardItem.ItemID item =?s itemID) items)).

End Observations.

(** ** Data for the market, the lobby and the catalog *)

Module fixturesExt.
Import fixtures.

Definition itemDef (id : string) (tradable : bool) : ItemDef.t :=
  {| ItemDef.ID := id; ItemDef.Type_ := "gear"; ItemDef.Rarity := "rare";
     ItemDef.Name := id; ItemDef.Description := id; ItemDef.Tradable := tradable;
     ItemDef.BaseValue := 10; ItemDef.CreatedAt := 0; ItemDef.UpdatedAt := 0 |}.

Definition dungeonOf (id : string) (status : DungeonStatus) : Dungeon.t :=
  {| Dungeon.ID := id; Dungeon.Title := "Louvre"; Dungeon.Description := "the museum";
     Dungeon.CreatedBy := "mj-1"; Dungeon.AreaName := "Paris"; Dungeon.Status := status;
     Dungeon.CreatedAt := 0; Dungeon.UpdatedAt := 0 |}.

(** Dungeon d-1 published and d-2 in draft; swords can be traded, relics
    cannot. *)
Definition catalog : Catalog :=
  {| dungeons := [dungeonOf "d-1" DungeonStatusPublished; dungeonOf "d-2" DungeonStatusDraft];
     item_defs := [itemDef "sword" true; itemDef "relic" false] |}.

(** The catalog before d-1 was published, and after [PublishDungeon] by its
    creator at time 50. *)
Definition draftCatalog : Catalog :=
  {| dungeons := [dungeonOf "d-1" DungeonStatusDraft]; item_defs := [itemDef "sword" true] |}.

Definition publishedCatalog : Catalog :=
  Eval vm_compute in snd (dungeon.PublishDungeon 50 draftCatalog dungeonStore "mj-1" "d-1").

Definition swords (qty : Z) : InventoryEntry.t :=
  {| InventoryEntry.ID := "seller:sword"; InventoryEntry.PlayerID := "seller";
     InventoryEntry.ItemID := "sword"; InventoryEntry.Qty := qty;
     InventoryEntry.UpdatedAt := 0 |}.

(** The seller holds five swords and nothing is listed. *)
Definition stallStore : Store :=
  {| runs := []; attempts := [];
     players := [player "seller" 0; player "buyer" 100];
     inventory := [swords 5]; boss_steps := [];
     auction_listings := []; auction_trades := [] |}.

Definition offer (qty price : Z) : CreateListingRequest.t :=
  {| CreateListingRequest.ItemID := "sword"; CreateListingRequest.Qty := qty;
     CreateListingRequest.PricePerUnit := price; CreateListingRequest.ExpiresInH := 0 |}.

(** Three of the swords listed at 10 a piece at time 100, as listing L-1. *)
Definition swordListing : Listing.t :=
  Eval vm_compute in auctionExt.newListing 100 "L-1" "seller" (offer 3 10).

Definition listedStore : Store :=
  Eval vm_compute in
    snd (auctionExt.CreateListing catalog 100 "L-1" stallStore "seller" (offer 3 10)).

(** The inventory steps of the listing and of its cancellation, alone. *)
Definition escrowedStore : Store := set_auction_listings [] listedStore.

Definition restockedStore : Store :=
  Eval vm_compute in
    match inventoryRepo.AddItem "seller" "sword" 3 200 listedStore with
    | inr (_, st) => st
    | inl _ => listedStore
    end.

(** L-1 cancelled by the seller at time 200. *)
Definition cancelledStore : Store :=
  Eval vm_compute in snd (auctionExt.Cancel 200 listedStore "seller" "L-1").

(** L-1 bought in full by the buyer at time 150, as trade T-1. *)
Definition soldListing : Listing.t :=
  Eval vm_compute in auction.fill swordListing "buyer" 3.

Definition soldStore : Store :=
  Eval vm_compute in
    snd (auction.Buy 150 150 "T-1" listedStore "buyer" "L-1" (buyQty 3)).

(** The store of the dungeon before player p-1 started the run. *)
Definition lobbyStore : Store := set_runs [] dungeonStore.

Definition enter (dungeonID : string) : StartRunRequest.t :=
  {| StartRunRequest.DungeonID := dungeonID |}.

Definition firstPage : QueryParams.t := {| QueryParams.Page := 1; QueryParams.Limit := 10 |}.

End fixturesExt.
(** * Properties *)

Ltac break_match :=
  match goal with
  | |- context [match ?x with _ => _ end] => destruct x eqn:?
  | H : context [match ?x with _ => _ end] |- _ => destruct x eqn:?
  end.

(** ** Comparison of floats *)






(** ** Wrap-around *)

Lemma wrap64_id (z : Z) : int64 z -> wrap64 z = z.
Proof.
  unfold int64, min_int64, max_int64, wrap64. intros Hz.
  rewrite Z.mod_small; lia.
Qed.

Lemma wrap64_int64 (z : Z) : int64 (wrap64 z).
Proof.
  unfold int64, min_int64, max_int64, wrap64.
  pose proof (Z.mod_pos_bound (z + 2 ^ 63) (2 ^ 64) ltac:(lia)). lia.
Qed.

(** [x++] never leaves [x] where it was. *)
Lemma wrap64_succ_neq (z : Z) : wrap64 (z + 1) <> z.
Proof.
  intros E. pose proof (wrap64_int64 (z + 1)) as Hr. rewrite E in Hr.
  revert E Hr. unfold int64, min_int64, max_int64, wrap64. intros E Hz.
  destruct (Z.eq_dec z (2 ^ 63 - 1)) as [->|Hne].
  - vm_compute in E. discriminate.
  - rewrite Z.mod_small in E; lia.
Qed.

Lemma in_int64_spec (z : Z) : in_int64 z = true <-> int64 z.
Proof. unfold in_int64, int64. rewrite andb_true_iff, !Z.leb_le. tauto. Qed.

(** ** Collections *)

Section Collections.
Context {A : Type}.

Lemma findOne_holds (filter : A -> bool) (coll : list A) (d : A) :
  findOne filter coll = Some d -> filter d = true.
Proof. intros Hf. apply (find_some _ _ Hf). Qed.

(** The first match, once replaced by a document that still matches, is what
    the filter finds. *)
Lemma findOne_updateFirst_hit (filter : A -> bool) (f : A -> A) (coll : list A) (d : A) :
  findOne filter coll = Some d -> filter (f d) = true ->
  findOne filter (updateFirst filter f coll) = Some (f d).
Proof.
  unfold findOne. induction coll as [|x xs IH]; simpl; [discriminate|].
  destruct (filter x) eqn:Hx; intros Hd Hfd.
  - injection Hd as ->. simpl. now rewrite Hfd.
  - simpl. rewrite Hx. now apply IH.
Qed.

(** An update through one filter is invisible to a filter that rejects the
    documents it touches, before and after. *)
Lemma findOne_updateFirst_miss (g filter : A -> bool) (f : A -> A) (coll : list A) :
  (forall d, filter d = true -> g d = false /\ g (f d) = false) ->
  findOne g (updateFirst filter f coll) = findOne g coll.
Proof.
  intros Hmiss. unfold findOne. induction coll as [|x xs IH]; simpl; [reflexivity|].
  destruct (filter x) eqn:Hx; simpl.
  - destruct (Hmiss x Hx) as [-> ->]. reflexivity.
  - now rewrite IH.
Qed.

End Collections.

(** ** Errors of a transaction body *)

Section TxErrors.
Context `{Codec}.



Lemma bind_inr {A B} (m : Tx A) (k : A -> Tx B) st b st2 :
  bind m k st = inr (b, st2) ->
  exists a st1, m st = inr (a, st1) /\ k a st1 = inr (b, st2).
Proof.
  unfold bind. destruct (m st) as [e|[a st1]]; [discriminate|]. eauto.
Qed.

Lemma wrapErr_inr {A} (msg : string) (m : Tx A) st r :
  wrapErr msg m st = inr r -> m st = inr r.
Proof. unfold wrapErr. destruct (m st); congruence. Qed.


End TxErrors.

(** ** Run progression *)

Section RunProperties.
Context `{Codec} `{geo.MathLib}.





(** C5. On an active run owned by the caller, an attempt at a step whose
    order is not the run's current step fails with [ErrWrongStepOrder] and
    leaves the store as it was, wherever the submitted position lies: the
    order is checked before the position is looked at. *)
Theorem attempt_wrong_step_order concurrent now uuid st playerID runID stepID req run step :
  run.validateAttemptRequest req = true ->
  runRepo.GetRunByID st runID = inr run ->
  Run.PlayerID run = playerID ->
  Run.State run = RunStateActive ->
  dungeonRepo.GetStep st (Run.DungeonID run) stepID = inr step ->
  BossStep.Order step <> Run.CurrentStep run ->
  run.Attempt concurrent now uuid st playerID runID stepID req
  = (inl (Errorf "expected step order" (Sentinel ErrWrongStepOrder)), st)
  /\ failsWith (fst (run.Attempt concurrent now uuid st playerID runID stepID req))
       ErrWrongStepOrder = true.
Proof.
  intros Hv Hrun Hown Hact Hstep Hord.
  assert (E : run.Attempt concurrent now uuid st playerID runID stepID req
              = (inl (Errorf "expected step order" (Sentinel ErrWrongStepOrder)), st)).
  { unfold run.Attempt, run.attemptAdmission.
    rewrite Hv, Hrun, Hown, String.eqb_refl, Hact, Hstep. simpl.
    apply Z.eqb_neq in Hord. rewrite Hord. reflexivity. }
  split; [exact E|]. rewrite E. reflexivity.
Qed.


(** *** What a settlement leaves in the store *)

Lemma applyRewardItems_frame playerID now items st u st' :
  run.applyRewardItems playerID now items st = inr (u, st') ->
  runs st' = runs st /\ attempts st' = attempts st /\ players st' = players st
  /\ boss_steps st' = boss_steps st.
Proof.
  revert st. induction items as [|item rest IH]; simpl; intros st Hrun.
  - injection Hrun as _ <-. auto.
  - apply bind_inr in Hrun as (a & st1 & Hadd & Hrest).
    apply wrapErr_inr in Hadd. apply IH in Hrest as (-> & -> & -> & ->).
    unfold inventoryRepo.AddItem in Hadd.
    repeat break_match; try discriminate; injection Hadd as _ <-; auto.
Qed.

Lemma settle_inr now playerID runID stepID run step distance steps record st0 resp st1 :
  run.settle now playerID runID stepID run step distance steps record st0
  = inr (resp, st1) ->
  let run' := run.progress run stepID (AttemptRecord.ID record) now
                (Z.of_nat (List.length steps)) in
  AttemptResponse.Idempotency resp = false
  /\ AttemptResponse.Run resp = run'
  /\ runs st1 = updateFirst (runRepo.byRunID (Run.ID run)) (fun _ => run') (runs st0)
  /\ (exists old, findOne (runRepo.byRunID (Run.ID run)) (runs st0) = Some old)
  /\ boss_steps st1 = boss_steps st0.
Proof.
  unfold run.settle. intros Hs.
  apply bind_inr in Hs as (u1 & s1 & Hcreate & Hs). apply wrapErr_inr in Hcreate.
  apply bind_inr in Hs as (updatedPlayer & s2 & Hgold & Hs). apply wrapErr_inr in Hgold.
  apply bind_inr in Hs as (u3 & s3 & Hitems & Hs).
  apply bind_inr in Hs as (updatedRun & s4 & Hreplace & Hs). apply wrapErr_inr in Hreplace.
  apply bind_inr in Hs as (u5 & s5 & Hupdate & Hs). apply wrapErr_inr in Hupdate.
  injection Hs as <- <-.
  apply applyRewardItems_frame in Hitems as (Hr3 & _ & _ & Hb3).
  unfold runRepo.CreateAttemptRecord in Hcreate.
  destruct (existsb _ _); [discriminate|]. injection Hcreate as _ <-.
  unfold playerRepo.IncrementGold in Hgold.
  destruct (findOne _ _) as [p|]; [|discriminate].
  destruct (in_int64 _); [|discriminate]. injection Hgold as _ <-.
  simpl in Hr3, Hb3.
  unfold runRepo.ReplaceRun in Hreplace.
  destruct (findOne _ (runs s3)) as [old|] eqn:Hold; [|discriminate].
  injection Hreplace as <- <-.
  unfold runRepo.UpdateAttemptRecord in Hupdate.
  destruct (existsb _ _); [|discriminate]. injection Hupdate as _ <-.
  simpl. rewrite Hr3 in *. rewrite Hb3. eauto 10.
Qed.

Lemma attemptAdmission_inr st playerID runID stepID req run step distance :
  run.attemptAdmission st playerID runID stepID req = inr (run, step, distance) ->
  run.validateAttemptRequest req = true
  /\ runRepo.GetRunByID st runID = inr run
  /\ Run.ID run = runID
  /\ Run.PlayerID run = playerID
  /\ Run.State run = RunStateActive
  /\ dungeonRepo.GetStep st (Run.DungeonID run) stepID = inr step
  /\ BossStep.Order step = Run.CurrentStep run
  /\ float_gt distance (BossLocation.RadiusMeters (BossStep.Location step)) = false.
Proof.
  unfold run.attemptAdmission.
  destruct (run.validateAttemptRequest req); [|discriminate]. simpl.
  destruct (runRepo.GetRunByID st runID) as [e|r] eqn:Hrun; [discriminate|].
  destruct (Run.PlayerID r =?s playerID) eqn:Hown; [|discriminate]. simpl.
  destruct (RunState_eqb (Run.State r) RunStateActive) eqn:Hact; [|discriminate]. simpl.
  destruct (dungeonRepo.GetStep st (Run.DungeonID r) stepID) as [e|s] eqn:Hstep;
    [discriminate|].
  destruct (BossStep.Order s =? Run.CurrentStep r) eqn:Hord; [|discriminate]. simpl.
  destruct (AttemptRequest.Lat req) as [lat|]; [|discriminate].
  destruct (AttemptRequest.Lon req) as [lon|]; [|discriminate].
  destruct (float_gt _ _) eqn:Hgt; [discriminate|].
  intros [= <- <- <-].
  apply String.eqb_eq in Hown. apply Z.eqb_eq in Hord.
  assert (Run.State r = RunStateActive) by (destruct (Run.State r); auto; discriminate).
  assert (Run.ID r = runID).
  { unfold runRepo.GetRunByID in Hrun.
    destruct (findOne _ _) as [r'|] eqn:Hf; [|discriminate]. injection Hrun as ->.
    apply findOne_holds in Hf. now apply String.eqb_eq in Hf. }
  auto 10.
Qed.

Lemma attemptReplay_inr st runID stepID req resp :
  run.attemptReplay st runID stepID req = Some (inr resp) ->
  AttemptResponse.Idempotency resp = true.
Proof.
  unfold run.attemptReplay.
  repeat break_match; try discriminate; intros [= <-]; reflexivity.
Qed.

(** A success that is not flagged as a replay went through the transaction. *)
Lemma Attempt_fresh_inv concurrent now uuid st playerID runID stepID req resp st1 :
  run.Attempt concurrent now uuid st playerID runID stepID req = (inr resp, st1) ->
  AttemptResponse.Idempotency resp = false ->
  exists run step distance,
    run.attemptAdmission st playerID runID stepID req = inr (run, step, distance)
    /\ run.attemptReplay st runID stepID req = None
    /\ run.settle now playerID runID stepID run step distance
         (dungeonRepo.sortByOrder
            (filter (fun s => BossStep.DungeonID s =?s Run.DungeonID run)
               (boss_steps (concurrent st))))
         (run.pendingRecord now uuid playerID runID stepID req) (concurrent st)
       = inr (resp, st1).
Proof.
  unfold run.Attempt. intros Hrun Hfresh.
  destruct (run.attemptAdmission st playerID runID stepID req) as [e|[[r s] d]] eqn:Ha;
    [discriminate|].
  exists r, s, d. split; [reflexivity|].
  destruct (run.attemptReplay st runID stepID req) as [answer|] eqn:Hr.
  - injection Hrun as -> <-. apply attemptReplay_inr in Hr. congruence.
  - split; [reflexivity|].
    unfold run.attemptFresh, dungeonRepo.ListStepsByDungeon, WithTransaction in Hrun.
    destruct (run.settle _ _ _ _ _ _ _ _ _ _) as [e|[resp' st']] eqn:Hs.
    + exfalso. repeat break_match; try discriminate;
        injection Hrun as <- <-; discriminate.
    + injection Hrun as <- <-. reflexivity.
Qed.

Lemma GetRunByID_after_settle now playerID runID stepID run step distance steps record
    st0 resp st1 :
  Run.ID run = runID ->
  run.settle now playerID runID stepID run step distance steps record st0
  = inr (resp, st1) ->
  runRepo.GetRunByID st1 runID
  = inr (run.progress run stepID (AttemptRecord.ID record) now
           (Z.of_nat (List.length steps))).
Proof.
  intros Hid Hs. apply settle_inr in Hs as (_ & _ & Hruns & (old & Hold) & _).
  unfold runRepo.GetRunByID. rewrite Hruns, <- Hid.
  erewrite findOne_updateFirst_hit by
    (try exact Hold; unfold runRepo.byRunID; simpl; apply String.eqb_refl).
  reflexivity.
Qed.

(** *** Retries after a settlement *)

(** Once an attempt has been settled, a further attempt at the same step of
    the same run never reaches the lookup of the attempt record: the run has
    moved on, so the call stops at the state check or at the order check. *)
Lemma retry_stops_before_lookup now uuid st playerID runID stepID req resp st1
    concurrent' now' uuid' req' :
  run.Attempt run.sequential now uuid st playerID runID stepID req = (inr resp, st1) ->
  AttemptResponse.Idempotency resp = false ->
  run.validateAttemptRequest req' = true ->
  run.Attempt concurrent' now' uuid' st1 playerID runID stepID req'
  = (inl (Errorf "expected step order" (Sentinel ErrWrongStepOrder)), st1)
  \/ run.Attempt concurrent' now' uuid' st1 playerID runID stepID req'
     = (inl (Errorf "run is not active" (Sentinel ErrConflict)), st1).
Proof.
  intros Hfirst Hfresh Hv.
  apply Attempt_fresh_inv in Hfirst as (r & s & d & Ha & _ & Hs); [|exact Hfresh].
  apply attemptAdmission_inr in Ha as (_ & _ & Hid & Hown & Hact & Hstep & Hord & _).
  pose proof (GetRunByID_after_settle _ _ _ _ _ _ _ _ _ _ _ _ Hid Hs) as Hrun1.
  apply settle_inr in Hs as (_ & _ & _ & _ & Hsteps).
  unfold run.Attempt, run.attemptAdmission. rewrite Hv, Hrun1. simpl.
  rewrite Hown, String.eqb_refl, Hact. simpl.
  destruct (wrap64 (Run.CurrentStep r + 1) >? _); simpl; [right; reflexivity|].
  left. unfold dungeonRepo.GetStep in *. rewrite Hsteps. unfold run.sequential.
  destruct (findOne _ (boss_steps st)) as [s'|]; [|discriminate].
  injection Hstep as ->. rewrite Hord.
  pose proof (wrap64_succ_neq (Run.CurrentStep r)) as Hne.
  destruct (Run.CurrentStep r =? wrap64 (Run.CurrentStep r + 1)) eqn:E.
  - apply Z.eqb_eq in E. congruence.
  - reflexivity.
Qed.

(** C1 (what the code does). After a first successful attempt at a step, the
    same call, with the same run, step and idempotency key, is not answered
    with the first response replayed: it fails, with [ErrWrongStepOrder]
    while the run is active and with [ErrConflict] once it is completed, and
    leaves the store as it was, however often it is repeated. *)
Theorem attempt_retry_not_replayed now uuid st playerID runID stepID req resp st1
    concurrent' now' uuid' :
  run.Attempt run.sequential now uuid st playerID runID stepID req = (inr resp, st1) ->
  AttemptResponse.Idempotency resp = false ->
  let retry := run.Attempt concurrent' now' uuid' st1 playerID runID stepID req in
  snd retry = st1
  /\ (forall replayed, fst retry <> inr replayed)
  /\ (failsWith (fst retry) ErrWrongStepOrder = true
      \/ failsWith (fst retry) ErrConflict = true).
Proof.
  intros Hfirst Hfresh retry.
  assert (Hv : run.validateAttemptRequest req = true).
  { apply Attempt_fresh_inv in Hfirst as (r & s & d & Ha & _); [|exact Hfresh].
    now apply attemptAdmission_inr in Ha. }
  destruct (retry_stops_before_lookup _ _ _ _ _ _ _ _ _ concurrent' now' uuid' req
              Hfirst Hfresh Hv) as [E|E];
    subst retry; rewrite E; simpl; repeat split; auto; discriminate.
Qed.

(** C2 (what the code does). After a first successful attempt at a step, an
    attempt at the same step of the same run under another idempotency key
    grants nothing, the store is left as it was, but the error is not
    [ErrAlreadyHandled]: it is [ErrWrongStepOrder] or [ErrConflict]. *)
Theorem attempt_other_key_not_already_handled now uuid st playerID runID stepID req resp
    st1 concurrent' now' uuid' req' :
  run.Attempt run.sequential now uuid st playerID runID stepID req = (inr resp, st1) ->
  AttemptResponse.Idempotency resp = false ->
  run.validateAttemptRequest req' = true ->
  AttemptRequest.IdempotencyKey req' <> AttemptRequest.IdempotencyKey req ->
  let second := run.Attempt concurrent' now' uuid' st1 playerID runID stepID req' in
  snd second = st1
  /\ failsWith (fst second) ErrAlreadyHandled = false
  /\ (failsWith (fst second) ErrWrongStepOrder = true
      \/ failsWith (fst second) ErrConflict = true).
Proof.
  intros Hfirst Hfresh Hv _ second.
  destruct (retry_stops_before_lookup _ _ _ _ _ _ _ _ _ concurrent' now' uuid' req'
              Hfirst Hfresh Hv) as [E|E];
    subst second; rewrite E; simpl; auto.
Qed.

(** *** Attempt records without an idempotency key *)

Lemma decode_not_keyMismatch (raw : Raw) msg convErr :
  run.decodeAttemptResponse raw = inl convErr -> Errorf msg convErr <> run.keyMismatch.
Proof.
  unfold run.decodeAttemptResponse, run.keyMismatch.
  repeat break_match; intros [= <-]; discriminate.
Qed.

(** A transaction on a store that holds a record of (run, step) stops at the
    insertion of the pending record. *)
Lemma settle_duplicate now playerID runID stepID run step distance steps record st0 other :
  AttemptRecord.RunID record = runID ->
  AttemptRecord.StepID record = stepID ->
  runRepo.GetAttemptRecord st0 runID stepID = inr other ->
  run.settle now playerID runID stepID run step distance steps record st0
  = inl (Errorf "create attempt idempotency record"
           (Errorf "duplicate attempt key" (Sentinel ErrAlreadyHandled))).
Proof.
  intros Hr Hs Hget. unfold run.settle, bind, wrapErr, runRepo.CreateAttemptRecord.
  unfold runRepo.GetAttemptRecord in Hget.
  destruct (findOne _ _) as [a|] eqn:Hf; [|discriminate].
  assert (Hex : existsb (fun a => runRepo.byAttemptID (AttemptRecord.ID record) a
                                  || runRepo.byRunStep (AttemptRecord.RunID record)
                                       (AttemptRecord.StepID record) a) (attempts st0)
                = true).
  { apply existsb_exists. exists a. split.
    - apply (find_some _ _ Hf).
    - rewrite Hr, Hs, (findOne_holds _ _ _ Hf). apply orb_true_r. }
  rewrite Hex. reflexivity.
Qed.

(** C10. For an attempt that passes the checks up to the geofence, when the
    attempt record of its (run, step) has an empty idempotency key the key of
    the request plays no part. On the lookup path the answer is the replay of
    the stored response, or "already in progress" when the reward is not
    applied. On the recovery path, taken when the record appears between the
    lookup and the insertion, the answer is the replay of the stored
    response. The rejection for another idempotency key is returned only for
    a record whose key is not empty and is not the key of the request. *)
Theorem empty_stored_key_never_mismatch concurrent now uuid st playerID runID stepID req
    run step distance :
  run.attemptAdmission st playerID runID stepID req = inr (run, step, distance) ->
  let outcome := run.Attempt concurrent now uuid st playerID runID stepID req in
  (forall existing,
      runRepo.GetAttemptRecord st runID stepID = inr existing ->
      AttemptRecord.IdempotencyKey existing = "" ->
      outcome
      = (if AttemptRecord.RewardApplied existing then
           match run.decodeAttemptResponse (AttemptRecord.Response existing) with
           | inl convErr => inl (Errorf "decode cached attempt response" convErr)
           | inr resp => inr (run.asReplay resp)
           end
         else inl (Errorf "attempt already in progress" (Sentinel ErrAlreadyHandled)),
         st))
  /\ (forall record,
        run.attemptReplay st runID stepID req = None ->
        runRepo.GetAttemptRecord (concurrent st) runID stepID = inr record ->
        AttemptRecord.IdempotencyKey record = "" ->
        outcome
        = (match run.decodeAttemptResponse (AttemptRecord.Response record) with
           | inl convErr => inl (Errorf "decode existing attempt response" convErr)
           | inr resp => inr (run.asReplay resp)
           end,
           concurrent st))
  /\ (fst outcome = inl run.keyMismatch ->
      exists record,
        (runRepo.GetAttemptRecord st runID stepID = inr record
         \/ runRepo.GetAttemptRecord (concurrent st) runID stepID = inr record)
        /\ AttemptRecord.IdempotencyKey record <> ""
        /\ AttemptRecord.IdempotencyKey record <> AttemptRequest.IdempotencyKey req).
Proof.
  intros Ha outcome. subst outcome. unfold run.Attempt. rewrite Ha.
  split; [|split].
  - intros existing Hget Hkey. unfold run.attemptReplay. rewrite Hget, Hkey. simpl.
    destruct (AttemptRecord.RewardApplied existing); simpl; [|reflexivity].
    destruct (run.decodeAttemptResponse _); reflexivity.
  - intros record Hnone Hget Hkey. rewrite Hnone.
    unfold run.attemptFresh, dungeonRepo.ListStepsByDungeon, WithTransaction.
    erewrite settle_duplicate by (try exact Hget; reflexivity).
    cbn [errorsIs sentinel_eqb]. rewrite Hget, Hkey. simpl.
    destruct (run.decodeAttemptResponse _); reflexivity.
  - destruct (run.attemptReplay st runID stepID req) as [answer|] eqn:Hr.
    + simpl. intros ->. unfold run.attemptReplay in Hr.
      destruct (runRepo.GetAttemptRecord st runID stepID) as [e|existing] eqn:Hget.
      { destruct (errorsIs e ErrNotFound); discriminate. }
      exists existing. split; [now left|].
      destruct (AttemptRecord.IdempotencyKey existing =?s "") eqn:E1;
        destruct (AttemptRecord.IdempotencyKey existing
                  =?s AttemptRequest.IdempotencyKey req) eqn:E2; simpl in Hr;
        try (apply String.eqb_neq in E1, E2; now split);
        exfalso;
        (destruct (AttemptRecord.RewardApplied existing); simpl in Hr;
         [|unfold run.keyMismatch in Hr; discriminate];
         destruct (run.decodeAttemptResponse _) as [convErr|resp] eqn:Hd;
         [pose proof (decode_not_keyMismatch _ "decode cached attempt response" _ Hd);
          congruence
         |discriminate]).
    + unfold run.attemptFresh, dungeonRepo.ListStepsByDungeon, WithTransaction.
      destruct (run.settle _ _ _ _ _ _ _ _ _ _) as [e|[resp st']]; [|discriminate].
      cbn [errorsIs]. destruct (errorsIs e ErrAlreadyHandled);
        [|unfold run.keyMismatch; discriminate].
      destruct (runRepo.GetAttemptRecord (concurrent st) runID stepID)
        as [e'|record] eqn:Hget; [unfold run.keyMismatch; discriminate|].
      destruct (AttemptRecord.IdempotencyKey record =?s "") eqn:E1;
        destruct (AttemptRecord.IdempotencyKey record
                  =?s AttemptRequest.IdempotencyKey req) eqn:E2; simpl;
        try (intros _; exists record; apply String.eqb_neq in E1, E2; now auto);
        (destruct (run.decodeAttemptResponse _) as [convErr|resp] eqn:Hd; simpl;
         [pose proof (decode_not_keyMismatch _ "decode existing attempt response" _ Hd);
          congruence
         |discriminate]).
Qed.

(** *** Completion of a run *)

Lemma insertByOrder_length s l :
  List.length (dungeonRepo.insertByOrder s l) = S (List.length l).
Proof.
  induction l as [|x xs IH]; simpl; [reflexivity|].
  destruct (_ <=? _); simpl; congruence.
Qed.

Lemma sortByOrder_length l :
  List.length (dungeonRepo.sortByOrder l) = List.length l.
Proof.
  unfold dungeonRepo.sortByOrder. induction l as [|x xs IH]; simpl; [reflexivity|].
  now rewrite insertByOrder_length, IH.
Qed.

Lemma ListStepsByDungeon_length st dungeonID steps :
  dungeonRepo.ListStepsByDungeon st dungeonID = inr steps ->
  Z.of_nat (List.length steps) = run.stepCount st dungeonID.
Proof.
  unfold dungeonRepo.ListStepsByDungeon, run.stepCount. intros [= <-].
  now rewrite sortByOrder_length.
Qed.

(** One settlement: the stored run is the run before, progressed. *)
Lemma settlement_progress now uuid st playerID runID stepID req resp st1 :
  run.Attempt run.sequential now uuid st playerID runID stepID req = (inr resp, st1) ->
  AttemptResponse.Idempotency resp = false ->
  exists run0,
    runRepo.GetRunByID st runID = inr run0
    /\ Run.State run0 = RunStateActive
    /\ runRepo.GetRunByID st1 runID
       = inr (run.progress run0 stepID uuid now (run.stepCount st (Run.DungeonID run0)))
    /\ boss_steps st1 = boss_steps st.
Proof.
  intros Hfirst Hfresh.
  apply Attempt_fresh_inv in Hfirst as (r & s & d & Ha & _ & Hs); [|exact Hfresh].
  apply attemptAdmission_inr in Ha as (_ & Hrun & Hid & _ & Hact & _).
  exists r. repeat split; auto.
  - rewrite (GetRunByID_after_settle _ _ _ _ _ _ _ _ _ _ _ _ Hid Hs).
    unfold run.stepCount, run.sequential. now rewrite sortByOrder_length.
  - now apply settle_inr in Hs as (_ & _ & _ & _ & Hsteps).
Qed.

Lemma attemptEach_progress playerID runID n calls :
  forall st run st',
    runRepo.GetRunByID st runID = inr run ->
    Run.State run = RunStateActive ->
    run.stepCount st (Run.DungeonID run) = n ->
    0 <= Run.CurrentStep run ->
    Run.CurrentStep run + Z.of_nat (List.length calls) <= n + 1 ->
    n < max_int64 ->
    run.attemptEach st playerID runID calls = Some st' ->
    exists run',
      runRepo.GetRunByID st' runID = inr run'
      /\ Run.CurrentStep run' = Run.CurrentStep run + Z.of_nat (List.length calls)
      /\ Run.KilledSteps run' = (Run.KilledSteps run ++ map run.killedBy calls)%list
      /\ (calls <> [] ->
          Run.CurrentStep run + Z.of_nat (List.length calls) = n + 1 ->
          Run.State run' = RunStateCompleted /\ exists t, Run.EndedAt run' = Some t).
Proof.
  induction calls as [|call rest IH]; intros st r st' Hrun Hact Hn Hpos Hle Hmax Heach.
  - injection Heach as <-. exists r. simpl. rewrite Z.add_0_r, app_nil_r.
    split; [exact Hrun|]. split; [reflexivity|]. split; [reflexivity|].
    intros Hne. congruence.
  - simpl in Heach.
    destruct (run.Attempt _ _ _ _ _ _ _ _) as [[e|resp] st1] eqn:Hcall; [discriminate|].
    destruct (AttemptResponse.Idempotency resp) eqn:Hfresh; [discriminate|].
    destruct (settlement_progress _ _ _ _ _ _ _ _ _ Hcall Hfresh)
      as (r0 & Hrun0 & _ & Hrun1 & Hsteps).
    rewrite Hrun in Hrun0. injection Hrun0 as <-. rewrite Hn in Hrun1.
    change (List.length (call :: rest)) with (S (List.length rest)) in *.
    rewrite Nat2Z.inj_succ in *.
    assert (Hcur : wrap64 (Run.CurrentStep r + 1) = Run.CurrentStep r + 1).
    { apply wrap64_id. unfold int64, min_int64, max_int64 in *. lia. }
    destruct rest as [|call' rest'].
    + injection Heach as <-. eexists. split; [exact Hrun1|].
      simpl. rewrite Hcur. split; [reflexivity|]. split; [reflexivity|].
      intros _ Hlast.
      assert (Hgt : (Run.CurrentStep r + 1 >? n) = true) by (apply Z.gtb_lt; lia).
      rewrite Hgt. eauto.
    + set (r1 := run.progress r (run.onStep call) (run.withUUID call) (run.atTime call) n)
        in *.
      assert (Hnot : (Run.CurrentStep r + 1 >? n) = false).
      { change (List.length (call' :: rest')) with (S (List.length rest')) in Hle.
        rewrite Nat2Z.inj_succ in Hle.
        destruct (Run.CurrentStep r + 1 >? n) eqn:E; [|reflexivity].
        apply Z.gtb_lt in E. lia. }
      destruct (IH st1 r1 st') as (r' & Hrun' & Hcur' & Hkilled' & Hdone'); auto.
      * subst r1. simpl. now rewrite Hcur, Hnot.
      * subst r1. unfold run.stepCount in *. simpl. now rewrite Hsteps.
      * subst r1. cbn [run.progress Run.CurrentStep]. lia.
      * subst r1. cbn [run.progress Run.CurrentStep]. lia.
      * exists r'. subst r1. cbn [run.progress Run.CurrentStep Run.KilledSteps] in *.
        rewrite Hcur in *.
        split; [exact Hrun'|]. split; [lia|]. split.
        -- rewrite Hkilled', <- app_assoc. reflexivity.
        -- intros _ Hlast. apply Hdone'; [discriminate|lia].
Qed.

(** C8. From a fresh run on a dungeon of [n >= 1] steps, [n] successful
    attempts in a row leave the run completed, with current step [n + 1], an
    end time stamped and one killed-step entry per attempt, in order. Every
    single settlement increments the current step (by exactly one below the
    largest int) and appends one killed-step entry. *)
Theorem run_completes_after_all_steps st playerID runID run steps calls st' :
  runRepo.GetRunByID st runID = inr run ->
  Run.State run = RunStateActive ->
  Run.CurrentStep run = 1 ->
  Run.KilledSteps run = [] ->
  dungeonRepo.ListStepsByDungeon st (Run.DungeonID run) = inr steps ->
  List.length calls = List.length steps ->
  calls <> [] ->
  Z.of_nat (List.length steps) < max_int64 ->
  run.attemptEach st playerID runID calls = Some st' ->
  (exists run',
      runRepo.GetRunByID st' runID = inr run'
      /\ Run.State run' = RunStateCompleted
      /\ Run.CurrentStep run' = Z.of_nat (List.length steps) + 1
      /\ (exists t, Run.EndedAt run' = Some t)
      /\ Run.KilledSteps run' = map run.killedBy calls)
  /\ (forall st0 now uuid stepID req resp st1,
        run.Attempt run.sequential now uuid st0 playerID runID stepID req
        = (inr resp, st1) ->
        AttemptResponse.Idempotency resp = false ->
        exists run0 run1,
          runRepo.GetRunByID st0 runID = inr run0
          /\ runRepo.GetRunByID st1 runID = inr run1
          /\ Run.CurrentStep run1 = wrap64 (Run.CurrentStep run0 + 1)
          /\ (int64 (Run.CurrentStep run0) -> Run.CurrentStep run0 < max_int64 ->
              Run.CurrentStep run1 = Run.CurrentStep run0 + 1)
          /\ Run.KilledSteps run1
             = (Run.KilledSteps run0
                ++ [{| KilledStep.BossStepID := stepID; KilledStep.KilledAt := now;
                       KilledStep.AttemptID := uuid |}])%list).
Proof.
  intros Hrun Hact Hcur Hkilled Hsteps Hlen Hne Hmax Heach. split.
  - apply ListStepsByDungeon_length in Hsteps.
    destruct (attemptEach_progress playerID runID (Z.of_nat (List.length steps)) calls
                st run st') as (r' & Hrun' & Hcur' & Hkilled' & Hdone'); auto.
    + lia.
    + rewrite Hcur, Hlen. lia.
    + rewrite Hcur, Hkilled, Hlen in *. simpl in Hkilled'.
      destruct Hdone' as [Hstate Hend]; auto; [lia|].
      exists r'. repeat split; auto. lia.
  - intros st0 now uuid stepID req resp st1 Hcall Hfresh.
    destruct (settlement_progress _ _ _ _ _ _ _ _ _ Hcall Hfresh)
      as (r0 & Hrun0 & _ & Hrun1 & _).
    eexists r0, _. split; [exact Hrun0|]. split; [exact Hrun1|]. simpl.
    repeat split; auto. intros Hin Hlt. apply wrap64_id.
    unfold int64, min_int64, max_int64 in *. lia.
Qed.

End RunProperties.

(** ** Marketplace *)

Section AuctionProperties.
Context `{Codec}.

Lemma AddItem_frame playerID itemID qty now st u st' :
  inventoryRepo.AddItem playerID itemID qty now st = inr (u, st') ->
  st' = set_inventory (inventory st') st.
Proof.
  unfold inventoryRepo.AddItem.
  repeat break_match; try discriminate; intros [= _ <-]; reflexivity.
Qed.

(** A call of [Buy] that returns an error leaves the store as it was. *)
Lemma Buy_error_frame nowCheck now uuid st buyerID listingID req e st' :
  auction.Buy nowCheck now uuid st buyerID listingID req = (inl e, st') -> st' = st.
Proof.
  unfold auction.Buy, WithTransaction.
  destruct (negb (auction.validateBuyListingRequest req)); [intros [= _ <-]; reflexivity|].
  destruct (auctionRepo.GetByID st listingID) as [err|listing];
    [intros [= _ <-]; reflexivity|].
  destruct (negb _); [intros [= _ <-]; reflexivity|].
  destruct (_ =?s _); [intros [= _ <-]; reflexivity|].
  destruct (_ >? _); [intros [= _ <-]; reflexivity|].
  destruct (auction.expired listing nowCheck); [intros [= _ <-]; reflexivity|].
  destruct (auction.settle _ _ _ _ _ _) as [err|[out st0]];
    [intros [= _ <-]; reflexivity|discriminate].
Qed.

(** What a successful [Buy] went through. *)
Lemma Buy_inr nowCheck now uuid st buyerID listingID req out st' :
  auction.Buy nowCheck now uuid st buyerID listingID req = (inr out, st') ->
  exists listing,
    auctionRepo.GetByID st listingID = inr listing
    /\ Listing.ID listing = listingID
    /\ 1 <= BuyListingRequest.Qty req <= Listing.Qty listing
    /\ Listing.Status listing = ListingStatusActive
    /\ Listing.SellerID listing <> buyerID
    /\ auction.settle now uuid buyerID req listing st = inr (out, st').
Proof.
  unfold auction.Buy, auction.validateBuyListingRequest.
  destruct (1 <=? BuyListingRequest.Qty req) eqn:Hq; [|discriminate]. simpl.
  destruct (auctionRepo.GetByID st listingID) as [e|listing] eqn:Hget; [discriminate|].
  destruct (ListingStatus_eqb _ _) eqn:Hact; [|discriminate]. simpl.
  destruct (Listing.SellerID listing =?s buyerID) eqn:Hself; [discriminate|].
  destruct (BuyListingRequest.Qty req >? Listing.Qty listing) eqn:Hqty; [discriminate|].
  destruct (auction.expired listing nowCheck); [discriminate|].
  unfold WithTransaction.
  destruct (auction.settle _ _ _ _ _ _) as [e|[out0 st0]] eqn:Hs; [discriminate|].
  intros [= <- <-]. exists listing.
  apply Z.leb_le in Hq. apply String.eqb_neq in Hself.
  assert (BuyListingRequest.Qty req <= Listing.Qty listing).
  { destruct (Z.gtb_spec (BuyListingRequest.Qty req) (Listing.Qty listing)); [discriminate|lia]. }
  assert (Listing.Status listing = ListingStatusActive)
    by (destruct (Listing.Status listing); auto; discriminate).
  assert (Listing.ID listing = listingID).
  { unfold auctionRepo.GetByID in Hget.
    destruct (findOne _ _) as [l|] eqn:Hf; [|discriminate]. injection Hget as ->.
    apply findOne_holds in Hf. now apply String.eqb_eq in Hf. }
  repeat split; auto.
Qed.

Lemma fill_keeps listing buyerID qty :
  Listing.ID (auction.fill listing buyerID qty) = Listing.ID listing
  /\ Listing.SellerID (auction.fill listing buyerID qty) = Listing.SellerID listing
  /\ Listing.ItemID (auction.fill listing buyerID qty) = Listing.ItemID listing.
Proof. unfold auction.fill. destruct (_ =? _); auto. Qed.

(** What the transaction of [Buy] leaves in the store. *)
Lemma buy_settle_inr now uuid buyerID req listing st out st' :
  auction.settle now uuid buyerID req listing st = inr (out, st') ->
  let total := auction.totalPrice req listing in
  let listing' := auction.fill listing buyerID (BuyListingRequest.Qty req) in
  exists buyer seller,
    findOne (playerRepo.byCustomID buyerID) (players st) = Some buyer
    /\ total <= Player.Gold buyer
    /\ findOne (playerRepo.byCustomID (Listing.SellerID listing))
         (updateFirst (playerRepo.byCustomID buyerID)
            (fun _ => playerRepo.withGold (wrap64 (Player.Gold buyer - total)) now buyer)
            (players st)) = Some seller
    /\ int64 (Player.Gold seller + total)
    /\ players st'
       = updateFirst (playerRepo.byCustomID (Listing.SellerID listing))
           (fun _ => playerRepo.withGold (Player.Gold seller + total) now seller)
           (updateFirst (playerRepo.byCustomID buyerID)
              (fun _ => playerRepo.withGold (wrap64 (Player.Gold buyer - total)) now buyer)
              (players st))
    /\ out = listing'
    /\ auction_listings st'
       = updateFirst (auctionRepo.byListingID (Listing.ID listing)) (fun _ => listing')
           (auction_listings st)
    /\ (exists old, findOne (auctionRepo.byListingID (Listing.ID listing))
                      (auction_listings st) = Some old)
    /\ auction_trades st'
       = (auction_trades st
          ++ [auction.receipt uuid buyerID listing' (BuyListingRequest.Qty req) total now])%list
    /\ runs st' = runs st /\ attempts st' = attempts st /\ boss_steps st' = boss_steps st.
Proof.
  intros Hs total listing'. unfold auction.settle in Hs. fold total listing' in Hs.
  apply bind_inr in Hs as (buyer & s0 & Hbuyer & Hs). apply wrapErr_inr in Hbuyer.
  unfold readTx, playerRepo.GetByID in Hbuyer.
  destruct (findOne _ (players st)) as [b|] eqn:Hfb; [|discriminate].
  cbn in Hbuyer. injection Hbuyer as <- <-.
  destruct (Player.Gold b <? total) eqn:Hfunds; [discriminate|].
  apply bind_inr in Hs as (u1 & s1 & Hdebit & Hs). apply wrapErr_inr in Hdebit.
  apply bind_inr in Hs as (u2 & s2 & Hcredit & Hs). apply wrapErr_inr in Hcredit.
  apply bind_inr in Hs as (u3 & s3 & Hitem & Hs). apply wrapErr_inr in Hitem.
  apply bind_inr in Hs as (out0 & s4 & Hreplace & Hs). apply wrapErr_inr in Hreplace.
  apply bind_inr in Hs as (u5 & s5 & Htrade & Hs). apply wrapErr_inr in Htrade.
  injection Hs as <- <-.
  unfold playerRepo.SetGold in Hdebit. rewrite Hfb in Hdebit. injection Hdebit as _ <-.
  unfold playerRepo.IncrementGold in Hcredit. cbn [players set_players] in Hcredit.
  destruct (findOne _ (updateFirst _ _ _)) as [s|] eqn:Hfs; [|discriminate].
  destruct (in_int64 _) eqn:Hin; [|discriminate]. injection Hcredit as _ <-.
  apply AddItem_frame in Hitem. rewrite Hitem in Hreplace. clear Hitem.
  destruct (fill_keeps listing buyerID (BuyListingRequest.Qty req)) as (Hid & _ & _).
  fold listing' in Hid.
  unfold auctionRepo.ReplaceListing in Hreplace.
  cbn [auction_listings set_auction_listings set_inventory set_players] in Hreplace.
  rewrite Hid in Hreplace.
  destruct (findOne _ (auction_listings st)) as [old|] eqn:Hold; [|discriminate].
  injection Hreplace as <- <-.
  unfold auctionRepo.InsertTrade in Htrade.
  cbn [auction_trades set_auction_listings set_inventory set_players] in Htrade.
  destruct (existsb _ _); [discriminate|]. injection Htrade as _ <-.
  exists b, s. cbn. apply in_int64_spec in Hin. apply Z.ltb_ge in Hfunds.
  repeat split; eauto; apply Hin.
Qed.

Lemma GetByID_player st id p :
  playerRepo.GetByID st id = inr p ->
  findOne (playerRepo.byCustomID id) (players st) = Some p /\ Player.ID p = id.
Proof.
  unfold playerRepo.GetByID. destruct (findOne _ _) as [q|] eqn:Hf; [|discriminate].
  intros [= <-]. split; [reflexivity|].
  apply findOne_holds in Hf. now apply String.eqb_eq in Hf.
Qed.

(** An update of one player's document is not seen through another id. *)
Lemma other_player_untouched id other (p' : Player.t) coll :
  id <> other -> Player.ID p' = other ->
  findOne (playerRepo.byCustomID id)
    (updateFirst (playerRepo.byCustomID other) (fun _ => p') coll)
  = findOne (playerRepo.byCustomID id) coll.
Proof.
  intros Hne Hid. apply findOne_updateFirst_miss. intros d Hd.
  unfold playerRepo.byCustomID in *. apply String.eqb_eq in Hd.
  rewrite Hid, Hd. split; apply String.eqb_neq; congruence.
Qed.

(** C3, where the product does not wrap. For a successful buy of quantity
    [q] on a listing of unit price [p] whose total [q * p] is computed
    without int64 overflow
    ([0 <= q * p <= 2^63 - 1]): the buyer's balance goes down by exactly the
    total, the seller's balance goes up by exactly the total, and exactly one
    trade receipt, with buyer, seller, listing, item, quantity and total, is
    appended. The transfer is atomic: a call of [Buy] that returns an error
    leaves the store as it was. *)
Theorem buy_transfers_total nowCheck now uuid st buyerID listingID req listing buyer seller
    out st' :
  auctionRepo.GetByID st listingID = inr listing ->
  playerRepo.GetByID st buyerID = inr buyer ->
  playerRepo.GetByID st (Listing.SellerID listing) = inr seller ->
  int64 (Player.Gold buyer) ->
  let total := BuyListingRequest.Qty req * Listing.PricePerUnit listing in
  0 <= total <= max_int64 ->
  auction.Buy nowCheck now uuid st buyerID listingID req = (inr out, st') ->
  (exists buyer', playerRepo.GetByID st' buyerID = inr buyer'
                  /\ Player.Gold buyer' = Player.Gold buyer - total)
  /\ (exists seller', playerRepo.GetByID st' (Listing.SellerID listing) = inr seller'
                      /\ Player.Gold seller' = Player.Gold seller + total)
  /\ auction_trades st'
     = (auction_trades st
        ++ [{| Trade.ID := uuid; Trade.BuyerID := buyerID;
               Trade.SellerID := Listing.SellerID listing; Trade.ListingID := listingID;
               Trade.ItemID := Listing.ItemID listing;
               Trade.Qty := BuyListingRequest.Qty req; Trade.TotalPrice := total;
               Trade.CreatedAt := now |}])%list
  /\ (forall nowCheck0 now0 uuid0 st0 buyerID0 listingID0 req0 e st1,
        auction.Buy nowCheck0 now0 uuid0 st0 buyerID0 listingID0 req0 = (inl e, st1) ->
        st1 = st0).
Proof.
  intros Hlisting Hbuyer Hseller Hgold total Htotal Hbuy.
  apply Buy_inr in Hbuy as (l & Hl & Hlid & Hq & _ & Hself & Hs).
  rewrite Hlisting in Hl. injection Hl as <-.
  apply buy_settle_inr in Hs
    as (b & s & Hfb & Hfunds & Hfs & Hin & Hplayers & _ & _ & _ & Htrades & _).
  apply GetByID_player in Hbuyer as [Hb Hbid]. apply GetByID_player in Hseller as [Hsl Hsid].
  rewrite Hb in Hfb. injection Hfb as <-.
  assert (Htp : auction.totalPrice req listing = total).
  { unfold auction.totalPrice. apply wrap64_id.
    unfold int64, min_int64, max_int64 in *. lia. }
  rewrite Htp in *.
  assert (Hdebit : wrap64 (Player.Gold buyer - total) = Player.Gold buyer - total).
  { apply wrap64_id. unfold int64, min_int64, max_int64 in *. lia. }
  rewrite Hdebit in *.
  rewrite other_player_untouched in Hfs by (auto; congruence).
  rewrite Hsl in Hfs. injection Hfs as <-.
  split; [|split; [|split]].
  - eexists. unfold playerRepo.GetByID. rewrite Hplayers.
    rewrite other_player_untouched by (simpl; congruence).
    erewrite findOne_updateFirst_hit by
      (try exact Hb; unfold playerRepo.byCustomID; simpl; rewrite Hbid;
       apply String.eqb_refl).
    split; reflexivity.
  - eexists. unfold playerRepo.GetByID. rewrite Hplayers.
    erewrite findOne_updateFirst_hit.
    + split; reflexivity.
    + rewrite other_player_untouched by (simpl; congruence). exact Hsl.
    + unfold playerRepo.byCustomID. simpl. rewrite Hsid. apply String.eqb_refl.
  - rewrite Htrades. unfold auction.receipt.
    destruct (fill_keeps listing buyerID (BuyListingRequest.Qty req)) as (-> & -> & ->).
    rewrite Hlid. reflexivity.
  - intros. eapply Buy_error_frame; eauto.
Qed.

(** C4, where the product does not wrap. A buy whose request is well formed,
    on a listing that
    exists, is rejected with [ErrConflict] when the quantity exceeds the
    listing's, when the buyer is the seller, when the listing is not active
    or when it is past its expiry; when none of these holds it is rejected
    with [ErrInsufficient] if the buyer's balance is below the total
    [q * p], provided that product does not overflow int64. Every rejected
    buy leaves the whole store as it was. *)
Theorem buy_rejections nowCheck now uuid st buyerID listingID req listing :
  auction.validateBuyListingRequest req = true ->
  auctionRepo.GetByID st listingID = inr listing ->
  let outcome := auction.Buy nowCheck now uuid st buyerID listingID req in
  let total := BuyListingRequest.Qty req * Listing.PricePerUnit listing in
  (BuyListingRequest.Qty req > Listing.Qty listing
   \/ Listing.SellerID listing = buyerID
   \/ Listing.Status listing <> ListingStatusActive
   \/ auction.expired listing nowCheck = true ->
   failsWith (fst outcome) ErrConflict = true /\ snd outcome = st)
  /\ (forall buyer,
        BuyListingRequest.Qty req <= Listing.Qty listing ->
        Listing.SellerID listing <> buyerID ->
        Listing.Status listing = ListingStatusActive ->
        auction.expired listing nowCheck = false ->
        playerRepo.GetByID st buyerID = inr buyer ->
        int64 total ->
        Player.Gold buyer < total ->
        failsWith (fst outcome) ErrInsufficient = true /\ snd outcome = st)
  /\ (forall e, fst outcome = inl e -> snd outcome = st).
Proof.
  intros Hv Hget outcome total. split; [|split].
  - intros Hcase. subst outcome. unfold auction.Buy. rewrite Hv, Hget. simpl.
    destruct (ListingStatus_eqb (Listing.Status listing) ListingStatusActive) eqn:Hact;
      simpl; [|split; reflexivity].
    destruct (Listing.SellerID listing =?s buyerID) eqn:Hself; [split; reflexivity|].
    destruct (BuyListingRequest.Qty req >? Listing.Qty listing) eqn:Hqty;
      [split; reflexivity|].
    destruct (auction.expired listing nowCheck) eqn:Hexp; [split; reflexivity|].
    exfalso. destruct Hcase as [Hc|[Hc|[Hc|Hc]]].
    + destruct (Z.gtb_spec (BuyListingRequest.Qty req) (Listing.Qty listing));
        [discriminate|lia].
    + apply String.eqb_neq in Hself. contradiction.
    + apply Hc. destruct (Listing.Status listing); auto; discriminate.
    + discriminate.
  - intros buyer Hqty Hself Hact Hexp Hbuyer Hin Hfunds.
    subst outcome. unfold auction.Buy. rewrite Hv, Hget, Hact, Hexp. simpl.
    apply String.eqb_neq in Hself. rewrite Hself.
    assert (Hle : (BuyListingRequest.Qty req >? Listing.Qty listing) = false).
    { destruct (Z.gtb_spec (BuyListingRequest.Qty req) (Listing.Qty listing));
        [lia|reflexivity]. }
    rewrite Hle. unfold WithTransaction, auction.settle, bind, wrapErr, readTx.
    rewrite Hbuyer. unfold auction.totalPrice. subst total. rewrite (wrap64_id _ Hin).
    apply Z.ltb_lt in Hfunds. rewrite Hfunds. split; reflexivity.
  - intros e He. subst outcome.
    destruct (auction.Buy nowCheck now uuid st buyerID listingID req) as [r st1] eqn:Hbuy.
    simpl in *. subst r. eapply Buy_error_frame; eauto.
Qed.

(** C7. For a successful buy on a listing whose stored quantity is an int64:
    when the purchased quantity is the listing's whole quantity, the returned
    listing is sold, records the buyer and has quantity zero; when it is
    less, the returned listing keeps its status, active, and its quantity is
    the previous one minus the purchased one. The returned listing is the one
    the store holds afterwards. *)
Theorem buy_fills_listing nowCheck now uuid st buyerID listingID req listing out st' :
  auctionRepo.GetByID st listingID = inr listing ->
  int64 (Listing.Qty listing) ->
  auction.Buy nowCheck now uuid st buyerID listingID req = (inr out, st') ->
  (BuyListingRequest.Qty req = Listing.Qty listing ->
   Listing.Status out = ListingStatusSold /\ Listing.BuyerID out = buyerID
   /\ Listing.Qty out = 0)
  /\ (BuyListingRequest.Qty req < Listing.Qty listing ->
      Listing.Qty out = Listing.Qty listing - BuyListingRequest.Qty req
      /\ Listing.Status out = ListingStatusActive)
  /\ auctionRepo.GetByID st' listingID = inr out.
Proof.
  intros Hlisting Hint Hbuy.
  apply Buy_inr in Hbuy as (l & Hl & Hlid & Hq & Hact & _ & Hs).
  rewrite Hlisting in Hl. injection Hl as <-.
  apply buy_settle_inr in Hs
    as (_ & _ & _ & _ & _ & _ & _ & Hout & Hlistings & (old & Hold) & _).
  split; [|split].
  - intros Hall. rewrite Hout. unfold auction.fill.
    apply Z.eqb_eq in Hall. rewrite Hall. auto.
  - intros Hless. rewrite Hout. unfold auction.fill.
    assert (Hne : (BuyListingRequest.Qty req =? Listing.Qty listing) = false)
      by (apply Z.eqb_neq; lia).
    rewrite Hne. simpl. split; [|exact Hact].
    apply wrap64_id. unfold int64, min_int64, max_int64 in *. lia.
  - unfold auctionRepo.GetByID. rewrite Hlistings, <- Hlid.
    erewrite findOne_updateFirst_hit.
    + rewrite Hout. reflexivity.
    + exact Hold.
    + unfold auctionRepo.byListingID.
      destruct (fill_keeps listing buyerID (BuyListingRequest.Qty req)) as (-> & _).
      apply String.eqb_refl.
Qed.

End AuctionProperties.

(** * The theorems on concrete data *)

Import fixtures.

(** Closed comparisons of integers. *)
Ltac compare_Z :=
  vm_compute; repeat split; first [reflexivity | intro; discriminate].

Example firstAttempt_settles : firstAttempt = (inr firstResponse, settledStore).
Proof. vm_compute. reflexivity. Qed.

(** The scenario of the specification: an attempt at step 2 before step 1,
    here from off site, is a wrong step order. *)
Lemma attempt_wrong_step_order_witness :
  run.Attempt run.sequential 1000 "a-1" dungeonStore "p-1" "run-1" "s-2"
    (offSite "idem-key-1")
  = (inl (Errorf "expected step order" (Sentinel ErrWrongStepOrder)), dungeonStore)
  /\ failsWith
       (fst (run.Attempt run.sequential 1000 "a-1" dungeonStore "p-1" "run-1" "s-2"
               (offSite "idem-key-1"))) ErrWrongStepOrder = true.
Proof.
  apply (attempt_wrong_step_order run.sequential 1000 "a-1" dungeonStore "p-1" "run-1"
           "s-2" (offSite "idem-key-1") freshRun (bossStep "s-2" 2));
    try reflexivity.
  simpl. lia.
Defined.


(** The scenario of the specification: the call that succeeded, repeated
    under the same key, is not replayed. *)
Lemma attempt_retry_not_replayed_witness :
  snd (run.Attempt run.sequential 1001 "a-2" settledStore "p-1" "run-1" "s-1"
         (onSite "idem-key-1")) = settledStore
  /\ (forall replayed,
         fst (run.Attempt run.sequential 1001 "a-2" settledStore "p-1" "run-1" "s-1"
                (onSite "idem-key-1")) <> inr replayed)
  /\ (failsWith
        (fst (run.Attempt run.sequential 1001 "a-2" settledStore "p-1" "run-1" "s-1"
                (onSite "idem-key-1"))) ErrWrongStepOrder = true
      \/ failsWith
           (fst (run.Attempt run.sequential 1001 "a-2" settledStore "p-1" "run-1" "s-1"
                   (onSite "idem-key-1"))) ErrConflict = true).
Proof.
  apply (attempt_retry_not_replayed 1000 "a-1" dungeonStore "p-1" "run-1" "s-1"
           (onSite "idem-key-1") firstResponse settledStore run.sequential 1001 "a-2").
  - vm_compute. reflexivity.
  - reflexivity.
Defined.

(** The scenario of the specification: the same step under the key
    idem-key-2 is not reported as already handled. *)
Lemma attempt_other_key_not_already_handled_witness :
  snd (run.Attempt run.sequential 1001 "a-2" settledStore "p-1" "run-1" "s-1"
         (onSite "idem-key-2")) = settledStore
  /\ failsWith
       (fst (run.Attempt run.sequential 1001 "a-2" settledStore "p-1" "run-1" "s-1"
               (onSite "idem-key-2"))) ErrAlreadyHandled = false
  /\ (failsWith
        (fst (run.Attempt run.sequential 1001 "a-2" settledStore "p-1" "run-1" "s-1"
                (onSite "idem-key-2"))) ErrWrongStepOrder = true
      \/ failsWith
           (fst (run.Attempt run.sequential 1001 "a-2" settledStore "p-1" "run-1" "s-1"
                   (onSite "idem-key-2"))) ErrConflict = true).
Proof.
  apply (attempt_other_key_not_already_handled 1000 "a-1" dungeonStore "p-1" "run-1" "s-1"
           (onSite "idem-key-1") firstResponse settledStore run.sequential 1001 "a-2"
           (onSite "idem-key-2")).
  - vm_compute. reflexivity.
  - reflexivity.
  - reflexivity.
  - simpl. discriminate.
Defined.

(** What the retry of the scenario returns. *)
Example retry_same_key_is_wrong_step_order :
  run.Attempt run.sequential 1001 "a-2" settledStore "p-1" "run-1" "s-1"
    (onSite "idem-key-1")
  = (inl (Errorf "expected step order" (Sentinel ErrWrongStepOrder)), settledStore).
Proof. vm_compute. reflexivity. Qed.

Example retry_other_key_is_wrong_step_order :
  run.Attempt run.sequential 1001 "a-2" settledStore "p-1" "run-1" "s-1"
    (onSite "idem-key-2")
  = (inl (Errorf "expected step order" (Sentinel ErrWrongStepOrder)), settledStore).
Proof. vm_compute. reflexivity. Qed.

(** A record without key appears between the lookup and the insertion: the
    call, under whatever key, is answered with the stored response. *)
Lemma empty_stored_key_never_mismatch_witness :
  run.Attempt withKeylessRecord 1000 "a-1" dungeonStore "p-1" "run-1" "s-1"
    (onSite "idem-key-1")
  = (inr (run.asReplay firstResponse), withKeylessRecord dungeonStore).
Proof.
  assert (Hadmitted : run.attemptAdmission dungeonStore "p-1" "run-1" "s-1"
                        (onSite "idem-key-1")
                      = inr (freshRun, bossStep "s-1" 1, 0%float))
    by (vm_compute; reflexivity).
  destruct (empty_stored_key_never_mismatch withKeylessRecord 1000 "a-1" dungeonStore
              "p-1" "run-1" "s-1" (onSite "idem-key-1") freshRun (bossStep "s-1" 1) 0%float
              Hadmitted) as (_ & Hrecovery & _).
  apply (Hrecovery keylessRecord); reflexivity.
Defined.

(** The same record met by the lookup: replayed under any key. *)
Example keyless_record_replayed_on_lookup :
  run.Attempt run.sequential 1000 "a-1" (withKeylessRecord dungeonStore) "p-1" "run-1"
    "s-1" (onSite "another-key")
  = (inr (run.asReplay firstResponse), withKeylessRecord dungeonStore).
Proof. vm_compute. reflexivity. Qed.

(** The dungeon of two steps, cleared in two attempts. *)
Lemma run_completes_after_all_steps_witness :
  exists run',
    runRepo.GetRunByID clearedStore "run-1" = inr run'
    /\ Run.State run' = RunStateCompleted
    /\ Run.CurrentStep run' = 3
    /\ (exists t, Run.EndedAt run' = Some t)
    /\ Run.KilledSteps run' = map run.killedBy clearDungeon.
Proof.
  assert (Hcleared : run.attemptEach dungeonStore "p-1" "run-1" clearDungeon
                     = Some clearedStore) by (vm_compute; reflexivity).
  apply (run_completes_after_all_steps dungeonStore "p-1" "run-1" freshRun
           [bossStep "s-1" 1; bossStep "s-2" 2] clearDungeon clearedStore
           eq_refl eq_refl eq_refl eq_refl eq_refl eq_refl
           ltac:(discriminate) ltac:(compare_Z) Hcleared).
Defined.

(** The scenario of the specification: 2 of 3 swords at 10 a piece. *)
Lemma buy_transfers_total_witness :
  (exists buyer', playerRepo.GetByID
                    (snd (auction.Buy 20 21 "t-1" (marketStore 3 10) "buyer" "L-1"
                            (buyQty 2))) "buyer" = inr buyer'
                  /\ Player.Gold buyer' = 100 - 2 * 10)
  /\ (exists seller', playerRepo.GetByID
                        (snd (auction.Buy 20 21 "t-1" (marketStore 3 10) "buyer" "L-1"
                                (buyQty 2))) "seller" = inr seller'
                      /\ Player.Gold seller' = 0 + 2 * 10).
Proof.
  destruct (auction.Buy 20 21 "t-1" (marketStore 3 10) "buyer" "L-1" (buyQty 2))
    as [[e|out] st'] eqn:Hbuy; [vm_compute in Hbuy; discriminate|].
  destruct (buy_transfers_total 20 21 "t-1" (marketStore 3 10) "buyer" "L-1" (buyQty 2)
              (listingOf 3 10) (player "buyer" 100) (player "seller" 0) out st'
              eq_refl eq_refl eq_refl
              ltac:(compare_Z) ltac:(compare_Z) Hbuy)
    as (Hbuyer & Hseller & _).
  split; assumption.
Defined.

(** The seller cannot buy the listing; the buyer cannot afford 3 swords at
    50 a piece. *)
Lemma buy_rejections_witness :
  (failsWith (fst (auction.Buy 20 21 "t-1" (marketStore 3 10) "seller" "L-1" (buyQty 2)))
     ErrConflict = true
   /\ snd (auction.Buy 20 21 "t-1" (marketStore 3 10) "seller" "L-1" (buyQty 2))
      = marketStore 3 10)
  /\ (failsWith (fst (auction.Buy 20 21 "t-1" (marketStore 3 50) "buyer" "L-1" (buyQty 3)))
        ErrInsufficient = true
      /\ snd (auction.Buy 20 21 "t-1" (marketStore 3 50) "buyer" "L-1" (buyQty 3))
         = marketStore 3 50).
Proof.
  split.
  - destruct (buy_rejections 20 21 "t-1" (marketStore 3 10) "seller" "L-1" (buyQty 2)
                (listingOf 3 10) eq_refl eq_refl) as (Hconflict & _).
    apply Hconflict. right. left. reflexivity.
  - destruct (buy_rejections 20 21 "t-1" (marketStore 3 50) "buyer" "L-1" (buyQty 3)
                (listingOf 3 50) eq_refl eq_refl) as (_ & Hfunds & _).
    apply (Hfunds (player "buyer" 100)); try reflexivity; compare_Z.
Defined.

(** The scenario of the specification: 2 of 3 swords bought, 1 left on an
    active listing. *)
Lemma buy_fills_listing_witness :
  exists out st',
    auction.Buy 20 21 "t-1" (marketStore 3 10) "buyer" "L-1" (buyQty 2) = (inr out, st')
    /\ Listing.Qty out = 1 /\ Listing.Status out = ListingStatusActive.
Proof.
  destruct (auction.Buy 20 21 "t-1" (marketStore 3 10) "buyer" "L-1" (buyQty 2))
    as [[e|out] st'] eqn:Hbuy; [vm_compute in Hbuy; discriminate|].
  exists out, st'. split; [reflexivity|].
  destruct (buy_fills_listing 20 21 "t-1" (marketStore 3 10) "buyer" "L-1" (buyQty 2)
              (listingOf 3 10) out st' eq_refl ltac:(compare_Z) Hbuy)
    as (_ & Hpartial & _).
  apply Hpartial. compare_Z.
Defined.

(** The rest of that scenario: the last sword sells the listing, and a
    further buy is a conflict. *)
Example buy_scenario :
  exists l1 st1 l2 st2,
    auction.Buy 20 21 "t-1" (marketStore 3 10) "buyer" "L-1" (buyQty 2) = (inr l1, st1)
    /\ Listing.Status l1 = ListingStatusActive /\ Listing.Qty l1 = 1
    /\ map Trade.TotalPrice (auction_trades st1) = [20]
    /\ auction.Buy 30 31 "t-2" st1 "buyer" "L-1" (buyQty 1) = (inr l2, st2)
    /\ Listing.Status l2 = ListingStatusSold /\ Listing.BuyerID l2 = "buyer"
    /\ auction.Buy 40 41 "t-3" st2 "buyer" "L-1" (buyQty 1)
       = (inl (Errorf "listing is not active" (Sentinel ErrConflict)), st2).
Proof.
  do 4 eexists.
  split; [vm_compute; reflexivity|].
  split; [reflexivity|]. split; [reflexivity|]. split; [reflexivity|].
  split; [vm_compute; reflexivity|].
  split; [reflexivity|]. split; [reflexivity|].
  vm_compute. reflexivity.
Qed.

(** C3, the defect of [Buy]: on a listing of 3 swords at 2^62 a piece the
    unchecked int64 product [3 * 2^62] wraps to [- 2^62]; the debit the code
    attempts is defeated, the buy succeeds and the buyer's balance goes from
    100 up to [100 + 2^62] instead of down by the total. *)
Lemma buy_overflow_credits_buyer :
  exists out st' buyer',
    auction.Buy 20 21 "t-1" (marketStore 3 (2 ^ 62)) "buyer" "L-1" (buyQty 3)
    = (inr out, st')
    /\ playerRepo.GetByID (marketStore 3 (2 ^ 62)) "buyer" = inr (player "buyer" 100)
    /\ playerRepo.GetByID st' "buyer" = inr buyer'
    /\ Player.Gold buyer' = 100 + 2 ^ 62
    /\ Player.Gold buyer' <> 100 - 3 * 2 ^ 62.
Proof.
  do 3 eexists.
  split; [vm_compute; reflexivity|].
  split; [reflexivity|].
  split; [vm_compute; reflexivity|].
  split; [reflexivity|].
  vm_compute. discriminate.
Qed.

(** C4, the defect of [Buy]: on the same listing the buyer's balance, 100,
    is below the total price [3 * 2^62], but the funds check compares it with
    the wrapped product and the buy is not rejected. *)
Lemma buy_overflow_not_rejected :
  exists out st',
    playerRepo.GetByID (marketStore 3 (2 ^ 62)) "buyer" = inr (player "buyer" 100)
    /\ 100 < 3 * 2 ^ 62
    /\ auction.Buy 20 21 "t-1" (marketStore 3 (2 ^ 62)) "buyer" "L-1" (buyQty 3)
       = (inr out, st')
    /\ failsWith
         (fst (auction.Buy 20 21 "t-1" (marketStore 3 (2 ^ 62)) "buyer" "L-1" (buyQty 3)))
         ErrInsufficient = false.
Proof.
  do 2 eexists.
  split; [reflexivity|].
  split; [reflexivity|].
  split; vm_compute; reflexivity.
Qed.

(** The other side of that buy: the seller, who had no gold, is debited and
    ends at [- 2^62], and the receipt records a negative total. *)
Example buy_overflow_debits_seller :
  exists out st' seller',
    auction.Buy 20 21 "t-1" (marketStore 3 (2 ^ 62)) "buyer" "L-1" (buyQty 3)
    = (inr out, st')
    /\ playerRepo.GetByID st' "seller" = inr seller'
    /\ Player.Gold seller' = - 2 ^ 62
    /\ map Trade.TotalPrice (auction_trades st') = [- 2 ^ 62].
Proof.
  do 3 eexists.
  split; [vm_compute; reflexivity|].
  split; [vm_compute; reflexivity|].
  split; reflexivity.
Qed.

(** * Further properties of the code *)

(** ** Pagination *)

Lemma Normalize_range (q : QueryParams.t) :
  1 <= QueryParams.Page (Normalize q)
  /\ 1 <= QueryParams.Limit (Normalize q) <= 100
  /\ (1 <= QueryParams.Page q -> QueryParams.Page (Normalize q) = QueryParams.Page q)
  /\ (1 <= QueryParams.Limit q <= 100 ->
      QueryParams.Limit (Normalize q) = QueryParams.Limit q)
  /\ Normalize (Normalize q) = Normalize q.
Proof.
  destruct q as [P L]. unfold Normalize. cbn [QueryParams.Page QueryParams.Limit].
  destruct (P <=? 0) eqn:HP; destruct (L <=? 0) eqn:HL; destruct (L >? 100) eqn:HG;
    cbn; rewrite ?HP, ?HL, ?HG; cbn;
    (apply Z.leb_le in HP || apply Z.leb_gt in HP);
    (apply Z.leb_le in HL || apply Z.leb_gt in HL);
    rewrite Z.gtb_ltb in HG; (apply Z.ltb_lt in HG || apply Z.ltb_ge in HG);
    repeat split; try reflexivity; try lia.
Qed.

(** X1. [Normalize] leaves a page of at least 1 and a limit from 1 to 100,
    keeps a page and a limit that are already in these ranges, and
    normalising twice is normalising once. *)
Theorem Normalize_bounds (q : QueryParams.t) :
  1 <= QueryParams.Page (Normalize q)
  /\ 1 <= QueryParams.Limit (Normalize q) <= 100
  /\ (1 <= QueryParams.Page q -> QueryParams.Page (Normalize q) = QueryParams.Page q)
  /\ (1 <= QueryParams.Limit q <= 100 ->
      QueryParams.Limit (Normalize q) = QueryParams.Limit q)
  /\ Normalize (Normalize q) = Normalize q.
Proof. exact (Normalize_range q). Qed.

Lemma Skip_product (q : QueryParams.t) :
  QueryParams.Page q <= max_int64 / 100 + 1 ->
  Skip q = (QueryParams.Page (Normalize q) - 1) * QueryParams.Limit (Normalize q)
  /\ 0 <= Skip q
  /\ (QueryParams.Page q <= 1 -> Skip q = 0).
Proof.
  intros Hpage.
  destruct (Normalize_range q) as (Hp & Hl & Hkeep & _).
  assert (Hn : QueryParams.Page (Normalize q) - 1 <= max_int64 / 100).
  { unfold Normalize in *. cbn [QueryParams.Page] in *.
    destruct (QueryParams.Page q <=? 0); [unfold max_int64; cbn; lia|lia]. }
  assert (Hprod : 0 <= (QueryParams.Page (Normalize q) - 1) * QueryParams.Limit (Normalize q)
                  <= max_int64).
  { split; [nia|].
    assert (max_int64 / 100 * 100 <= max_int64) by (unfold max_int64; cbn; lia).
    nia. }
  assert (Hskip : Skip q
                  = (QueryParams.Page (Normalize q) - 1) * QueryParams.Limit (Normalize q)).
  { unfold Skip. cbv zeta.
    rewrite (wrap64_id (QueryParams.Page (Normalize q) - 1)).
    - apply wrap64_id. unfold int64, min_int64, max_int64 in *. lia.
    - unfold int64, min_int64. unfold max_int64 in *.
      assert (max_int64 / 100 <= max_int64) by (unfold max_int64; cbn; lia).
      unfold max_int64 in *. lia. }
  rewrite Hskip. repeat split; try lia.
  intros Hone. unfold Normalize. cbn [QueryParams.Page QueryParams.Limit].
  destruct (Z.leb_spec (QueryParams.Page q) 0) as [Hle|Hgt]; [lia|].
  replace (QueryParams.Page q) with 1 by lia. lia.
Qed.

(** X2. For a page of at most [(2^63 - 1) / 100 + 1],
    [Skip] is exactly [(page - 1) * limit] of the normalised parameters, and
    it is not negative; for a page of 1 or less it is 0. Beyond that bound
    the int64 product may wrap. *)
Theorem Skip_exact (q : QueryParams.t) :
  QueryParams.Page q <= max_int64 / 100 + 1 ->
  Skip q = (QueryParams.Page (Normalize q) - 1) * QueryParams.Limit (Normalize q)
  /\ 0 <= Skip q
  /\ (QueryParams.Page q <= 1 -> Skip q = 0).
Proof.
  exact (Skip_product q).
Qed.

(** ** Inventory *)

Section InventoryProperties.
Context `{Codec}.

(** The sum of the quantities of the entries of (player, item). *)
Lemma held_cons st e rest playerID itemID :
  inventory st = e :: rest ->
  held st playerID itemID
  = (if inventoryRepo.byPlayerItem playerID itemID e then InventoryEntry.Qty e else 0)
    + held (set_inventory rest st) playerID itemID.
Proof.
  unfold held. intros ->. cbn [inventory set_inventory filter].
  destruct (inventoryRepo.byPlayerItem playerID itemID e); cbn; lia.
Qed.

Lemma held_app st playerID itemID inv e :
  held (set_inventory (inv ++ [e]) st) playerID itemID
  = held (set_inventory inv st) playerID itemID
    + (if inventoryRepo.byPlayerItem playerID itemID e then InventoryEntry.Qty e else 0).
Proof.
  unfold held. cbn [inventory set_inventory]. induction inv as [|x xs IH]; cbn.
  - destruct (inventoryRepo.byPlayerItem playerID itemID e); cbn; lia.
  - destruct (inventoryRepo.byPlayerItem playerID itemID x); cbn; lia.
Qed.

(** An update of the quantity of the first entry that matches a filter moves
    the holdings of that entry's (player, item) by the difference, and no
    other holding. *)
Lemma held_updateFirst st playerID itemID flt qty now inv e :
  findOne flt inv = Some e ->
  held (set_inventory (updateFirst flt (inventoryRepo.withQty qty now) inv) st)
    playerID itemID
  = held (set_inventory inv st) playerID itemID
    + (if inventoryRepo.byPlayerItem playerID itemID e
       then qty - InventoryEntry.Qty e else 0).
Proof.
  unfold held, findOne. cbn [inventory set_inventory].
  induction inv as [|x xs IH]; cbn; [discriminate|].
  destruct (flt x) eqn:Hx.
  - intros [= ->]. cbn.
    change (inventoryRepo.byPlayerItem playerID itemID (inventoryRepo.withQty qty now e))
      with (inventoryRepo.byPlayerItem playerID itemID e).
    destruct (inventoryRepo.byPlayerItem playerID itemID e); cbn; lia.
  - intros Hf. cbn. specialize (IH Hf).
    destruct (inventoryRepo.byPlayerItem playerID itemID x); cbn; lia.
Qed.

Lemma set_inventory_same st : set_inventory (inventory st) st = st.
Proof. destruct st; reflexivity. Qed.

Lemma byPlayerItem_of e playerID itemID p i :
  inventoryRepo.byPlayerItem playerID itemID e = true ->
  inventoryRepo.byPlayerItem p i e = (p =?s playerID) && (i =?s itemID).
Proof.
  unfold inventoryRepo.byPlayerItem. intros He.
  apply andb_true_iff in He as [Hp Hi].
  apply String.eqb_eq in Hp, Hi. rewrite Hp, Hi.
  now rewrite (String.eqb_sym playerID p), (String.eqb_sym itemID i).
Qed.

Lemma AddItem_effect playerID itemID qty now st u st' :
  inventoryRepo.AddItem playerID itemID qty now st = inr (u, st') ->
  0 < qty
  /\ (forall p i,
         held st' p i
         = held st p i + (if (p =?s playerID) && (i =?s itemID) then qty else 0))
  /\ st' = set_inventory (inventory st') st
  /\ (forall q, q <= 0 ->
        inventoryRepo.AddItem playerID itemID q now st
        = inl (Errorf "qty must be positive" (Sentinel ErrValidation))).
Proof.
  unfold inventoryRepo.AddItem. intros Hadd.
  destruct (Z.leb_spec qty 0) as [Hle|Hpos]; [discriminate|].
  split; [exact Hpos|]. split; [|split].
  - intros p i.
    destruct (findOne _ (inventory st)) as [e|] eqn:Hf.
    + destruct (in_int64 _); [|discriminate]. injection Hadd as _ <-.
      rewrite (held_updateFirst _ _ _ _ _ _ _ _ Hf), set_inventory_same.
      rewrite (byPlayerItem_of _ _ _ p i (findOne_holds _ _ _ Hf)).
      destruct ((p =?s playerID) && (i =?s itemID)); lia.
    + destruct (existsb _ _); [discriminate|]. injection Hadd as _ <-.
      rewrite held_app, set_inventory_same. unfold inventoryRepo.byPlayerItem. cbn.
      now rewrite (String.eqb_sym playerID p), (String.eqb_sym itemID i).
  - repeat break_match; try discriminate; injection Hadd as _ <-; reflexivity.
  - intros q Hq. apply Z.leb_le in Hq. now rewrite Hq.
Qed.

(** X3. [AddItem] refuses a quantity of zero or less with [ErrValidation].
    When it succeeds, the player's holding of the item grows by exactly
    [qty], no other holding moves, and nothing but the inventory changes. *)
Theorem AddItem_held playerID itemID qty now st :
  (forall u st',
      inventoryRepo.AddItem playerID itemID qty now st = inr (u, st') ->
      0 < qty
      /\ (forall p i,
             held st' p i
             = held st p i + (if (p =?s playerID) && (i =?s itemID) then qty else 0))
      /\ st' = set_inventory (inventory st') st)
  /\ (qty <= 0 ->
      inventoryRepo.AddItem playerID itemID qty now st
      = inl (Errorf "qty must be positive" (Sentinel ErrValidation))).
Proof.
  split.
  - intros u st' Hadd.
    destruct (AddItem_effect playerID itemID qty now st u st' Hadd)
      as (Hpos & Hheld & Hframe & _).
    auto.
  - intros Hle. unfold inventoryRepo.AddItem.
    destruct (Z.leb_spec qty 0); [reflexivity|lia].
Qed.

Lemma findOne_none_of {A} (f : A -> bool) (l : list A) :
  (forall x, In x l -> f x = false) -> findOne f l = None.
Proof.
  intros Hall. unfold findOne. destruct (find f l) as [x|] eqn:Hf; [|reflexivity].
  apply find_some in Hf as [Hin Hx]. rewrite (Hall x Hin) in Hx. discriminate.
Qed.

Lemma wrap64_opp (qty : Z) : 0 < qty -> int64 qty -> wrap64 (- qty) = - qty.
Proof.
  intros Hpos Hq. apply wrap64_id. unfold int64, min_int64, max_int64 in *. lia.
Qed.

Lemma RemoveItem_effect playerID itemID qty now st :
  int64 qty ->
  (forall u st',
      inventoryRepoExt.RemoveItem playerID itemID qty now st = inr (u, st') ->
      0 < qty
      /\ (forall p i,
             held st' p i
             = held st p i - (if (p =?s playerID) && (i =?s itemID) then qty else 0))
      /\ st' = set_inventory (inventory st') st
      /\ exists e, In e (inventory st)
                   /\ inventoryRepo.byPlayerItem playerID itemID e = true
                   /\ qty <= InventoryEntry.Qty e)
  /\ (0 < qty ->
      (forall e, In e (inventory st) ->
                 inventoryRepo.byPlayerItem playerID itemID e = true ->
                 InventoryEntry.Qty e < qty) ->
      inventoryRepoExt.RemoveItem playerID itemID qty now st
      = inl (Errorf "not enough item quantity" (Sentinel ErrConflict)))
  /\ (qty <= 0 ->
      inventoryRepoExt.RemoveItem playerID itemID qty now st
      = inl (Errorf "qty must be positive" (Sentinel ErrValidation))).
Proof.
  intros Hq. unfold inventoryRepoExt.RemoveItem. split; [|split].
  - intros u st' Hrem.
    destruct (Z.leb_spec qty 0) as [Hle|Hpos]; [discriminate|].
    destruct (findOne _ (inventory st)) as [e|] eqn:Hf; [|discriminate].
    destruct (in_int64 _); [|discriminate]. injection Hrem as _ <-.
    pose proof (findOne_holds _ _ _ Hf) as He. unfold inventoryRepoExt.holding in He.
    apply andb_true_iff in He as [Hpi Hge]. apply Z.leb_le in Hge.
    split; [exact Hpos|]. split; [|split].
    + intros p i.
      rewrite (held_updateFirst _ _ _ _ _ _ _ _ Hf), set_inventory_same.
      rewrite (byPlayerItem_of _ _ _ p i Hpi), (wrap64_opp _ Hpos Hq).
      destruct ((p =?s playerID) && (i =?s itemID)); lia.
    + reflexivity.
    + exists e. repeat split; auto. apply (find_some _ _ Hf).
  - intros Hpos Hnone. apply Z.leb_gt in Hpos. rewrite Hpos.
    rewrite findOne_none_of; [reflexivity|].
    intros e Hin. unfold inventoryRepoExt.holding.
    destruct (inventoryRepo.byPlayerItem playerID itemID e) eqn:Hpi; [|reflexivity].
    specialize (Hnone e Hin Hpi). cbn. apply Z.leb_gt. exact Hnone.
  - intros Hle. apply Z.leb_le in Hle. now rewrite Hle.
Qed.

(** X4. [RemoveItem] of an int64 quantity. When it succeeds the quantity is
    positive, an entry of (player, item) held at least that much, the
    player's holding of the item drops by exactly [qty], no other holding
    moves and nothing but the inventory changes. When no entry of
    (player, item) holds [qty], it fails with [ErrConflict]; a quantity of
    zero or less fails with [ErrValidation]. *)
Theorem RemoveItem_held playerID itemID qty now st :
  int64 qty ->
  (forall u st',
      inventoryRepoExt.RemoveItem playerID itemID qty now st = inr (u, st') ->
      0 < qty
      /\ (forall p i,
             held st' p i
             = held st p i - (if (p =?s playerID) && (i =?s itemID) then qty else 0))
      /\ st' = set_inventory (inventory st') st
      /\ exists e, In e (inventory st)
                   /\ inventoryRepo.byPlayerItem playerID itemID e = true
                   /\ qty <= InventoryEntry.Qty e)
  /\ (0 < qty ->
      (forall e, In e (inventory st) ->
                 inventoryRepo.byPlayerItem playerID itemID e = true ->
                 InventoryEntry.Qty e < qty) ->
      inventoryRepoExt.RemoveItem playerID itemID qty now st
      = inl (Errorf "not enough item quantity" (Sentinel ErrConflict)))
  /\ (qty <= 0 ->
      inventoryRepoExt.RemoveItem playerID itemID qty now st
      = inl (Errorf "qty must be positive" (Sentinel ErrValidation))).
Proof. exact (RemoveItem_effect playerID itemID qty now st). Qed.

End InventoryProperties.

(** ** Listings: creation and cancellation *)

Section ListingProperties.
Context `{Codec}.

Lemma findOne_app_new {A} (f : A -> bool) (l : list A) (d : A) :
  existsb f l = false -> f d = true -> findOne f (l ++ [d]) = Some d.
Proof.
  unfold findOne. induction l as [|x xs IH]; cbn; intros Hex Hd.
  - now rewrite Hd.
  - apply orb_false_iff in Hex as [Hx Hxs]. rewrite Hx. now apply IH.
Qed.

(** What a successful [CreateListing] went through. *)
Lemma CreateListing_inr cat now uuid st sellerID req listing st' :
  auctionExt.CreateListing cat now uuid st sellerID req = (inr listing, st') ->
  auctionExt.validateCreateListingRequest req = true
  /\ listing = auctionExt.newListing now uuid sellerID req
  /\ exists s1,
       inventoryRepoExt.RemoveItem sellerID (CreateListingRequest.ItemID req)
         (CreateListingRequest.Qty req) now st = inr (tt, s1)
       /\ existsb (auctionRepo.byListingID uuid) (auction_listings s1) = false
       /\ st' = set_auction_listings (auction_listings s1 ++ [listing]) s1.
Proof.
  unfold auctionExt.CreateListing.
  destruct (auctionExt.validateCreateListingRequest req); [|discriminate]. cbn [negb].
  destruct (inventoryRepoExt.GetItemDef _ _) as [e|item]; [discriminate|].
  destruct (negb (ItemDef.Tradable item)); [discriminate|].
  unfold WithTransaction, bind, wrapErr.
  destruct (inventoryRepoExt.RemoveItem _ _ _ _ _) as [e|[[] s1]] eqn:Hrem; [discriminate|].
  unfold auctionRepoExt.CreateListing. cbn [Listing.ID auctionExt.newListing].
  destruct (existsb _ _) eqn:Hex; [discriminate|]. cbn.
  intros [= <- <-]. repeat split. exists s1. auto.
Qed.

Lemma CreateListing_effect cat now uuid st sellerID req listing st' :
  int64 (CreateListingRequest.Qty req) ->
  auctionExt.CreateListing cat now uuid st sellerID req = (inr listing, st') ->
  listing = auctionExt.newListing now uuid sellerID req
  /\ auctionRepo.GetByID st' uuid = inr listing
  /\ (forall p i,
         held st' p i
         = held st p i
           - (if (p =?s sellerID) && (i =?s CreateListingRequest.ItemID req)
              then CreateListingRequest.Qty req else 0))
  /\ auction_listings st' = (auction_listings st ++ [listing])%list
  /\ players st' = players st
  /\ auction_trades st' = auction_trades st.
Proof.
  intros Hq Hcreate.
  apply CreateListing_inr in Hcreate as (_ & Hl & s1 & Hrem & Hex & ->).
  destruct (RemoveItem_effect sellerID (CreateListingRequest.ItemID req)
              (CreateListingRequest.Qty req) now st Hq) as (Hok & _).
  destruct (Hok _ _ Hrem) as (_ & Hheld & Hframe & _).
  split; [exact Hl|]. split; [|split; [|split; [|split]]].
  - unfold auctionRepo.GetByID. cbn [auction_listings set_auction_listings].
    rewrite findOne_app_new; auto.
    rewrite Hl. unfold auctionRepo.byListingID. cbn. apply String.eqb_refl.
  - intros p i. rewrite <- Hheld. reflexivity.
  - rewrite Hframe. reflexivity.
  - rewrite Hframe. reflexivity.
  - rewrite Hframe. reflexivity.
Qed.

(** X5. A successful [CreateListing] escrows the goods: the seller's holding
    of the item drops by exactly the listed quantity and no other holding
    moves; the listing it returns is active, carries the seller, the item,
    the quantity, the price and an expiry of [ExpiresInH] hours from now (none
    for zero), is appended to the listings and is what [GetByID] then finds
    under its id; wallets and trades are untouched. *)
Theorem CreateListing_escrow cat now uuid st sellerID req listing st' :
  int64 (CreateListingRequest.Qty req) ->
  auctionExt.CreateListing cat now uuid st sellerID req = (inr listing, st') ->
  listing = auctionExt.newListing now uuid sellerID req
  /\ auctionRepo.GetByID st' uuid = inr listing
  /\ (forall p i,
         held st' p i
         = held st p i
           - (if (p =?s sellerID) && (i =?s CreateListingRequest.ItemID req)
              then CreateListingRequest.Qty req else 0))
  /\ auction_listings st' = (auction_listings st ++ [listing])%list
  /\ players st' = players st
  /\ auction_trades st' = auction_trades st.
Proof. exact (CreateListing_effect cat now uuid st sellerID req listing st'). Qed.

(** X6. [CreateListing] rejects a malformed request with [ErrValidation], an
    unknown item with [ErrNotFound], an item that is not tradable with
    [ErrConflict] and, for a tradable item, a seller none of whose entries
    holds the quantity with [ErrConflict]. Whenever it returns an error the
    store is as it was. *)
Theorem CreateListing_rejections cat now uuid st sellerID req :
  let outcome := auctionExt.CreateListing cat now uuid st sellerID req in
  (auctionExt.validateCreateListingRequest req = false ->
   failsWith (fst outcome) ErrValidation = true)
  /\ (auctionExt.validateCreateListingRequest req = true ->
      (forall item, In item (item_defs cat) ->
                    ItemDef.ID item <> CreateListingRequest.ItemID req) ->
      failsWith (fst outcome) ErrNotFound = true)
  /\ (forall item,
        auctionExt.validateCreateListingRequest req = true ->
        inventoryRepoExt.GetItemDef cat (CreateListingRequest.ItemID req) = inr item ->
        (ItemDef.Tradable item = false
         \/ (forall e, In e (inventory st) ->
                       inventoryRepo.byPlayerItem sellerID
                         (CreateListingRequest.ItemID req) e = true ->
                       InventoryEntry.Qty e < CreateListingRequest.Qty req)) ->
        failsWith (fst outcome) ErrConflict = true)
  /\ (forall e, fst outcome = inl e -> snd outcome = st).
Proof.
  intros outcome. subst outcome. unfold auctionExt.CreateListing.
  split; [|split; [|split]].
  - intros ->. reflexivity.
  - intros -> Hnone. unfold inventoryRepoExt.GetItemDef.
    rewrite findOne_none_of; [reflexivity|].
    intros item Hin. apply String.eqb_neq. auto.
  - intros item Hv Hitem Hcase. rewrite Hv, Hitem. cbn [negb].
    destruct (ItemDef.Tradable item) eqn:Ht; [|reflexivity]. cbn [negb].
    destruct Hcase as [Hc|Hc]; [discriminate|].
    assert (Hpos : 0 < CreateListingRequest.Qty req).
    { unfold auctionExt.validateCreateListingRequest in Hv.
      repeat (apply andb_true_iff in Hv as [Hv ?]).
      match goal with Hq : (1 <=? CreateListingRequest.Qty req) = true |- _ =>
        apply Z.leb_le in Hq; lia end. }
    unfold WithTransaction, bind, wrapErr, inventoryRepoExt.RemoveItem.
    apply Z.leb_gt in Hpos. rewrite Hpos.
    rewrite findOne_none_of; [reflexivity|].
    intros e Hin. unfold inventoryRepoExt.holding.
    destruct (inventoryRepo.byPlayerItem _ _ e) eqn:Hpi; [|reflexivity].
    cbn. apply Z.leb_gt. auto.
  - destruct (negb (auctionExt.validateCreateListingRequest req)); [reflexivity|].
    destruct (inventoryRepoExt.GetItemDef _ _) as [e0|item]; [reflexivity|].
    destruct (negb (ItemDef.Tradable item)); [reflexivity|].
    unfold WithTransaction.
    match goal with |- context [match ?m st with _ => _ end] => destruct (m st) as [e0|[a s1]] end;
      [reflexivity|discriminate].
Qed.

End ListingProperties.

Section CancelProperties.
Context `{Codec}.

Lemma cancelled_keeps listing :
  Listing.ID (auctionExt.cancelled listing) = Listing.ID listing.
Proof. reflexivity. Qed.

(** What a successful [Cancel] went through. *)
Lemma Cancel_inr now st sellerID listingID out st' :
  auctionExt.Cancel now st sellerID listingID = (inr out, st') ->
  exists listing s1,
    auctionRepo.GetByID st listingID = inr listing
    /\ Listing.ID listing = listingID
    /\ Listing.SellerID listing = sellerID
    /\ Listing.Status listing = ListingStatusActive
    /\ out = auctionExt.cancelled listing
    /\ (if Listing.Qty listing >? 0
        then exists u, inventoryRepo.AddItem sellerID (Listing.ItemID listing)
                         (Listing.Qty listing) now st = inr (u, s1)
        else s1 = st)
    /\ (exists old, findOne (auctionRepo.byListingID listingID) (auction_listings s1)
                    = Some old)
    /\ st' = set_auction_listings
               (updateFirst (auctionRepo.byListingID listingID) (fun _ => out)
                  (auction_listings s1)) s1.
Proof.
  unfold auctionExt.Cancel.
  destruct (auctionRepo.GetByID st listingID) as [e|listing] eqn:Hget; [discriminate|].
  destruct (Listing.SellerID listing =?s sellerID) eqn:Hown; [|discriminate]. cbn [negb].
  destruct (ListingStatus_eqb _ _) eqn:Hact; [|discriminate]. cbn [negb].
  assert (Hid : Listing.ID listing = listingID).
  { unfold auctionRepo.GetByID in Hget.
    destruct (findOne _ _) as [l|] eqn:Hf; [|discriminate]. injection Hget as ->.
    apply findOne_holds in Hf. now apply String.eqb_eq in Hf. }
  unfold WithTransaction.
  destruct (bind _ _ st) as [e|[out0 s2]] eqn:Hb; [discriminate|].
  intros [= <- <-].
  apply bind_inr in Hb as (u & s1 & Hadd & Hrep). apply wrapErr_inr in Hrep.
  unfold auctionRepo.ReplaceListing in Hrep. rewrite cancelled_keeps, Hid in Hrep.
  destruct (findOne _ (auction_listings s1)) as [old|] eqn:Hold; [|discriminate].
  injection Hrep as <- <-. exists listing, s1.
  apply String.eqb_eq in Hown.
  assert (Listing.Status listing = ListingStatusActive)
    by (destruct (Listing.Status listing); auto; discriminate).
  repeat split; auto.
  - destruct (Listing.Qty listing >? 0).
    + apply wrapErr_inr in Hadd. eauto.
    + now injection Hadd as _ <-.
  - eauto.
Qed.

Lemma Cancel_effect now st sellerID listingID out st' :
  auctionExt.Cancel now st sellerID listingID = (inr out, st') ->
  exists listing,
    auctionRepo.GetByID st listingID = inr listing
    /\ Listing.SellerID listing = sellerID
    /\ Listing.Status listing = ListingStatusActive
    /\ out = auctionExt.cancelled listing
    /\ auctionRepo.GetByID st' listingID = inr out
    /\ (forall p i,
           held st' p i
           = held st p i
             + (if (p =?s sellerID) && (i =?s Listing.ItemID listing)
                then Z.max 0 (Listing.Qty listing) else 0))
    /\ players st' = players st
    /\ auction_trades st' = auction_trades st.
Proof.
  intros Hcancel.
  apply Cancel_inr in Hcancel
    as (listing & s1 & Hget & Hid & Hown & Hact & Hout & Hadd & (old & Hold) & ->).
  exists listing. repeat split; auto.
  - unfold auctionRepo.GetByID. cbn [auction_listings set_auction_listings].
    erewrite findOne_updateFirst_hit; [reflexivity|exact Hold|].
    unfold auctionRepo.byListingID. rewrite Hout, cancelled_keeps, Hid.
    apply String.eqb_refl.
  - intros p i. unfold held at 1. cbn [inventory set_auction_listings]. fold (held s1 p i).
    destruct (Z.gtb_spec (Listing.Qty listing) 0) as [Hpos|Hle].
    + destruct Hadd as [u Hadd]. apply AddItem_effect in Hadd as (_ & Hheld & _).
      rewrite Hheld. destruct ((p =?s sellerID) && (i =?s Listing.ItemID listing)); lia.
    + subst s1. destruct ((p =?s sellerID) && (i =?s Listing.ItemID listing)); lia.
  - cbn [players set_auction_listings].
    destruct (Listing.Qty listing >? 0).
    + destruct Hadd as [u Hadd]. apply AddItem_effect in Hadd as (_ & _ & -> & _).
      reflexivity.
    + now subst s1.
  - cbn [auction_trades set_auction_listings].
    destruct (Listing.Qty listing >? 0).
    + destruct Hadd as [u Hadd]. apply AddItem_effect in Hadd as (_ & _ & -> & _).
      reflexivity.
    + now subst s1.
Qed.

(** X7. A successful [Cancel] is the seller's, on an active listing; it
    returns the goods in escrow: the seller's holding of the item grows by
    exactly the listing's remaining quantity and no other holding moves; the
    listing it returns is the same listing with status cancelled, and is what
    [GetByID] then finds; wallets and trades are untouched. *)
Theorem Cancel_returns_escrow now st sellerID listingID out st' :
  auctionExt.Cancel now st sellerID listingID = (inr out, st') ->
  exists listing,
    auctionRepo.GetByID st listingID = inr listing
    /\ Listing.SellerID listing = sellerID
    /\ Listing.Status listing = ListingStatusActive
    /\ out = auctionExt.cancelled listing
    /\ auctionRepo.GetByID st' listingID = inr out
    /\ (forall p i,
           held st' p i
           = held st p i
             + (if (p =?s sellerID) && (i =?s Listing.ItemID listing)
                then Z.max 0 (Listing.Qty listing) else 0))
    /\ players st' = players st
    /\ auction_trades st' = auction_trades st.
Proof. exact (Cancel_effect now st sellerID listingID out st'). Qed.

(** X8. [Cancel] fails with [ErrNotFound] on an unknown listing, with
    [ErrForbidden] for anyone but the seller, whatever the state of the
    listing, and with [ErrConflict] for the seller of a listing that is not
    active. Whenever it returns an error the store is as it was. *)
Theorem Cancel_rejections now st sellerID listingID :
  let outcome := auctionExt.Cancel now st sellerID listingID in
  ((forall l, In l (auction_listings st) -> Listing.ID l <> listingID) ->
   failsWith (fst outcome) ErrNotFound = true)
  /\ (forall listing,
        auctionRepo.GetByID st listingID = inr listing ->
        (Listing.SellerID listing <> sellerID ->
         failsWith (fst outcome) ErrForbidden = true)
        /\ (Listing.SellerID listing = sellerID ->
            Listing.Status listing <> ListingStatusActive ->
            failsWith (fst outcome) ErrConflict = true))
  /\ (forall e, fst outcome = inl e -> snd outcome = st).
Proof.
  intros outcome. subst outcome. unfold auctionExt.Cancel. split; [|split].
  - intros Hnone. unfold auctionRepo.GetByID.
    rewrite findOne_none_of; [reflexivity|].
    intros l Hin. apply String.eqb_neq. auto.
  - intros listing ->. split.
    + intros Hne. apply String.eqb_neq in Hne. rewrite Hne. reflexivity.
    + intros -> Hst. rewrite String.eqb_refl. cbn [negb].
      destruct (Listing.Status listing); try reflexivity. contradiction.
  - destruct (auctionRepo.GetByID st listingID) as [e0|listing]; [reflexivity|].
    destruct (negb _); [reflexivity|]. destruct (negb _); [reflexivity|].
    unfold WithTransaction.
    match goal with |- context [match ?m st with _ => _ end] => destruct (m st) as [e0|[a s1]] end;
      [reflexivity|discriminate].
Qed.

End CancelProperties.

(** ** Listings: how the operations compose *)

Section MarketComposition.
Context `{Codec}.

Lemma held_same_inventory st st' p i :
  inventory st' = inventory st -> held st' p i = held st p i.
Proof. unfold held. now intros ->. Qed.

(** Under the unique index, the entry [RemoveItem] reduced is the entry of
    (player, item). *)
Lemma unique_entry_first playerID itemID qty (f : InventoryEntry.t -> InventoryEntry.t)
    inv e :
  (List.length (filter (inventoryRepo.byPlayerItem playerID itemID) inv) <= 1)%nat ->
  findOne (inventoryRepoExt.holding playerID itemID qty) inv = Some e ->
  inventoryRepo.byPlayerItem playerID itemID (f e) = true ->
  findOne (inventoryRepo.byPlayerItem playerID itemID)
    (updateFirst (inventoryRepoExt.holding playerID itemID qty) f inv) = Some (f e).
Proof.
  unfold findOne, inventoryRepoExt.holding.
  induction inv as [|x xs IH]; cbn; [discriminate|].
  destruct (inventoryRepo.byPlayerItem playerID itemID x) eqn:Hx; cbn.
  - intros Hlen. destruct (qty <=? InventoryEntry.Qty x) eqn:Hq.
    + intros [= ->] Hfe. cbn. now rewrite Hfe.
    + intros Hf _. exfalso. apply find_some in Hf as [Hin He].
      apply andb_true_iff in He as [He _].
      assert (Hin' : In e (filter (inventoryRepo.byPlayerItem playerID itemID) xs))
        by (apply filter_In; auto).
      destruct (filter _ xs); [contradiction|]. cbn in Hlen. lia.
  - intros Hlen Hf Hfe. cbn. rewrite Hx. now apply IH.
Qed.

(** X9. Listing and cancelling is a round trip for the goods. After a
    successful [CreateListing], when the seller has one entry for the item
    (the unique index) and the stored quantities are int64, a [Cancel] by the
    seller succeeds, returns the listing with status cancelled, and leaves
    every holding of every player as it was before the listing; wallets are
    untouched. *)
Theorem CreateListing_then_Cancel cat now uuid st sellerID req listing st1 now' :
  int64 (CreateListingRequest.Qty req) ->
  (entriesOf st sellerID (CreateListingRequest.ItemID req) <= 1)%nat ->
  (forall e, In e (inventory st) -> int64 (InventoryEntry.Qty e)) ->
  auctionExt.CreateListing cat now uuid st sellerID req = (inr listing, st1) ->
  exists st2,
    auctionExt.Cancel now' st1 sellerID uuid = (inr (auctionExt.cancelled listing), st2)
    /\ (forall p i, held st2 p i = held st p i)
    /\ players st2 = players st.
Proof.
  intros Hq Huniq Hint Hcreate.
  pose proof (CreateListing_effect _ _ _ _ _ _ _ _ Hq Hcreate)
    as (Hl & Hget & Hheld1 & _ & Hplayers1 & _).
  apply CreateListing_inr in Hcreate as (Hv & _ & s1 & Hrem & Hex & Hst1).
  assert (Hpos : 0 < CreateListingRequest.Qty req).
  { unfold auctionExt.validateCreateListingRequest in Hv.
    repeat (apply andb_true_iff in Hv as [Hv ?]).
    match goal with Hq' : (1 <=? CreateListingRequest.Qty req) = true |- _ =>
      apply Z.leb_le in Hq'; lia end. }
  (* the entry the listing reduced *)
  unfold inventoryRepoExt.RemoveItem in Hrem.
  destruct (CreateListingRequest.Qty req <=? 0) eqn:Hle; [discriminate|].
  destruct (findOne _ (inventory st)) as [e|] eqn:Hf; [|discriminate].
  destruct (in_int64 _); [|discriminate]. injection Hrem as <-.
  rewrite (wrap64_opp _ Hpos Hq) in *.
  pose proof (findOne_holds _ _ _ Hf) as He. unfold inventoryRepoExt.holding in He.
  apply andb_true_iff in He as [Hpi _].
  assert (Hfirst : findOne (inventoryRepo.byPlayerItem sellerID
                              (CreateListingRequest.ItemID req)) (inventory st1)
                   = Some (inventoryRepo.withQty
                             (InventoryEntry.Qty e + - CreateListingRequest.Qty req) now e)).
  { rewrite Hst1. cbn [inventory set_auction_listings set_inventory].
    apply unique_entry_first; auto. }
  assert (Hcancel : exists st2,
             auctionExt.Cancel now' st1 sellerID uuid
             = (inr (auctionExt.cancelled listing), st2)).
  { unfold auctionExt.Cancel. rewrite Hget, Hl.
    cbn [auctionExt.newListing Listing.SellerID Listing.Status Listing.Qty Listing.ItemID].
    rewrite String.eqb_refl. cbn [negb ListingStatus_eqb].
    apply Z.gtb_lt in Hpos. rewrite Hpos.
    unfold WithTransaction, bind, wrapErr, inventoryRepo.AddItem. rewrite Hle, Hfirst.
    cbn [InventoryEntry.Qty inventoryRepo.withQty].
    replace (InventoryEntry.Qty e + - CreateListingRequest.Qty req
             + CreateListingRequest.Qty req) with (InventoryEntry.Qty e) by lia.
    assert (Hin : in_int64 (InventoryEntry.Qty e) = true).
    { apply in_int64_spec, Hint. apply (find_some _ _ Hf). }
    rewrite Hin. unfold auctionRepo.ReplaceListing.
    cbn [auction_listings set_inventory Listing.ID auctionExt.cancelled auctionExt.newListing].
    unfold auctionRepo.GetByID in Hget.
    destruct (findOne (auctionRepo.byListingID uuid) (auction_listings st1)) as [l|];
      [|discriminate].
    eexists. reflexivity. }
  destruct Hcancel as [st2 Hcancel]. exists st2. split; [exact Hcancel|].
  pose proof (Cancel_effect _ _ _ _ _ _ Hcancel)
    as (l0 & Hget0 & _ & _ & _ & _ & Hheld2 & Hplayers2 & _).
  rewrite Hget in Hget0. injection Hget0 as <-. split.
  - intros p i. rewrite Hheld2, Hheld1, Hl.
    cbn [auctionExt.newListing Listing.Qty Listing.ItemID].
    destruct ((p =?s sellerID) && (i =?s CreateListingRequest.ItemID req)); lia.
  - congruence.
Qed.

(** What the transaction of [Buy] does to the inventory. *)
Lemma buy_settle_inventory now uuid buyerID req listing st out st' :
  auction.settle now uuid buyerID req listing st = inr (out, st') ->
  forall p i,
    held st' p i
    = held st p i
      + (if (p =?s buyerID) && (i =?s Listing.ItemID listing)
         then BuyListingRequest.Qty req else 0).
Proof.
  unfold auction.settle. intros Hs p i.
  apply bind_inr in Hs as (buyer & s0 & Hbuyer & Hs). apply wrapErr_inr in Hbuyer.
  unfold readTx in Hbuyer.
  destruct (playerRepo.GetByID st buyerID) as [e|b]; [discriminate|].
  injection Hbuyer as <- <-.
  destruct (Player.Gold b <? _); [discriminate|].
  apply bind_inr in Hs as (u1 & s1 & Hdebit & Hs). apply wrapErr_inr in Hdebit.
  apply bind_inr in Hs as (u2 & s2 & Hcredit & Hs). apply wrapErr_inr in Hcredit.
  apply bind_inr in Hs as (u3 & s3 & Hitem & Hs). apply wrapErr_inr in Hitem.
  apply bind_inr in Hs as (out0 & s4 & Hreplace & Hs). apply wrapErr_inr in Hreplace.
  apply bind_inr in Hs as (u5 & s5 & Htrade & Hs). apply wrapErr_inr in Htrade.
  injection Hs as <- <-.
  assert (H1 : inventory s1 = inventory st).
  { unfold playerRepo.SetGold in Hdebit.
    destruct (findOne _ _); [|discriminate]. now injection Hdebit as _ <-. }
  assert (H2 : inventory s2 = inventory s1).
  { unfold playerRepo.IncrementGold in Hcredit.
    destruct (findOne _ _); [|discriminate]. destruct (in_int64 _); [|discriminate].
    now injection Hcredit as _ <-. }
  assert (H4 : inventory s4 = inventory s3).
  { unfold auctionRepo.ReplaceListing in Hreplace.
    destruct (findOne _ _); [|discriminate]. now injection Hreplace as _ <-. }
  assert (H5 : inventory s5 = inventory s4).
  { unfold auctionRepo.InsertTrade in Htrade.
    destruct (existsb _ _); [discriminate|]. now injection Htrade as _ <-. }
  apply AddItem_effect in Hitem as (_ & Hheld & _).
  rewrite (held_same_inventory s4 s5), (held_same_inventory s3 s4), Hheld by congruence.
  rewrite (held_same_inventory st s2) by congruence. reflexivity.
Qed.

(** X10. A successful [Buy] delivers the goods: the buyer's holding of the
    listed item grows by exactly the purchased quantity, and no other
    holding moves, the seller's included, whose goods left at listing
    time. *)
Theorem Buy_delivers_items nowCheck now uuid st buyerID listingID req listing out st' :
  auctionRepo.GetByID st listingID = inr listing ->
  auction.Buy nowCheck now uuid st buyerID listingID req = (inr out, st') ->
  forall p i,
    held st' p i
    = held st p i
      + (if (p =?s buyerID) && (i =?s Listing.ItemID listing)
         then BuyListingRequest.Qty req else 0).
Proof.
  intros Hget Hbuy.
  apply Buy_inr in Hbuy as (l & Hl & _ & _ & _ & _ & Hs).
  rewrite Hget in Hl. injection Hl as <-.
  intros p i. exact (buy_settle_inventory _ _ _ _ _ _ _ _ Hs p i).
Qed.

End MarketComposition.

(** ** Listings that are no longer active *)

Section ClosedListings.
Context `{Codec}.

(** A listing whose status is not active admits no buy and no cancel, and
    both refusals leave the store as it is. *)
Lemma inactive_listing_rejects st listingID listing :
  auctionRepo.GetByID st listingID = inr listing ->
  Listing.Status listing <> ListingStatusActive ->
  (forall nowCheck now uuid buyerID req,
      auction.validateBuyListingRequest req = true ->
      auction.Buy nowCheck now uuid st buyerID listingID req
      = (inl (Errorf "listing is not active" (Sentinel ErrConflict)), st))
  /\ (forall now,
         auctionExt.Cancel now st (Listing.SellerID listing) listingID
         = (inl (Errorf "listing cannot be cancelled in current state"
                   (Sentinel ErrConflict)), st))
  /\ (forall now sellerID,
         sellerID <> Listing.SellerID listing ->
         auctionExt.Cancel now st sellerID listingID
         = (inl (Errorf "cannot cancel foreign listing" (Sentinel ErrForbidden)), st)).
Proof.
  intros Hget Hst.
  assert (Hna : ListingStatus_eqb (Listing.Status listing) ListingStatusActive = false)
    by (destruct (Listing.Status listing); try reflexivity; congruence).
  split; [|split].
  - intros nowCheck now uuid buyerID req Hv.
    unfold auction.Buy. now rewrite Hv, Hget, Hna.
  - intros now. unfold auctionExt.Cancel. now rewrite Hget, String.eqb_refl, Hna.
  - intros now sellerID Hne. unfold auctionExt.Cancel. rewrite Hget.
    destruct (String.eqb_spec (Listing.SellerID listing) sellerID); [congruence|].
    reflexivity.
Qed.

(** The listing [Buy] returns is the listing stored under the id. *)
Lemma Buy_stored nowCheck now uuid st buyerID listingID req out st' :
  auction.Buy nowCheck now uuid st buyerID listingID req = (inr out, st') ->
  exists listing,
    auctionRepo.GetByID st listingID = inr listing
    /\ out = auction.fill listing buyerID (BuyListingRequest.Qty req)
    /\ auctionRepo.GetByID st' listingID = inr out.
Proof.
  intros Hbuy.
  apply Buy_inr in Hbuy as (listing & Hget & Hid & _ & _ & _ & Hs).
  exists listing. split; [exact Hget|].
  apply buy_settle_inr in Hs as (b & s & _ & _ & _ & _ & _ & Hout & Hls & (old & Hold) & _).
  split; [exact Hout|].
  unfold auctionRepo.GetByID. rewrite Hls, Hid in *.
  erewrite findOne_updateFirst_hit; [now rewrite Hout|exact Hold|].
  unfold auctionRepo.byListingID.
  destruct (fill_keeps listing buyerID (BuyListingRequest.Qty req)) as (-> & _).
  rewrite Hid. apply String.eqb_refl.
Qed.

(** X11. A cancelled listing is final. After a successful [Cancel] every
    well-formed [Buy] of the listing, by anyone and for any quantity, is
    refused as a conflict, a second [Cancel] by the seller is refused as a
    conflict, a [Cancel] by anyone else as forbidden, and none of these
    calls changes the store: the goods are returned once. *)
Theorem cancelled_listing_is_final now st sellerID listingID out st' :
  auctionExt.Cancel now st sellerID listingID = (inr out, st') ->
  (forall nowCheck now' uuid buyerID req,
      auction.validateBuyListingRequest req = true ->
      auction.Buy nowCheck now' uuid st' buyerID listingID req
      = (inl (Errorf "listing is not active" (Sentinel ErrConflict)), st'))
  /\ (forall now',
         auctionExt.Cancel now' st' sellerID listingID
         = (inl (Errorf "listing cannot be cancelled in current state"
                   (Sentinel ErrConflict)), st'))
  /\ (forall now' other,
         other <> sellerID ->
         auctionExt.Cancel now' st' other listingID
         = (inl (Errorf "cannot cancel foreign listing" (Sentinel ErrForbidden)), st')).
Proof.
  intros Hcancel.
  apply Cancel_effect in Hcancel as (listing & _ & Hown & _ & Hout & Hget' & _).
  assert (Hs : Listing.SellerID out = sellerID) by (now rewrite Hout).
  assert (Hst : Listing.Status out <> ListingStatusActive) by (now rewrite Hout).
  pose proof (inactive_listing_rejects _ _ _ Hget' Hst) as Hrej.
  now rewrite Hs in Hrej.
Qed.

(** X12. A listing bought in full is final. When a successful [Buy] takes
    the whole remaining quantity, the stored listing is sold to the buyer
    with quantity 0; every later well-formed [Buy] is refused as a conflict
    and a [Cancel] by the seller as a conflict, the store unchanged: the
    seller cannot take back goods that were paid for. A smaller purchase
    leaves the listing active with the remainder. *)
Theorem Buy_whole_listing_is_final nowCheck now uuid st buyerID listingID req listing
    out st' :
  auctionRepo.GetByID st listingID = inr listing ->
  int64 (Listing.Qty listing) ->
  auction.Buy nowCheck now uuid st buyerID listingID req = (inr out, st') ->
  (BuyListingRequest.Qty req = Listing.Qty listing ->
     Listing.Status out = ListingStatusSold
     /\ Listing.BuyerID out = buyerID
     /\ Listing.Qty out = 0
     /\ (forall nowCheck' now' uuid' buyerID' req',
            auction.validateBuyListingRequest req' = true ->
            auction.Buy nowCheck' now' uuid' st' buyerID' listingID req'
            = (inl (Errorf "listing is not active" (Sentinel ErrConflict)), st'))
     /\ (forall now',
            auctionExt.Cancel now' st' (Listing.SellerID listing) listingID
            = (inl (Errorf "listing cannot be cancelled in current state"
                      (Sentinel ErrConflict)), st')))
  /\ (BuyListingRequest.Qty req <> Listing.Qty listing ->
        Listing.Status out = ListingStatusActive
        /\ Listing.Qty out = Listing.Qty listing - BuyListingRequest.Qty req
        /\ 0 < Listing.Qty out).
Proof.
  intros Hget Hint Hbuy.
  pose proof (Buy_inr _ _ _ _ _ _ _ _ _ Hbuy) as (l0 & Hget0 & _ & Hq & Hact & _).
  rewrite Hget in Hget0. injection Hget0 as <-.
  apply Buy_stored in Hbuy as (l1 & Hget1 & Hout & Hget').
  rewrite Hget in Hget1. injection Hget1 as <-.
  split.
  - intros Hall.
    assert (Hfill : out = auction.fill listing buyerID (Listing.Qty listing))
      by (now rewrite <- Hall).
    unfold auction.fill in Hfill. rewrite Z.eqb_refl in Hfill.
    assert (Hst : Listing.Status out <> ListingStatusActive) by (now rewrite Hfill).
    pose proof (inactive_listing_rejects _ _ _ Hget' Hst) as (Hb & Hc & _).
    assert (Hs : Listing.SellerID out = Listing.SellerID listing) by (now rewrite Hfill).
    rewrite Hs in Hc.
    rewrite Hfill at 1 2 3. cbn. auto.
  - intros Hpart. rewrite Hout. unfold auction.fill.
    destruct (Z.eqb_spec (BuyListingRequest.Qty req) (Listing.Qty listing)); [congruence|].
    cbn. rewrite wrap64_id.
    + repeat split; [exact Hact|lia].
    + unfold int64, min_int64, max_int64 in *. lia.
Qed.

End ClosedListings.

(** ** Starting a run *)

Section StartProperties.
Context `{Codec}.

Lemma Start_inr cat now uuid st playerID req run st' :
  runExt.Start cat now uuid st playerID req = (inr run, st') ->
  runExt.validateStartRunRequest req = true
  /\ (exists d, dungeonRepoExt.GetDungeonByID cat (StartRunRequest.DungeonID req) = inr d
                /\ Dungeon.Status d = DungeonStatusPublished)
  /\ (exists p, playerRepo.GetByID st playerID = inr p)
  /\ activeRuns st playerID (StartRunRequest.DungeonID req) = 0%nat
  /\ run = runExt.newRun now uuid playerID req
  /\ existsb (runRepo.byRunID uuid) (runs st) = false
  /\ st' = set_runs (runs st ++ [run]) st.
Proof.
  unfold runExt.Start, runRepoExt.HasActiveRun, runRepoExt.CreateRun, activeRuns.
  destruct (runExt.validateStartRunRequest req); [|discriminate]. cbn [negb].
  destruct (dungeonRepoExt.GetDungeonByID cat _) as [e|d]; [discriminate|].
  destruct (Dungeon.Status d) eqn:Hd; try discriminate.
  destruct (playerRepo.GetByID st playerID) as [e|p]; [discriminate|].
  destruct (0 <? _) eqn:Hc; [discriminate|].
  destruct (existsb _ (runs st)) eqn:Hex; [discriminate|].
  intros [= <- <-]. apply Z.ltb_ge in Hc.
  repeat split; eauto; [lia|].
  destruct (existsb (runRepo.byRunID uuid) (runs st)) eqn:Hid; [|reflexivity].
  apply existsb_exists in Hid as (r & Hin & Hr).
  assert (Ht : existsb
                 (fun r =>
                    runRepo.byRunID (Run.ID (runExt.newRun now uuid playerID req)) r
                    || RunState_eqb (Run.State (runExt.newRun now uuid playerID req))
                         RunStateActive
                       && runRepoExt.activeOf
                            (Run.PlayerID (runExt.newRun now uuid playerID req))
                            (Run.DungeonID (runExt.newRun now uuid playerID req)) r)
                 (runs st) = true).
  { apply existsb_exists. exists r. split; [exact Hin|]. cbn. now rewrite Hr. }
  congruence.
Qed.

Lemma findOne_app_fresh {A} (f : A -> bool) (l : list A) (d : A) :
  existsb f l = false -> f d = true -> findOne f (l ++ [d]) = Some d.
Proof.
  unfold findOne. induction l as [|x xs IH]; cbn; intros Hex Hd; [now rewrite Hd|].
  apply orb_false_iff in Hex as [-> Hxs]. auto.
Qed.

Lemma findOne_app_other {A} (f : A -> bool) (l : list A) (d : A) :
  f d = false -> findOne f (l ++ [d]) = findOne f l.
Proof.
  unfold findOne. induction l as [|x xs IH]; cbn; intros Hd; [now rewrite Hd|].
  destruct (f x); auto.
Qed.

Lemma Start_effect cat now uuid st playerID req run st' :
  runExt.Start cat now uuid st playerID req = (inr run, st') ->
  run = runExt.newRun now uuid playerID req
  /\ runRepo.GetRunByID st' uuid = inr run
  /\ (forall id, id <> uuid -> runRepo.GetRunByID st' id = runRepo.GetRunByID st id)
  /\ (forall p d,
         activeRuns st' p d
         = (activeRuns st p d
            + (if (playerID =?s p) && (StartRunRequest.DungeonID req =?s d)
               then 1 else 0))%nat)
  /\ activeRuns st playerID (StartRunRequest.DungeonID req) = 0%nat
  /\ players st' = players st /\ inventory st' = inventory st
  /\ attempts st' = attempts st /\ boss_steps st' = boss_steps st
  /\ auction_listings st' = auction_listings st
  /\ auction_trades st' = auction_trades st.
Proof.
  intros Hstart.
  apply Start_inr in Hstart as (_ & _ & _ & Hnone & Hrun & Hfresh & ->).
  split; [exact Hrun|]. split; [|split; [|split; [|split; [exact Hnone|]]]].
  - unfold runRepo.GetRunByID. cbn [runs set_runs].
    rewrite findOne_app_fresh; auto.
    rewrite Hrun. unfold runRepo.byRunID. cbn. apply String.eqb_refl.
  - intros id Hne. unfold runRepo.GetRunByID. cbn [runs set_runs].
    rewrite findOne_app_other; auto.
    rewrite Hrun. unfold runRepo.byRunID. cbn.
    destruct (String.eqb_spec uuid id); congruence.
  - intros p d. unfold activeRuns. cbn [runs set_runs].
    rewrite filter_app, length_app. f_equal.
    rewrite Hrun. unfold runRepoExt.activeOf. cbn.
    rewrite andb_true_r. now destruct (_ && _).
  - destruct st. cbn. repeat split; reflexivity.
Qed.

(** X13. What a successful [Start] leaves: the new run is active at step 1
    with no killed step, it is stored under its id, where [Get] returns it to
    its player and refuses it to anyone else as forbidden; the player had no
    active run on the dungeon and now has exactly one; the runs stored under
    other ids and every other collection are as before. *)
Theorem Start_creates_run cat now uuid st playerID req run st' :
  runExt.Start cat now uuid st playerID req = (inr run, st') ->
  (Run.State run = RunStateActive /\ Run.CurrentStep run = 1 /\ Run.KilledSteps run = []
   /\ Run.PlayerID run = playerID /\ Run.DungeonID run = StartRunRequest.DungeonID req)
  /\ runExt.Get st' playerID (Run.ID run) = inr run
  /\ (forall other, other <> playerID ->
        runExt.Get st' other (Run.ID run)
        = inl (Errorf "run owner mismatch" (Sentinel ErrForbidden)))
  /\ (forall id, id <> Run.ID run -> runRepo.GetRunByID st' id = runRepo.GetRunByID st id)
  /\ activeRuns st playerID (StartRunRequest.DungeonID req) = 0%nat
  /\ activeRuns st' playerID (StartRunRequest.DungeonID req) = 1%nat
  /\ players st' = players st /\ inventory st' = inventory st
  /\ attempts st' = attempts st /\ boss_steps st' = boss_steps st
  /\ auction_listings st' = auction_listings st
  /\ auction_trades st' = auction_trades st.
Proof.
  intros Hstart.
  apply Start_effect in Hstart
    as (Hrun & Hget & Hothers & Hact & Hnone & Hp & Hi & Ha & Hb & Hl & Ht).
  assert (Hid : Run.ID run = uuid) by (now rewrite Hrun).
  assert (Hpl : Run.PlayerID run = playerID) by (now rewrite Hrun).
  rewrite Hid.
  split; [now rewrite Hrun|]. split; [|split; [|split; [exact Hothers|split; [exact Hnone|]]]].
  - unfold runExt.Get. now rewrite Hget, Hpl, String.eqb_refl.
  - intros other Hne. unfold runExt.Get. rewrite Hget, Hpl.
    destruct (String.eqb_spec playerID other); [congruence|reflexivity].
  - split; [|auto 10].
    now rewrite Hact, Hnone, !String.eqb_refl.
Qed.

Lemma Start_error_frame cat now uuid st playerID req e st' :
  runExt.Start cat now uuid st playerID req = (inl e, st') -> st' = st.
Proof.
  unfold runExt.Start, runRepoExt.HasActiveRun, runRepoExt.CreateRun.
  repeat (break_match; try discriminate); intros [= _ <-]; reflexivity.
Qed.

(** X14. The refusals of [Start], in the order the code checks them, for a
    well-formed request: an unknown dungeon is not found, a dungeon that is
    not published is a validation error, an unknown player is not found, and
    a player who has an active run on the dungeon gets a conflict. A [Start]
    that fails, for whatever reason, leaves the store as it was. *)
Theorem Start_rejections cat now uuid st playerID req :
  (forall e st', runExt.Start cat now uuid st playerID req = (inl e, st') -> st' = st)
  /\ (runExt.validateStartRunRequest req = false ->
        runExt.Start cat now uuid st playerID req
        = (inl (Errorf "validate start run request" (Sentinel ErrValidation)), st))
  /\ (runExt.validateStartRunRequest req = true ->
      (findOne (fun d => Dungeon.ID d =?s StartRunRequest.DungeonID req) (dungeons cat)
       = None ->
         runExt.Start cat now uuid st playerID req
         = (inl (Errorf "get dungeon for run"
                   (Errorf "dungeon id" (Sentinel ErrNotFound))), st))
      /\ (forall d,
            dungeonRepoExt.GetDungeonByID cat (StartRunRequest.DungeonID req) = inr d ->
            (Dungeon.Status d <> DungeonStatusPublished ->
               runExt.Start cat now uuid st playerID req
               = (inl (Errorf "dungeon not published" (Sentinel ErrValidation)), st))
            /\ (Dungeon.Status d = DungeonStatusPublished ->
                (findOne (playerRepo.byCustomID playerID) (players st) = None ->
                   runExt.Start cat now uuid st playerID req
                   = (inl (Errorf "get player for run"
                             (Errorf "player id" (Sentinel ErrNotFound))), st))
                /\ (forall p,
                      playerRepo.GetByID st playerID = inr p ->
                      (0 < activeRuns st playerID (StartRunRequest.DungeonID req))%nat ->
                      runExt.Start cat now uuid st playerID req
                      = (inl (Errorf "an active run already exists for this dungeon"
                                (Sentinel ErrConflict)), st))))).
Proof.
  split; [|split].
  - intros e st'. apply Start_error_frame.
  - intros Hv. unfold runExt.Start. now rewrite Hv.
  - intros Hv. split.
    + intros Hnone. unfold runExt.Start, dungeonRepoExt.GetDungeonByID.
      now rewrite Hv, Hnone.
    + intros d Hd. split; [|intros Hpub; split].
      * intros Hst. unfold runExt.Start. rewrite Hv, Hd. cbn [negb].
        destruct (Dungeon.Status d); try reflexivity; congruence.
      * intros Hnone. unfold runExt.Start, playerRepo.GetByID.
        now rewrite Hv, Hd, Hpub, Hnone.
      * intros p Hp Hact. unfold runExt.Start, runRepoExt.HasActiveRun.
        rewrite Hv, Hd, Hpub, Hp. cbn [negb]. unfold activeRuns in Hact.
        destruct (0 <? _) eqn:Hc; [reflexivity|]. apply Z.ltb_ge in Hc. lia.
Qed.

(** X15. One active run for each player and dungeon. After a successful
    [Start], a second [Start] by the same player for the same dungeon, at
    any time and with any new id, is refused as a conflict and changes
    nothing; and a store in which no player has two active runs on a dungeon
    is still such a store after any [Start]. *)
Theorem Start_keeps_one_active_run cat now uuid st playerID req out st' :
  runExt.Start cat now uuid st playerID req = (out, st') ->
  ((forall p d, (activeRuns st p d <= 1)%nat) ->
     forall p d, (activeRuns st' p d <= 1)%nat)
  /\ (forall run now' uuid' req',
        out = inr run ->
        StartRunRequest.DungeonID req' = StartRunRequest.DungeonID req ->
        runExt.Start cat now' uuid' st' playerID req'
        = (inl (Errorf "an active run already exists for this dungeon"
                  (Sentinel ErrConflict)), st')).
Proof.
  intros Hstart. destruct out as [e|run].
  - apply Start_error_frame in Hstart as ->. split; [auto|discriminate].
  - pose proof (Start_inr _ _ _ _ _ _ _ _ Hstart)
      as (Hv & (d & Hd & Hpub) & (pl & Hpl) & _).
    apply Start_effect in Hstart
      as (_ & _ & _ & Hact & Hnone & Hplayers & _).
    split.
    + intros Hinv p d0. rewrite Hact.
      destruct (String.eqb_spec playerID p) as [<-|]; cbn [andb];
        [|specialize (Hinv p d0); lia].
      destruct (String.eqb_spec (StartRunRequest.DungeonID req) d0) as [<-|];
        [|specialize (Hinv playerID d0); lia].
      lia.
    + intros run0 now' uuid' req' _ Hsame.
      unfold runExt.Start, runRepoExt.HasActiveRun, runExt.validateStartRunRequest.
      unfold runExt.validateStartRunRequest in Hv.
      rewrite Hsame, Hv, Hd, Hpub. cbn [negb].
      unfold playerRepo.GetByID in *. rewrite Hplayers.
      destruct (findOne _ (players st)); [|discriminate].
      specialize (Hact playerID (StartRunRequest.DungeonID req)).
      rewrite !String.eqb_refl, Hnone in Hact. unfold activeRuns in Hact.
      rewrite Hact. reflexivity.
Qed.

End StartProperties.

(** ** What an attempt writes *)

Section AttemptEffects.
Context `{Codec} `{geo.MathLib}.

Lemma applyRewardItems_held playerID now items st u st' :
  run.applyRewardItems playerID now items st = inr (u, st') ->
  (forall p i,
      held st' p i = held st p i + (if p =?s playerID then rewardQty items i else 0))
  /\ auction_listings st' = auction_listings st
  /\ auction_trades st' = auction_trades st.
Proof.
  revert st. induction items as [|item rest IH]; simpl; intros st Hrun.
  - injection Hrun as _ <-. split; [|auto]. intros p i. unfold rewardQty. cbn.
    destruct (p =?s playerID); lia.
  - apply bind_inr in Hrun as (a & st1 & Hadd & Hrest). apply wrapErr_inr in Hadd.
    apply IH in Hrest as (Hheld & Hl & Ht).
    pose proof (AddItem_effect _ _ _ _ _ _ _ Hadd) as (_ & Hh1 & Hfr & _).
    split.
    + intros p i. rewrite Hheld, Hh1. unfold rewardQty. cbn [filter].
      rewrite (String.eqb_sym (RewardItem.ItemID item) i).
      destruct (p =?s playerID); cbn [andb]; [|lia].
      destruct (i =?s RewardItem.ItemID item); cbn; lia.
    + rewrite Hl, Ht, Hfr. split; reflexivity.
Qed.

Lemma existsb_or_false {A} (f g : A -> bool) (l : list A) :
  existsb (fun a => f a || g a) l = false ->
  existsb f l = false /\ existsb g l = false.
Proof.
  induction l as [|x xs IH]; cbn; [auto|]. intros Hex.
  apply orb_false_iff in Hex as [Hx Hxs]. apply orb_false_iff in Hx as [-> ->].
  now apply IH in Hxs as [-> ->].
Qed.

Lemma updateFirst_app_fresh {A} (g : A -> bool) (f : A -> A) (l : list A) (d : A) :
  existsb g l = false -> g d = true -> updateFirst g f (l ++ [d]) = (l ++ [f d])%list.
Proof.
  induction l as [|x xs IH]; cbn; intros Hex Hd; [now rewrite Hd|].
  apply orb_false_iff in Hex as [-> Hxs]. now rewrite IH.
Qed.

Lemma settle_effect now playerID runID stepID run step distance steps record st0 resp st1 :
  run.settle now playerID runID stepID run step distance steps record st0
  = inr (resp, st1) ->
  exists p,
    findOne (playerRepo.byCustomID playerID) (players st0) = Some p
    /\ int64 (Player.Gold p + Rewards.Gold (BossStep.Rewards step))
    /\ AttemptResponse.Player resp
       = playerRepo.withGold (Player.Gold p + Rewards.Gold (BossStep.Rewards step)) now p
    /\ AttemptResponse.Rewards resp = BossStep.Rewards step
    /\ players st1
       = updateFirst (playerRepo.byCustomID playerID)
           (fun _ => AttemptResponse.Player resp) (players st0)
    /\ existsb (fun a => runRepo.byAttemptID (AttemptRecord.ID record) a
                         || runRepo.byRunStep (AttemptRecord.RunID record)
                              (AttemptRecord.StepID record) a) (attempts st0) = false
    /\ attempts st1
       = (attempts st0 ++ [runRepo.withResponse resp true record])%list
    /\ (forall pl i,
           held st1 pl i
           = held st0 pl i
             + (if pl =?s playerID
                then rewardQty (Rewards.Items (BossStep.Rewards step)) i else 0))
    /\ auction_listings st1 = auction_listings st0
    /\ auction_trades st1 = auction_trades st0.
Proof.
  unfold run.settle. intros Hs.
  apply bind_inr in Hs as (u1 & s1 & Hcreate & Hs). apply wrapErr_inr in Hcreate.
  apply bind_inr in Hs as (updatedPlayer & s2 & Hgold & Hs). apply wrapErr_inr in Hgold.
  apply bind_inr in Hs as (u3 & s3 & Hitems & Hs).
  apply bind_inr in Hs as (updatedRun & s4 & Hreplace & Hs). apply wrapErr_inr in Hreplace.
  apply bind_inr in Hs as (u5 & s5 & Hupdate & Hs). apply wrapErr_inr in Hupdate.
  injection Hs as <- <-.
  pose proof (applyRewardItems_frame _ _ _ _ _ _ Hitems) as (_ & Ha3 & Hp3 & _).
  apply applyRewardItems_held in Hitems as (Hh3 & Hl3 & Ht3).
  unfold runRepo.CreateAttemptRecord in Hcreate.
  destruct (existsb _ (attempts st0)) eqn:Hex; [discriminate|]. injection Hcreate as _ <-.
  unfold playerRepo.IncrementGold in Hgold. cbn [players set_attempts] in Hgold.
  destruct (findOne _ (players st0)) as [p|] eqn:Hp; [|discriminate].
  destruct (in_int64 _) eqn:Hin; [|discriminate]. injection Hgold as <- <-.
  unfold runRepo.ReplaceRun in Hreplace.
  destruct (findOne _ (runs s3)) as [old|]; [|discriminate].
  injection Hreplace as <- <-.
  unfold runRepo.UpdateAttemptRecord in Hupdate.
  destruct (existsb (runRepo.byAttemptID _) _); [|discriminate].
  injection Hupdate as _ <-.
  exists p. cbn [AttemptResponse.Player AttemptResponse.Rewards players attempts
                 set_attempts set_runs set_players auction_listings auction_trades].
  split; [reflexivity|]. split; [now apply in_int64_spec|].
  split; [reflexivity|]. split; [reflexivity|].
  split; [now rewrite Hp3|]. split; [reflexivity|]. split; [|split; [|split]].
  - rewrite Ha3. cbn [attempts set_players set_attempts].
    apply updateFirst_app_fresh.
    + exact (proj1 (existsb_or_false _ _ _ Hex)).
    + unfold runRepo.byAttemptID. apply String.eqb_refl.
  - intros pl i.
    match goal with |- held ?s _ _ = _ =>
      rewrite (held_same_inventory s3 s) by reflexivity end.
    rewrite Hh3. f_equal.
  - now rewrite Hl3.
  - now rewrite Ht3.
Qed.

(** X16. [Attempt] writes only when it settles. Whenever the call returns an
    error or a replayed response, the store it leaves is the one it found,
    or the one other requests made of it in between: no record, no gold, no
    item and no progress of its own stays behind, the transaction being
    rolled back as a whole. *)
Theorem Attempt_writes_only_on_settlement concurrent now uuid st playerID runID stepID req
    out st' :
  run.Attempt concurrent now uuid st playerID runID stepID req = (out, st') ->
  (forall resp, out = inr resp -> AttemptResponse.Idempotency resp = true) ->
  st' = st \/ st' = concurrent st.
Proof.
  unfold run.Attempt. intros Hrun Hreplay.
  destruct (run.attemptAdmission st playerID runID stepID req) as [e|[[run step] d]];
    [injection Hrun as _ <-; now left|].
  destruct (run.attemptReplay st runID stepID req) as [answer|];
    [injection Hrun as _ <-; now left|].
  right. unfold run.attemptFresh, dungeonRepo.ListStepsByDungeon, WithTransaction in Hrun.
  destruct (run.settle _ _ _ _ _ _ _ _ _ (concurrent st)) as [e|[resp s1]] eqn:Hs.
  - repeat break_match; injection Hrun as _ <-; reflexivity.
  - injection Hrun as <- <-. apply settle_inr in Hs as (Hfresh & _).
    specialize (Hreplay resp eq_refl). congruence.
Qed.

(** X17. A settled attempt pays the reward of the step, once. On a fresh
    success the player's stored gold is the gold found plus the gold of the
    step's rewards, and it is the balance the response shows; no other
    player's document changes; the player's holding of each item grows by
    the quantity the rewards give of it and no other holding moves; the
    market is untouched. The store found is the one left by the requests
    that ran in between. *)
Theorem Attempt_pays_reward concurrent now uuid st playerID runID stepID req resp st' :
  run.Attempt concurrent now uuid st playerID runID stepID req = (inr resp, st') ->
  AttemptResponse.Idempotency resp = false ->
  exists run step p,
    runRepo.GetRunByID st runID = inr run
    /\ dungeonRepo.GetStep st (Run.DungeonID run) stepID = inr step
    /\ playerRepo.GetByID (concurrent st) playerID = inr p
    /\ AttemptResponse.Rewards resp = BossStep.Rewards step
    /\ Player.Gold (AttemptResponse.Player resp)
       = Player.Gold p + Rewards.Gold (BossStep.Rewards step)
    /\ playerRepo.GetByID st' playerID = inr (AttemptResponse.Player resp)
    /\ (forall id, id <> playerID ->
          playerRepo.GetByID st' id = playerRepo.GetByID (concurrent st) id)
    /\ (forall pl i,
           held st' pl i
           = held (concurrent st) pl i
             + (if pl =?s playerID
                then rewardQty (Rewards.Items (BossStep.Rewards step)) i else 0))
    /\ auction_listings st' = auction_listings (concurrent st)
    /\ auction_trades st' = auction_trades (concurrent st).
Proof.
  intros Hrun Hfresh.
  apply Attempt_fresh_inv in Hrun as (run & step & d & Hadm & _ & Hs); [|exact Hfresh].
  apply attemptAdmission_inr in Hadm as (_ & Hget & _ & _ & _ & Hstep & _).
  apply settle_effect in Hs
    as (p & Hp & _ & Hplayer & Hrew & Hplayers & _ & _ & Hheld & Hl & Ht).
  exists run, step, p.
  pose proof (findOne_holds _ _ _ Hp) as Hid. unfold playerRepo.byCustomID in Hid.
  apply String.eqb_eq in Hid.
  split; [exact Hget|]. split; [exact Hstep|].
  split; [unfold playerRepo.GetByID; now rewrite Hp|].
  split; [exact Hrew|]. split; [now rewrite Hplayer|].
  split; [|split; [|auto]].
  - unfold playerRepo.GetByID. rewrite Hplayers.
    erewrite findOne_updateFirst_hit; [reflexivity|exact Hp|].
    unfold playerRepo.byCustomID. rewrite Hplayer. cbn. rewrite Hid.
    apply String.eqb_refl.
  - intros id Hne. unfold playerRepo.GetByID. rewrite Hplayers.
    rewrite findOne_updateFirst_miss; [reflexivity|].
    intros x Hx. unfold playerRepo.byCustomID in *. apply String.eqb_eq in Hx.
    rewrite Hplayer. cbn. rewrite Hx, Hid.
    destruct (String.eqb_spec playerID id); [congruence|auto].
Qed.

Lemma filter_app_one {A} (f : A -> bool) (l : list A) (d : A) :
  List.length (filter f (l ++ [d])) = (List.length (filter f l) + if f d then 1 else 0)%nat.
Proof. rewrite filter_app, length_app. cbn. now destruct (f d). Qed.

Lemma filter_none {A} (f : A -> bool) (l : list A) :
  existsb f l = false -> filter f l = [].
Proof.
  induction l as [|x xs IH]; cbn; [auto|]. intros Hex.
  apply orb_false_iff in Hex as [-> Hxs]. auto.
Qed.

(** X18. A settled attempt leaves one record. On a fresh success there was
    no attempt record of the (run, step) and there is exactly one afterwards:
    it carries the request's idempotency key, is marked as applied and holds
    the response; the number of records of every other (run, step) is as it
    was, so the unique index on (run, step) is kept. *)
Theorem Attempt_records_attempt concurrent now uuid st playerID runID stepID req resp st' :
  run.Attempt concurrent now uuid st playerID runID stepID req = (inr resp, st') ->
  AttemptResponse.Idempotency resp = false ->
  recordsOf (concurrent st) runID stepID = 0%nat
  /\ (forall r s,
         recordsOf st' r s
         = (recordsOf (concurrent st) r s
            + (if (runID =?s r) && (stepID =?s s) then 1 else 0))%nat)
  /\ exists record,
       runRepo.GetAttemptRecord st' runID stepID = inr record
       /\ AttemptRecord.ID record = uuid
       /\ AttemptRecord.PlayerID record = playerID
       /\ AttemptRecord.IdempotencyKey record = AttemptRequest.IdempotencyKey req
       /\ AttemptRecord.RewardApplied record = true
       /\ AttemptRecord.Response record = bsonReadBack resp.
Proof.
  intros Hrun Hfresh.
  apply Attempt_fresh_inv in Hrun as (run & step & d & _ & _ & Hs); [|exact Hfresh].
  apply settle_effect in Hs as (_ & _ & _ & _ & _ & _ & Hex & Hattempts & _).
  apply existsb_or_false in Hex as [_ Hex].
  cbn [run.pendingRecord AttemptRecord.RunID AttemptRecord.StepID] in Hex.
  split; [|split].
  - unfold recordsOf. now rewrite (filter_none _ _ Hex).
  - intros r s. unfold recordsOf. rewrite Hattempts, filter_app_one.
    reflexivity.
  - eexists. split.
    + unfold runRepo.GetAttemptRecord. rewrite Hattempts.
      rewrite findOne_app_fresh; [reflexivity|exact Hex|].
      unfold runRepo.byRunStep. cbn. now rewrite !String.eqb_refl.
    + cbn. auto.
Qed.

Lemma filter_length_updateFirst {A} (f g : A -> bool) (new old : A) (l : list A) :
  findOne g l = Some old ->
  (List.length (filter f (updateFirst g (fun _ => new) l)) + (if f old then 1 else 0)
   = List.length (filter f l) + (if f new then 1 else 0))%nat.
Proof.
  unfold findOne. induction l as [|x xs IH]; cbn; [discriminate|].
  destruct (g x) eqn:Hg.
  - intros [= ->]. cbn. destruct (f old), (f new); cbn; lia.
  - intros Hf. cbn. specialize (IH Hf). destruct (f x); cbn; lia.
Qed.

(** X19. Attempts keep the count of active runs down. With no request in
    between, a call of [Attempt], whatever it returns, never adds an active
    run for any player and dungeon; a fresh success whose response shows
    the run completed takes exactly one active run away from the player on
    that dungeon, which is what lets [Start] accept the dungeon again. *)
Theorem Attempt_keeps_one_active_run now uuid st playerID runID stepID req out st' :
  run.Attempt run.sequential now uuid st playerID runID stepID req = (out, st') ->
  (forall p d, (activeRuns st' p d <= activeRuns st p d)%nat)
  /\ (forall resp,
        out = inr resp ->
        AttemptResponse.Idempotency resp = false ->
        Run.State (AttemptResponse.Run resp) = RunStateCompleted ->
        Run.PlayerID (AttemptResponse.Run resp) = playerID
        /\ (activeRuns st' playerID (Run.DungeonID (AttemptResponse.Run resp)) + 1
            = activeRuns st playerID (Run.DungeonID (AttemptResponse.Run resp)))%nat).
Proof.
  intros Hrun.
  assert (Hcases : (st' = st
                    /\ forall resp, out = inr resp ->
                                    AttemptResponse.Idempotency resp = true)
                   \/ exists resp, out = inr resp
                                   /\ AttemptResponse.Idempotency resp = false).
  { unfold run.Attempt, run.sequential in Hrun.
    destruct (run.attemptAdmission st playerID runID stepID req) as [e|[[run step] d]];
      [injection Hrun as <- <-; left; split; [reflexivity|discriminate]|].
    destruct (run.attemptReplay st runID stepID req) as [answer|] eqn:Hrep.
    { injection Hrun as <- <-. left. split; [reflexivity|].
      intros resp ->. now apply attemptReplay_inr in Hrep. }
    unfold run.attemptFresh, dungeonRepo.ListStepsByDungeon, WithTransaction in Hrun.
    destruct (run.settle _ _ _ _ _ _ _ _ _ st) as [e|[resp s1]] eqn:Hs.
    - left. repeat break_match; injection Hrun as <- <-;
        (split; [reflexivity|]); intros r [= <-]; reflexivity.
    - right. injection Hrun as <- <-. apply settle_inr in Hs as (Hfresh & _). eauto. }
  destruct Hcases as [[-> Hreplay]|(resp & -> & Hfresh)].
  - split; [auto|]. intros resp Hout Hfresh.
    specialize (Hreplay resp Hout). congruence.
  - apply Attempt_fresh_inv in Hrun as (run & step & d & Hadm & _ & Hs); [|exact Hfresh].
    apply attemptAdmission_inr in Hadm as (_ & Hget & Hid & Hpl & Hact & _).
    apply settle_inr in Hs as (_ & Hresp & Hruns & _ & _).
    unfold run.sequential in *. cbv zeta in Hresp, Hruns.
    unfold runRepo.GetRunByID in Hget. rewrite Hid in *.
    destruct (findOne (runRepo.byRunID runID) (runs st)) as [r0|] eqn:Hold; [|discriminate].
    injection Hget as ->.
    set (run' := AttemptResponse.Run resp) in *.
    assert (Hp' : Run.PlayerID run' = Run.PlayerID run) by (now rewrite Hresp).
    assert (Hd' : Run.DungeonID run' = Run.DungeonID run) by (now rewrite Hresp).
    assert (Hcount : forall p d,
               (activeRuns st' p d + (if runRepoExt.activeOf p d run then 1 else 0)
                = activeRuns st p d + (if runRepoExt.activeOf p d run' then 1 else 0))%nat).
    { intros p d0. unfold activeRuns. rewrite Hruns, <- Hresp.
      now apply filter_length_updateFirst. }
    split.
    + intros p d0. specialize (Hcount p d0). unfold runRepoExt.activeOf in Hcount.
      rewrite Hp', Hd', Hact in Hcount. cbn [RunState_eqb] in Hcount.
      rewrite andb_true_r in Hcount.
      destruct ((Run.PlayerID run =?s p) && (Run.DungeonID run =?s d0)); cbn in Hcount.
      * destruct (RunState_eqb (Run.State run') RunStateActive); lia.
      * lia.
    + intros resp0 [= <-] _ Hdone. fold run' in Hdone |- *. split; [congruence|].
      specialize (Hcount playerID (Run.DungeonID run')).
      unfold runRepoExt.activeOf in Hcount.
      rewrite Hp', Hd', Hact, Hdone, Hpl, !String.eqb_refl in Hcount. cbn in Hcount.
      rewrite Hd'. lia.
Qed.

End AttemptEffects.

(** ** Listing with pages *)

Section Paging.
Context `{Codec}.

Lemma In_firstn_list {A} (x : A) n (l : list A) : In x (firstn n l) -> In x l.
Proof.
  revert l. induction n as [|n IH]; intros [|y ys]; cbn; try tauto.
  intros [->|Hin]; auto.
Qed.

Lemma In_firstn_skipn {A} (x : A) n m (l : list A) :
  In x (firstn n (skipn m l)) -> In x l.
Proof.
  intros Hin. apply In_firstn_list in Hin. revert l Hin.
  induction m as [|m IH]; intros [|y ys]; cbn; try tauto. auto.
Qed.

Lemma insertLatest_In {A} (at_ : A -> Time) (d x : A) (l : list A) :
  In x (insertLatest at_ d l) <-> x = d \/ In x l.
Proof.
  induction l as [|y ys IH]; cbn; [intuition|].
  destruct (at_ y <? at_ d); cbn; [intuition|]. rewrite IH. intuition.
Qed.

Lemma sortLatestFirst_In {A} (at_ : A -> Time) (x : A) (l : list A) :
  In x (sortLatestFirst at_ l) <-> In x l.
Proof.
  unfold sortLatestFirst. induction l as [|y ys IH]; cbn; [tauto|].
  rewrite insertLatest_In, IH. intuition.
Qed.

Lemma insertLatest_sorted {A} (at_ : A -> Time) (d : A) (l : list A) :
  latestFirst at_ l -> latestFirst at_ (insertLatest at_ d l).
Proof.
  induction l as [|y ys IH]; cbn; [intuition|]. intros [Hy Hys].
  destruct (Z.ltb_spec (at_ y) (at_ d)) as [Hlt|Hge]; cbn.
  - split; [|auto]. intros z [<-|Hz]; [lia|]. specialize (Hy z Hz). lia.
  - split; [|auto]. intros z Hz. apply insertLatest_In in Hz as [->|Hz]; auto.
Qed.

Lemma sortLatestFirst_sorted {A} (at_ : A -> Time) (l : list A) :
  latestFirst at_ (sortLatestFirst at_ l).
Proof.
  unfold sortLatestFirst. induction l as [|y ys IH]; cbn; [exact I|].
  now apply insertLatest_sorted.
Qed.

Lemma latestFirst_skipn {A} (at_ : A -> Time) m (l : list A) :
  latestFirst at_ l -> latestFirst at_ (skipn m l).
Proof.
  revert l. induction m as [|m IH]; intros [|x xs]; cbn; auto. intros [_ Hxs]. auto.
Qed.

Lemma latestFirst_firstn {A} (at_ : A -> Time) n (l : list A) :
  latestFirst at_ l -> latestFirst at_ (firstn n l).
Proof.
  revert l. induction n as [|n IH]; intros [|x xs]; cbn; auto. intros [Hx Hxs].
  split; [|auto]. intros y Hy. apply Hx. now apply In_firstn_list in Hy.
Qed.

Lemma insertLatest_length {A} (at_ : A -> Time) (d : A) (l : list A) :
  List.length (insertLatest at_ d l) = S (List.length l).
Proof.
  induction l as [|y ys IH]; cbn; [reflexivity|].
  destruct (at_ y <? at_ d); cbn; auto.
Qed.

Lemma sortLatestFirst_length {A} (at_ : A -> Time) (l : list A) :
  List.length (sortLatestFirst at_ l) = List.length l.
Proof.
  unfold sortLatestFirst. induction l as [|y ys IH]; cbn; [reflexivity|].
  now rewrite insertLatest_length, IH.
Qed.

(** What a page of a sorted query holds. *)
Lemma page_results {A} (at_ : A -> Time) (params : QueryParams.t) (matches : list A) :
  (forall found,
      page (Normalize params) (sortLatestFirst at_ matches) = inr found ->
      (Z.of_nat (List.length found) <= QueryParams.Limit (Normalize params) <= 100)
      /\ (forall x, In x found -> In x matches)
      /\ latestFirst at_ found
      /\ (QueryParams.Page params <= 1 ->
            Z.of_nat (List.length matches) <= QueryParams.Limit (Normalize params) ->
            forall x, In x matches -> In x found))
  /\ (QueryParams.Page params <= max_int64 / 100 + 1 ->
        exists found, page (Normalize params) (sortLatestFirst at_ matches) = inr found).
Proof.
  destruct (Normalize_range params) as (_ & Hl & _ & _ & Hidem).
  assert (Hfirst : QueryParams.Page params <= 1 -> Skip (Normalize params) = 0).
  { intros Hone. unfold Skip. rewrite Hidem. unfold Normalize at 1. cbn [QueryParams.Page].
    destruct (Z.leb_spec (QueryParams.Page params) 0); [reflexivity|].
    now replace (QueryParams.Page params) with 1 by lia. }
  assert (Hnn : QueryParams.Page params <= max_int64 / 100 + 1 ->
                0 <= Skip (Normalize params)).
  { intros Hpage. unfold Skip. rewrite Hidem.
    destruct (Skip_product params Hpage) as (_ & Hnn & _). exact Hnn. }
  remember (Normalize params) as q eqn:Hq. clear Hq Hidem.
  split.
  - unfold page. intros found Hpage.
    destruct (Skip q <? 0) eqn:Hneg; [discriminate|].
    injection Hpage as <-. split; [|split; [|split]].
    + pose proof (firstn_le_length (Z.to_nat (QueryParams.Limit q))
                    (skipn (Z.to_nat (Skip q)) (sortLatestFirst at_ matches))). lia.
    + intros x Hx. apply In_firstn_skipn in Hx. now apply sortLatestFirst_In in Hx.
    + apply latestFirst_firstn, latestFirst_skipn, sortLatestFirst_sorted.
    + intros Hone Hfew x Hx.
      rewrite (Hfirst Hone). cbn [Z.to_nat skipn].
      rewrite firstn_all2; [now apply sortLatestFirst_In|].
      rewrite sortLatestFirst_length. lia.
  - intros Hpage. unfold page. specialize (Hnn Hpage).
    destruct (Z.ltb_spec (Skip q) 0); [lia|]. eauto.
Qed.

(** X20. What [ListActive] returns. A result is at most the normalised
    limit of listings, hence at most 100; each one is a stored listing that
    is active and that a [Buy] at the same instant would not find expired;
    they come latest created first; the first page holds every such listing
    when they fit in it. For a page up to [(2^63 - 1) / 100 + 1] the call
    succeeds. *)
Theorem ListActive_results now st params :
  (forall listings,
      auctionExt.ListActive now st params = inr listings ->
      (Z.of_nat (List.length listings) <= QueryParams.Limit (Normalize params) <= 100)
      /\ (forall l, In l listings ->
            In l (auction_listings st)
            /\ Listing.Status l = ListingStatusActive
            /\ auction.expired l now = false)
      /\ latestFirst Listing.CreatedAt listings
      /\ (QueryParams.Page params <= 1 ->
            Z.of_nat (List.length (filter (auctionRepoExt.listed now) (auction_listings st)))
            <= QueryParams.Limit (Normalize params) ->
            forall l, In l (auction_listings st) ->
                      auctionRepoExt.listed now l = true -> In l listings))
  /\ (QueryParams.Page params <= max_int64 / 100 + 1 ->
        exists listings, auctionExt.ListActive now st params = inr listings).
Proof.
  destruct (page_results Listing.CreatedAt params
              (filter (auctionRepoExt.listed now) (auction_listings st))) as [Hres Hok].
  unfold auctionExt.ListActive, auctionRepoExt.ListActive. cbv zeta. split.
  - intros listings Hlist.
    destruct (page _ _) as [msg|found]; [discriminate|]. injection Hlist as <-.
    destruct (Hres found eq_refl) as (Hlen & Hin & Hsorted & Hall).
    split; [exact Hlen|]. split; [|split; [exact Hsorted|]].
    + intros l Hl. apply Hin, filter_In in Hl as [Hl Hlisted]. split; [exact Hl|].
      unfold auctionRepoExt.listed in Hlisted. apply andb_true_iff in Hlisted as [Hs He].
      split; [destruct (Listing.Status l); try discriminate; reflexivity|].
      unfold auction.expired. destruct (Listing.ExpiresAt l) as [t|]; [|reflexivity].
      apply Z.gtb_lt in He. apply Z.ltb_ge. lia.
    + intros Hfirst Hfew l Hl Hlisted. apply Hall; auto. apply filter_In. auto.
  - intros Hpage. destruct (Hok Hpage) as [found ->]. eauto.
Qed.

(** X21. What [List] returns of a player's runs. A result is at most the
    normalised limit of runs, hence at most 100; each one is a stored run of
    the player, never one of another player; they come latest started
    first; the first page holds all the player's runs when they fit in it.
    For a page up to [(2^63 - 1) / 100 + 1] the call succeeds. *)
Theorem List_results st playerID params :
  (forall found,
      runExt.List st playerID params = inr found ->
      (Z.of_nat (List.length found) <= QueryParams.Limit (Normalize params) <= 100)
      /\ (forall r, In r found -> In r (runs st) /\ Run.PlayerID r = playerID)
      /\ latestFirst Run.StartedAt found
      /\ (QueryParams.Page params <= 1 ->
            Z.of_nat (List.length (filter (fun r => Run.PlayerID r =?s playerID) (runs st)))
            <= QueryParams.Limit (Normalize params) ->
            forall r, In r (runs st) -> Run.PlayerID r = playerID -> In r found))
  /\ (QueryParams.Page params <= max_int64 / 100 + 1 ->
        exists found, runExt.List st playerID params = inr found).
Proof.
  destruct (page_results Run.StartedAt params
              (filter (fun r => Run.PlayerID r =?s playerID) (runs st))) as [Hres Hok].
  unfold runExt.List, runRepoExt.ListRunsByPlayer. cbv zeta. split.
  - intros found Hlist.
    destruct (page _ _) as [msg|found0]; [discriminate|]. injection Hlist as <-.
    destruct (Hres found0 eq_refl) as (Hlen & Hin & Hsorted & Hall).
    split; [exact Hlen|]. split; [|split; [exact Hsorted|]].
    + intros r Hr. apply Hin, filter_In in Hr as [Hr Hp]. split; [exact Hr|].
      now apply String.eqb_eq in Hp.
    + intros Hfirst Hfew r Hr Hp. apply Hall; auto. apply filter_In. split; [exact Hr|].
      now apply String.eqb_eq.
  - intros Hpage. destruct (Hok Hpage) as [found ->]. eauto.
Qed.

End Paging.

(** ** Reading the inventory *)

Section InventoryReading.
Context `{Codec}.

(** X22. [GetInventory] shows what the player holds. The call always
    succeeds and answers for the player asked; under the unique index of the
    collection (one entry for a player and item), an item appears in the
    answer with quantity [q] exactly when the player holds [q] of it and [q]
    is positive: an item whose whole quantity is on the market is not
    shown. *)
Theorem GetInventory_shows_holdings st playerID itemID :
  (entriesOf st playerID itemID <= 1)%nat ->
  exists resp,
    inventory.GetInventory st playerID = inr resp
    /\ InventoryResponse.PlayerID resp = playerID
    /\ forall q,
         In {| InventoryItem.ItemID := itemID; InventoryItem.Qty := q |}
            (InventoryResponse.Items resp)
         <-> held st playerID itemID = q /\ 0 < q.
Proof.
  unfold entriesOf, held, inventory.GetInventory, inventoryRepoExt.ListInventory.
  intros Huniq. eexists. split; [reflexivity|]. split; [reflexivity|].
  cbn [InventoryResponse.Items]. intros q. rewrite in_map_iff. split.
  - intros (e & He & Hin). apply filter_In in Hin as [Hin Hg].
    apply andb_true_iff in Hg as [Hp Hq]. injection He as Hi Hqty.
    assert (HF : In e (filter (inventoryRepo.byPlayerItem playerID itemID) (inventory st))).
    { apply filter_In. split; [exact Hin|]. unfold inventoryRepo.byPlayerItem.
      rewrite Hp, Hi. apply String.eqb_refl. }
    destruct (filter _ (inventory st)) as [|x [|y ys]]; [contradiction| |cbn in Huniq; lia].
    destruct HF as [->|[]]. cbn. apply Z.gtb_lt in Hq. lia.
  - intros [Hheld Hpos].
    destruct (filter _ (inventory st)) as [|x [|y ys]] eqn:HF;
      [cbn in Hheld; lia| |cbn in Huniq; lia].
    cbn in Hheld.
    assert (Hx : In x (filter (inventoryRepo.byPlayerItem playerID itemID) (inventory st)))
      by (rewrite HF; now left).
    apply filter_In in Hx as [Hin Hb]. unfold inventoryRepo.byPlayerItem in Hb.
    apply andb_true_iff in Hb as [Hp Hi]. apply String.eqb_eq in Hi.
    exists x. split; [f_equal; [exact Hi|lia]|].
    apply filter_In. split; [exact Hin|]. rewrite Hp. cbn. apply Z.gtb_lt. lia.
Qed.

End InventoryReading.

(** ** The inventory stays sound *)

Section InventoryInvariant.
Context `{Codec} `{geo.MathLib}.

Lemma inventoryOk_same st st' :
  inventory st' = inventory st -> inventoryOk st -> inventoryOk st'.
Proof. unfold inventoryOk, entriesOf. now intros ->. Qed.

Lemma filter_updateFirst_keep {A} (g flt : A -> bool) (f : A -> A) (l : list A) :
  (forall d, g (f d) = g d) ->
  List.length (filter g (updateFirst flt f l)) = List.length (filter g l).
Proof.
  intros Hkeep. induction l as [|x xs IH]; cbn; [reflexivity|].
  destruct (flt x); cbn; [rewrite Hkeep|]; destruct (g x); cbn; auto.
Qed.

Lemma In_updateFirst {A} (flt : A -> bool) (f : A -> A) (l : list A) (y : A) :
  In y (updateFirst flt f l) -> In y l \/ exists d, In d l /\ flt d = true /\ y = f d.
Proof.
  induction l as [|x xs IH]; cbn; [tauto|].
  destruct (flt x) eqn:Hx; cbn.
  - intros [<-|Hin]; [right; exists x; auto|auto].
  - intros [<-|Hin]; [auto|]. destruct (IH Hin) as [|(d & Hd & Hf & ->)]; [auto|].
    right. exists d. auto.
Qed.

Lemma findOne_none_all {A} (f : A -> bool) (l : list A) :
  findOne f l = None -> filter f l = [].
Proof.
  unfold findOne. induction l as [|x xs IH]; cbn; [reflexivity|].
  destruct (f x); [discriminate|auto].
Qed.

Lemma AddItem_keeps playerID itemID qty now st u st' :
  inventoryRepo.AddItem playerID itemID qty now st = inr (u, st') ->
  inventoryOk st -> inventoryOk st'.
Proof.
  unfold inventoryRepo.AddItem, inventoryOk, entriesOf. intros Hadd [Huniq Hnn].
  destruct (Z.leb_spec qty 0) as [|Hpos]; [discriminate|].
  destruct (findOne _ (inventory st)) as [e|] eqn:Hf.
  - destruct (in_int64 _); [|discriminate]. injection Hadd as _ <-.
    cbn [inventory set_inventory]. split.
    + intros p i. rewrite filter_updateFirst_keep; [apply Huniq|]. reflexivity.
    + intros x Hx. apply In_updateFirst in Hx as [Hx|(d & Hd & _ & ->)]; [auto|].
      cbn. apply find_some in Hf as [Hin _]. specialize (Hnn e Hin). lia.
  - destruct (existsb _ _); [discriminate|]. injection Hadd as _ <-.
    cbn [inventory set_inventory]. split.
    + intros p i. rewrite filter_app_one. unfold inventoryRepo.byPlayerItem at 2. cbn.
      destruct (String.eqb_spec playerID p) as [<-|]; cbn [andb];
        [|specialize (Huniq p i); lia].
      destruct (String.eqb_spec itemID i) as [<-|]; [|specialize (Huniq playerID i); lia].
      now rewrite (findOne_none_all _ _ Hf).
    + intros x Hx. apply in_app_or in Hx as [Hx|[<-|[]]]; [auto|]. cbn. lia.
Qed.

Lemma RemoveItem_keeps playerID itemID qty now st u st' :
  int64 qty ->
  inventoryRepoExt.RemoveItem playerID itemID qty now st = inr (u, st') ->
  inventoryOk st -> inventoryOk st'.
Proof.
  unfold inventoryRepoExt.RemoveItem, inventoryOk, entriesOf. intros Hq Hrem [Huniq Hnn].
  destruct (Z.leb_spec qty 0) as [|Hpos]; [discriminate|].
  destruct (findOne _ (inventory st)) as [e|] eqn:Hf; [|discriminate].
  destruct (in_int64 _); [|discriminate]. injection Hrem as _ <-.
  rewrite (wrap64_opp _ Hpos Hq). cbn [inventory set_inventory]. split.
  - intros p i. rewrite filter_updateFirst_keep; [apply Huniq|]. reflexivity.
  - intros x Hx. apply In_updateFirst in Hx as [Hx|(d & Hd & _ & ->)]; [auto|].
    cbn. apply findOne_holds in Hf. unfold inventoryRepoExt.holding in Hf.
    apply andb_true_iff in Hf as [_ Hle]. apply Z.leb_le in Hle. lia.
Qed.

Lemma applyRewardItems_keeps playerID now items st u st' :
  run.applyRewardItems playerID now items st = inr (u, st') ->
  inventoryOk st -> inventoryOk st'.
Proof.
  revert st. induction items as [|item rest IH]; simpl; intros st Hrun Hok.
  - now injection Hrun as _ <-.
  - apply bind_inr in Hrun as (a & st1 & Hadd & Hrest). apply wrapErr_inr in Hadd.
    apply (IH _ Hrest). exact (AddItem_keeps _ _ _ _ _ _ _ Hadd Hok).
Qed.

Lemma CreateListing_error_frame cat now uuid st sellerID req e st' :
  auctionExt.CreateListing cat now uuid st sellerID req = (inl e, st') -> st' = st.
Proof.
  unfold auctionExt.CreateListing.
  destruct (negb _); [intros [= _ <-]; reflexivity|].
  destruct (inventoryRepoExt.GetItemDef cat _) as [e0|item]; [intros [= _ <-]; reflexivity|].
  destruct (negb _); [intros [= _ <-]; reflexivity|].
  unfold WithTransaction.
  match goal with |- context [match ?m st with _ => _ end] =>
    destruct (m st) as [e0|[a s1]] end; [intros [= _ <-]; reflexivity|discriminate].
Qed.

Lemma Cancel_error_frame now st sellerID listingID e st' :
  auctionExt.Cancel now st sellerID listingID = (inl e, st') -> st' = st.
Proof.
  unfold auctionExt.Cancel.
  destruct (auctionRepo.GetByID st listingID) as [e0|listing];
    [intros [= _ <-]; reflexivity|].
  destruct (negb _); [intros [= _ <-]; reflexivity|].
  destruct (negb _); [intros [= _ <-]; reflexivity|].
  unfold WithTransaction.
  match goal with |- context [match ?m st with _ => _ end] =>
    destruct (m st) as [e0|[a s1]] end; [intros [= _ <-]; reflexivity|discriminate].
Qed.

Lemma buy_settle_keeps now uuid buyerID req listing st out st' :
  auction.settle now uuid buyerID req listing st = inr (out, st') ->
  inventoryOk st -> inventoryOk st'.
Proof.
  unfold auction.settle. intros Hs Hok.
  apply bind_inr in Hs as (buyer & s0 & Hbuyer & Hs). apply wrapErr_inr in Hbuyer.
  unfold readTx in Hbuyer.
  destruct (playerRepo.GetByID st buyerID) as [e|b]; [discriminate|].
  injection Hbuyer as <- <-.
  destruct (Player.Gold b <? _); [discriminate|].
  apply bind_inr in Hs as (u1 & s1 & Hdebit & Hs). apply wrapErr_inr in Hdebit.
  apply bind_inr in Hs as (u2 & s2 & Hcredit & Hs). apply wrapErr_inr in Hcredit.
  apply bind_inr in Hs as (u3 & s3 & Hitem & Hs). apply wrapErr_inr in Hitem.
  apply bind_inr in Hs as (out0 & s4 & Hreplace & Hs). apply wrapErr_inr in Hreplace.
  apply bind_inr in Hs as (u5 & s5 & Htrade & Hs). apply wrapErr_inr in Htrade.
  injection Hs as <- <-.
  assert (H1 : inventory s1 = inventory st).
  { unfold playerRepo.SetGold in Hdebit.
    destruct (findOne _ _); [|discriminate]. now injection Hdebit as _ <-. }
  assert (H2 : inventory s2 = inventory s1).
  { unfold playerRepo.IncrementGold in Hcredit.
    destruct (findOne _ _); [|discriminate]. destruct (in_int64 _); [|discriminate].
    now injection Hcredit as _ <-. }
  assert (H4 : inventory s4 = inventory s3).
  { unfold auctionRepo.ReplaceListing in Hreplace.
    destruct (findOne _ _); [|discriminate]. now injection Hreplace as _ <-. }
  assert (H5 : inventory s5 = inventory s4).
  { unfold auctionRepo.InsertTrade in Htrade.
    destruct (existsb _ _); [discriminate|]. now injection Htrade as _ <-. }
  apply (inventoryOk_same s3); [congruence|].
  apply (AddItem_keeps _ _ _ _ _ _ _ Hitem).
  apply (inventoryOk_same st); [congruence|exact Hok].
Qed.

Lemma attempt_settle_keeps now playerID runID stepID run step distance steps record
    st0 resp st1 :
  run.settle now playerID runID stepID run step distance steps record st0
  = inr (resp, st1) ->
  inventoryOk st0 -> inventoryOk st1.
Proof.
  unfold run.settle. intros Hs Hok.
  apply bind_inr in Hs as (u1 & s1 & Hcreate & Hs). apply wrapErr_inr in Hcreate.
  apply bind_inr in Hs as (updatedPlayer & s2 & Hgold & Hs). apply wrapErr_inr in Hgold.
  apply bind_inr in Hs as (u3 & s3 & Hitems & Hs).
  apply bind_inr in Hs as (updatedRun & s4 & Hreplace & Hs). apply wrapErr_inr in Hreplace.
  apply bind_inr in Hs as (u5 & s5 & Hupdate & Hs). apply wrapErr_inr in Hupdate.
  injection Hs as <- <-.
  assert (H1 : inventory s1 = inventory st0).
  { unfold runRepo.CreateAttemptRecord in Hcreate.
    destruct (existsb _ _); [discriminate|]. now injection Hcreate as _ <-. }
  assert (H2 : inventory s2 = inventory s1).
  { unfold playerRepo.IncrementGold in Hgold.
    destruct (findOne _ _); [|discriminate]. destruct (in_int64 _); [|discriminate].
    now injection Hgold as _ <-. }
  assert (H4 : inventory s4 = inventory s3).
  { unfold runRepo.ReplaceRun in Hreplace.
    destruct (findOne _ _); [|discriminate]. now injection Hreplace as _ <-. }
  assert (H5 : inventory s5 = inventory s4).
  { unfold runRepo.UpdateAttemptRecord in Hupdate.
    destruct (existsb _ _); [|discriminate]. now injection Hupdate as _ <-. }
  apply (inventoryOk_same s3); [congruence|].
  apply (applyRewardItems_keeps _ _ _ _ _ _ Hitems).
  apply (inventoryOk_same st0); [congruence|exact Hok].
Qed.

(** X23. The market keeps the inventory sound. From a store whose inventory
    has one entry at most for each player and item and no negative quantity,
    [CreateListing] (for an int64 quantity), [Buy] and [Cancel] lead,
    whatever they return, to a store whose inventory is again such: no
    listing takes more than the seller holds. *)
Theorem market_keeps_inventory_sound st :
  inventoryOk st ->
  (forall cat now uuid sellerID req out st',
      int64 (CreateListingRequest.Qty req) ->
      auctionExt.CreateListing cat now uuid st sellerID req = (out, st') ->
      inventoryOk st')
  /\ (forall nowCheck now uuid buyerID listingID req out st',
        auction.Buy nowCheck now uuid st buyerID listingID req = (out, st') ->
        inventoryOk st')
  /\ (forall now sellerID listingID out st',
        auctionExt.Cancel now st sellerID listingID = (out, st') ->
        inventoryOk st').
Proof.
  intros Hok. split; [|split].
  - intros cat now uuid sellerID req [e|listing] st' Hq Hcreate.
    + now apply CreateListing_error_frame in Hcreate as ->.
    + apply CreateListing_inr in Hcreate as (_ & _ & s1 & Hrem & _ & ->).
      apply (inventoryOk_same s1); [reflexivity|].
      exact (RemoveItem_keeps _ _ _ _ _ _ _ Hq Hrem Hok).
  - intros nowCheck now uuid buyerID listingID req [e|listing] st' Hbuy.
    + now apply Buy_error_frame in Hbuy as ->.
    + apply Buy_inr in Hbuy as (l & _ & _ & _ & _ & _ & Hs).
      exact (buy_settle_keeps _ _ _ _ _ _ _ _ Hs Hok).
  - intros now sellerID listingID [e|listing] st' Hcancel.
    + now apply Cancel_error_frame in Hcancel as ->.
    + apply Cancel_inr in Hcancel as (l & s1 & _ & _ & _ & _ & _ & Hadd & _ & ->).
      apply (inventoryOk_same s1); [reflexivity|].
      destruct (Listing.Qty l >? 0); [|now subst s1].
      destruct Hadd as [u Hadd]. exact (AddItem_keeps _ _ _ _ _ _ _ Hadd Hok).
Qed.

(** X24. Attempts keep the inventory sound. Whatever a call of [Attempt]
    returns, if the inventory of the store its transaction runs on (the one
    other requests left in between) is sound, and so is that of the store it
    found, the inventory of the store it leaves is sound. *)
Theorem Attempt_keeps_inventory_sound concurrent now uuid st playerID runID stepID req
    out st' :
  inventoryOk st ->
  inventoryOk (concurrent st) ->
  run.Attempt concurrent now uuid st playerID runID stepID req = (out, st') ->
  inventoryOk st'.
Proof.
  unfold run.Attempt. intros Hok Hok' Hrun.
  destruct (run.attemptAdmission st playerID runID stepID req) as [e|[[run step] d]];
    [now injection Hrun as _ <-|].
  destruct (run.attemptReplay st runID stepID req) as [answer|];
    [now injection Hrun as _ <-|].
  unfold run.attemptFresh, dungeonRepo.ListStepsByDungeon, WithTransaction in Hrun.
  destruct (run.settle _ _ _ _ _ _ _ _ _ (concurrent st)) as [e|[resp s1]] eqn:Hs.
  - repeat break_match; injection Hrun as _ <-; exact Hok'.
  - injection Hrun as _ <-. exact (attempt_settle_keeps _ _ _ _ _ _ _ _ _ _ _ _ Hs Hok').
Qed.

End InventoryInvariant.

(** ** Publishing a dungeon *)

Section DungeonProperties.
Context `{Codec}.

Lemma insertByOrder_In (s x : BossStep.t) (l : list BossStep.t) :
  In x (dungeonRepo.insertByOrder s l) <-> x = s \/ In x l.
Proof.
  induction l as [|y ys IH]; cbn; [intuition|].
  destruct (_ <=? _); cbn; [intuition|]. rewrite IH. intuition.
Qed.

Lemma sortByOrder_In (x : BossStep.t) (l : list BossStep.t) :
  In x (dungeonRepo.sortByOrder l) <-> In x l.
Proof.
  unfold dungeonRepo.sortByOrder. induction l as [|y ys IH]; cbn; [tauto|].
  rewrite insertByOrder_In, IH. intuition.
Qed.

Lemma PublishDungeon_inr now cat st mjID dungeonID out cat' :
  dungeon.PublishDungeon now cat st mjID dungeonID = (inr out, cat') ->
  exists d,
    findOne (fun x => Dungeon.ID x =?s dungeonID) (dungeons cat) = Some d
    /\ Dungeon.ID d = dungeonID
    /\ Dungeon.CreatedBy d = mjID
    /\ filter (fun s => BossStep.DungeonID s =?s dungeonID) (boss_steps st) <> []
    /\ (forall s, In s (boss_steps st) -> BossStep.DungeonID s = dungeonID ->
                  dungeon.invalidRadius s = false)
    /\ out = dungeon.published now d
    /\ cat' = {| dungeons := updateFirst (fun x => Dungeon.ID x =?s dungeonID)
                               (fun _ => out) (dungeons cat);
                 item_defs := item_defs cat |}.
Proof.
  unfold dungeon.PublishDungeon, dungeonRepoExt.GetDungeonByID,
    dungeonRepo.ListStepsByDungeon, dungeonRepoExt.UpdateDungeon.
  destruct (findOne _ (dungeons cat)) as [d|] eqn:Hd; [|discriminate].
  pose proof (findOne_holds _ _ _ Hd) as Hid. apply String.eqb_eq in Hid.
  destruct (String.eqb_spec (Dungeon.CreatedBy d) mjID) as [Hown|]; [|discriminate].
  cbn [negb].
  destruct (Nat.eqb_spec (List.length (dungeonRepo.sortByOrder
              (filter (fun s => BossStep.DungeonID s =?s dungeonID) (boss_steps st)))) 0)
    as [|Hlen]; [discriminate|].
  destruct (find dungeon.invalidRadius _) as [bad|] eqn:Hbad; [discriminate|].
  cbn [dungeon.published Dungeon.ID]. rewrite Hid, Hd. intros [= <- <-].
  exists d. repeat split; auto.
  - intros Hnil. rewrite Hnil in Hlen. now apply Hlen.
  - intros s Hin Hs.
    apply (find_none _ _ Hbad). apply sortByOrder_In, filter_In.
    split; [exact Hin|]. now apply String.eqb_eq.
Qed.

Lemma PublishDungeon_error_frame now cat st mjID dungeonID e cat' :
  dungeon.PublishDungeon now cat st mjID dungeonID = (inl e, cat') -> cat' = cat.
Proof.
  unfold dungeon.PublishDungeon, dungeonRepo.ListStepsByDungeon.
  destruct (dungeonRepoExt.GetDungeonByID cat dungeonID) as [e0|d];
    [intros [= _ <-]; reflexivity|].
  destruct (negb _); [intros [= _ <-]; reflexivity|].
  destruct (_ =? _)%nat; [intros [= _ <-]; reflexivity|].
  destruct (find _ _); [intros [= _ <-]; reflexivity|].
  destruct (dungeonRepoExt.UpdateDungeon _ cat) as [e0|[u c]];
    [intros [= _ <-]; reflexivity|discriminate].
Qed.

Lemma PublishDungeon_effect now cat st mjID dungeonID out cat' :
  dungeon.PublishDungeon now cat st mjID dungeonID = (inr out, cat') ->
  (Dungeon.Status out = DungeonStatusPublished /\ Dungeon.ID out = dungeonID
   /\ Dungeon.CreatedBy out = mjID /\ Dungeon.UpdatedAt out = now)
  /\ dungeonRepoExt.GetDungeonByID cat' dungeonID = inr out
  /\ (forall id, id <> dungeonID ->
        dungeonRepoExt.GetDungeonByID cat' id = dungeonRepoExt.GetDungeonByID cat id)
  /\ item_defs cat' = item_defs cat
  /\ 1 <= run.stepCount st dungeonID
  /\ (forall s, In s (boss_steps st) -> BossStep.DungeonID s = dungeonID ->
                dungeon.invalidRadius s = false).
Proof.
  intros Hpub.
  apply PublishDungeon_inr in Hpub as (d & Hd & Hid & Hown & Hsteps & Hradius & Hout & ->).
  split; [rewrite Hout; cbn; auto|]. split; [|split; [|split; [reflexivity|split]]].
  - unfold dungeonRepoExt.GetDungeonByID. cbn [dungeons].
    erewrite findOne_updateFirst_hit; [reflexivity|exact Hd|].
    rewrite Hout. cbn. rewrite Hid. apply String.eqb_refl.
  - intros id Hne. unfold dungeonRepoExt.GetDungeonByID. cbn [dungeons].
    rewrite findOne_updateFirst_miss; [reflexivity|].
    intros x Hx. apply String.eqb_eq in Hx. rewrite Hout. cbn. rewrite Hx, Hid.
    destruct (String.eqb_spec dungeonID id); [congruence|auto].
  - unfold run.stepCount.
    destruct (filter _ (boss_steps st)); [contradiction|]. cbn [List.length]. lia.
  - exact Hradius.
Qed.

(** X25. What a successful [PublishDungeon] leaves: the dungeon is stored
    under its id with status published, still owned by the caller; every
    other dungeon and the item definitions are as before; and the dungeon
    has at least one step, none of which has a radius for which
    [radius <= 0] holds. *)
Theorem PublishDungeon_publishes now cat st mjID dungeonID out cat' :
  dungeon.PublishDungeon now cat st mjID dungeonID = (inr out, cat') ->
  (Dungeon.Status out = DungeonStatusPublished /\ Dungeon.ID out = dungeonID
   /\ Dungeon.CreatedBy out = mjID /\ Dungeon.UpdatedAt out = now)
  /\ dungeonRepoExt.GetDungeonByID cat' dungeonID = inr out
  /\ (forall id, id <> dungeonID ->
        dungeonRepoExt.GetDungeonByID cat' id = dungeonRepoExt.GetDungeonByID cat id)
  /\ item_defs cat' = item_defs cat
  /\ 1 <= run.stepCount st dungeonID
  /\ (forall s, In s (boss_steps st) -> BossStep.DungeonID s = dungeonID ->
                dungeon.invalidRadius s = false).
Proof. exact (PublishDungeon_effect now cat st mjID dungeonID out cat'). Qed.

(** X26. The refusals of [PublishDungeon], in the order the code checks
    them: an unknown dungeon is not found; a dungeon created by someone else
    is forbidden; a dungeon without steps, or with a step whose radius is
    zero or negative, is a validation error. A call that fails leaves the
    catalog as it was. *)
Theorem PublishDungeon_rejections now cat st mjID dungeonID :
  (forall e cat', dungeon.PublishDungeon now cat st mjID dungeonID = (inl e, cat') ->
                  cat' = cat)
  /\ (findOne (fun x => Dungeon.ID x =?s dungeonID) (dungeons cat) = None ->
        dungeon.PublishDungeon now cat st mjID dungeonID
        = (inl (Errorf "get dungeon" (Errorf "dungeon id" (Sentinel ErrNotFound))), cat))
  /\ (forall d,
        dungeonRepoExt.GetDungeonByID cat dungeonID = inr d ->
        (Dungeon.CreatedBy d <> mjID ->
           dungeon.PublishDungeon now cat st mjID dungeonID
           = (inl (Errorf "cannot publish foreign dungeon" (Sentinel ErrForbidden)), cat))
        /\ (Dungeon.CreatedBy d = mjID ->
            (run.stepCount st dungeonID = 0 ->
               dungeon.PublishDungeon now cat st mjID dungeonID
               = (inl (Errorf "cannot publish empty dungeon" (Sentinel ErrValidation)), cat))
            /\ (forall s,
                  In s (boss_steps st) -> BossStep.DungeonID s = dungeonID ->
                  dungeon.invalidRadius s = true ->
                  dungeon.PublishDungeon now cat st mjID dungeonID
                  = (inl (Errorf "step has invalid radius" (Sentinel ErrValidation)),
                     cat)))).
Proof.
  split; [|split].
  - intros e cat'. apply PublishDungeon_error_frame.
  - intros Hnone. unfold dungeon.PublishDungeon, dungeonRepoExt.GetDungeonByID.
    now rewrite Hnone.
  - intros d Hd. split; [|intros Hown; split].
    + intros Hne. unfold dungeon.PublishDungeon. rewrite Hd.
      destruct (String.eqb_spec (Dungeon.CreatedBy d) mjID); [congruence|reflexivity].
    + intros Hnone. unfold dungeon.PublishDungeon, dungeonRepo.ListStepsByDungeon.
      rewrite Hd, Hown, String.eqb_refl. cbn [negb].
      rewrite sortByOrder_length. unfold run.stepCount in Hnone.
      destruct (List.length _); [reflexivity|lia].
    + intros s Hin Hs Hbad.
      unfold dungeon.PublishDungeon, dungeonRepo.ListStepsByDungeon.
      rewrite Hd, Hown, String.eqb_refl. cbn [negb].
      assert (Hmem : In s (dungeonRepo.sortByOrder
                             (filter (fun s => BossStep.DungeonID s =?s dungeonID)
                                (boss_steps st)))).
      { apply sortByOrder_In, filter_In. split; [exact Hin|]. now apply String.eqb_eq. }
      destruct (Nat.eqb_spec (List.length (dungeonRepo.sortByOrder
                  (filter (fun s => BossStep.DungeonID s =?s dungeonID) (boss_steps st)))) 0)
        as [Hlen|_].
      { destruct (dungeonRepo.sortByOrder _); [contradiction|discriminate]. }
      destruct (find dungeon.invalidRadius _) as [bad|] eqn:Hfind; [reflexivity|].
      pose proof (find_none _ _ Hfind s Hmem). congruence.
Qed.

Lemma existsb_none_of {A} (f : A -> bool) (l : list A) :
  filter f l = [] -> existsb f l = false.
Proof.
  induction l as [|x xs IH]; cbn; [reflexivity|].
  destruct (f x); [discriminate|auto].
Qed.

Lemma Start_accepts cat now uuid st playerID req d p :
  runExt.validateStartRunRequest req = true ->
  dungeonRepoExt.GetDungeonByID cat (StartRunRequest.DungeonID req) = inr d ->
  Dungeon.Status d = DungeonStatusPublished ->
  playerRepo.GetByID st playerID = inr p ->
  activeRuns st playerID (StartRunRequest.DungeonID req) = 0%nat ->
  existsb (runRepo.byRunID uuid) (runs st) = false ->
  runExt.Start cat now uuid st playerID req
  = (inr (runExt.newRun now uuid playerID req),
     set_runs (runs st ++ [runExt.newRun now uuid playerID req]) st).
Proof.
  intros Hv Hd Hpub Hp Hact Hfresh.
  unfold runExt.Start, runRepoExt.HasActiveRun, runRepoExt.CreateRun.
  rewrite Hv, Hd, Hpub, Hp. cbn [negb]. unfold activeRuns in Hact. rewrite Hact.
  cbn [Z.of_nat Z.ltb Z.compare].
  assert (Hnone : existsb (runRepoExt.activeOf playerID (StartRunRequest.DungeonID req))
                    (runs st) = false).
  { apply existsb_none_of. now apply length_zero_iff_nil. }
  assert (Hex : existsb
                  (fun r =>
                     runRepo.byRunID (Run.ID (runExt.newRun now uuid playerID req)) r
                     || RunState_eqb (Run.State (runExt.newRun now uuid playerID req))
                          RunStateActive
                        && runRepoExt.activeOf
                             (Run.PlayerID (runExt.newRun now uuid playerID req))
                             (Run.DungeonID (runExt.newRun now uuid playerID req)) r)
                  (runs st) = false).
  { cbn. clear -Hfresh Hnone. induction (runs st) as [|r rs IH]; cbn in *; [reflexivity|].
    apply orb_false_iff in Hfresh as [-> Hrs]. apply orb_false_iff in Hnone as [-> Hns].
    cbn. auto. }
  now rewrite Hex.
Qed.

(** X27. When [Start] succeeds. For a well-formed request on a published
    dungeon, by a known player who has no active run on the dungeon, with an
    id no stored run has, [Start] returns the new run and appends it to the
    runs, touching nothing else. *)
Theorem Start_succeeds cat now uuid st playerID req d p :
  runExt.validateStartRunRequest req = true ->
  dungeonRepoExt.GetDungeonByID cat (StartRunRequest.DungeonID req) = inr d ->
  Dungeon.Status d = DungeonStatusPublished ->
  playerRepo.GetByID st playerID = inr p ->
  activeRuns st playerID (StartRunRequest.DungeonID req) = 0%nat ->
  existsb (runRepo.byRunID uuid) (runs st) = false ->
  runExt.Start cat now uuid st playerID req
  = (inr (runExt.newRun now uuid playerID req),
     set_runs (runs st ++ [runExt.newRun now uuid playerID req]) st).
Proof. exact (Start_accepts cat now uuid st playerID req d p). Qed.

(** X28. Publishing opens a dungeon to the players. Before a successful
    [PublishDungeon], a dungeon that is not published is hidden from
    [GetPublishedByID] as not found and refused by [Start] as a validation
    error; afterwards [GetPublishedByID] returns it with its steps in the
    order of the repository, and [Start] accepts it from any known player
    without an active run on it. *)
Theorem PublishDungeon_opens_dungeon now cat st mjID dungeonID out cat' d :
  dungeon.PublishDungeon now cat st mjID dungeonID = (inr out, cat') ->
  dungeonRepoExt.GetDungeonByID cat dungeonID = inr d ->
  (Dungeon.Status d <> DungeonStatusPublished ->
     dungeon.GetPublishedByID cat st dungeonID
     = inl (Errorf "dungeon is not published" (Sentinel ErrNotFound))
     /\ forall now' uuid st0 playerID req,
          runExt.validateStartRunRequest req = true ->
          StartRunRequest.DungeonID req = dungeonID ->
          runExt.Start cat now' uuid st0 playerID req
          = (inl (Errorf "dungeon not published" (Sentinel ErrValidation)), st0))
  /\ (exists steps,
        dungeon.GetPublishedByID cat' st dungeonID = inr (out, steps)
        /\ dungeonRepo.ListStepsByDungeon st dungeonID = inr steps
        /\ steps <> [])
  /\ (forall now' uuid st0 playerID req p,
        runExt.validateStartRunRequest req = true ->
        StartRunRequest.DungeonID req = dungeonID ->
        playerRepo.GetByID st0 playerID = inr p ->
        activeRuns st0 playerID dungeonID = 0%nat ->
        existsb (runRepo.byRunID uuid) (runs st0) = false ->
        runExt.Start cat' now' uuid st0 playerID req
        = (inr (runExt.newRun now' uuid playerID req),
           set_runs (runs st0 ++ [runExt.newRun now' uuid playerID req]) st0)).
Proof.
  intros Hpub Hd.
  apply PublishDungeon_effect in Hpub as ((Hst & _) & Hget & _ & _ & Hcount & _).
  split; [|split].
  - intros Hdraft. split.
    + unfold dungeon.GetPublishedByID. rewrite Hd.
      destruct (Dungeon.Status d); try reflexivity; congruence.
    + intros now' uuid st0 playerID req Hv Hreq. unfold runExt.Start.
      rewrite Hv, Hreq, Hd. cbn [negb].
      destruct (Dungeon.Status d); try reflexivity; congruence.
  - unfold dungeon.GetPublishedByID, dungeonRepo.ListStepsByDungeon. rewrite Hget, Hst.
    eexists. split; [reflexivity|]. split; [reflexivity|].
    intros Hnil. apply (f_equal (@List.length _)) in Hnil.
    rewrite sortByOrder_length in Hnil. unfold run.stepCount in Hcount.
    cbn in Hnil. lia.
  - intros now' uuid st0 playerID req p Hv Hreq Hp Hact Hfresh. subst dungeonID.
    exact (Start_accepts cat' now' uuid st0 playerID req out p Hv Hget Hst Hp Hact Hfresh).
Qed.

End DungeonProperties.

(** * The further theorems on concrete data *)

Import fixturesExt.

Example listedStore_is_listed :
  auctionExt.CreateListing catalog 100 "L-1" stallStore "seller" (offer 3 10)
  = (inr swordListing, listedStore).
Proof. vm_compute. reflexivity. Qed.

(** A page of 0 and a limit of 500 are normalised to the limit 20. *)
Lemma Normalize_bounds_witness :
  1 <= QueryParams.Limit (Normalize {| QueryParams.Page := 0; QueryParams.Limit := 500 |})
  <= 100.
Proof.
  exact (proj1 (proj2 (Normalize_bounds
                         {| QueryParams.Page := 0; QueryParams.Limit := 500 |}))).
Defined.

(** The third page of 50 skips 100 documents. *)
Lemma Skip_exact_witness :
  Skip {| QueryParams.Page := 3; QueryParams.Limit := 50 |} = 100.
Proof.
  destruct (Skip_exact {| QueryParams.Page := 3; QueryParams.Limit := 50 |})
    as (Hskip & _).
  - compare_Z.
  - rewrite Hskip. reflexivity.
Defined.

(** Three swords back to the seller, who held two. *)
Lemma AddItem_held_witness : held restockedStore "seller" "sword" = 5.
Proof.
  assert (Hadd : inventoryRepo.AddItem "seller" "sword" 3 200 listedStore
                 = inr (tt, restockedStore)) by (vm_compute; reflexivity).
  destruct (AddItem_held "seller" "sword" 3 200 listedStore) as (Hok & _).
  destruct (Hok tt restockedStore Hadd) as (_ & Hheld & _).
  rewrite Hheld. vm_compute. reflexivity.
Defined.

(** Three swords taken from the seller, who held five. *)
Lemma RemoveItem_held_witness : held escrowedStore "seller" "sword" = 2.
Proof.
  assert (Hq : int64 3) by compare_Z.
  assert (Hrem : inventoryRepoExt.RemoveItem "seller" "sword" 3 100 stallStore
                 = inr (tt, escrowedStore)) by (vm_compute; reflexivity).
  destruct (RemoveItem_held "seller" "sword" 3 100 stallStore Hq) as (Hok & _).
  destruct (Hok tt escrowedStore Hrem) as (_ & Hheld & _).
  rewrite Hheld. vm_compute. reflexivity.
Defined.

Lemma CreateListing_escrow_witness :
  held listedStore "seller" "sword" = 2
  /\ auctionRepo.GetByID listedStore "L-1" = inr swordListing.
Proof.
  assert (Hq : int64 (CreateListingRequest.Qty (offer 3 10))) by compare_Z.
  assert (Hlist : auctionExt.CreateListing catalog 100 "L-1" stallStore "seller" (offer 3 10)
                  = (inr swordListing, listedStore)) by (vm_compute; reflexivity).
  destruct (CreateListing_escrow catalog 100 "L-1" stallStore "seller" (offer 3 10)
              swordListing listedStore Hq Hlist) as (_ & Hget & Hheld & _).
  split; [|exact Hget].
  rewrite Hheld. vm_compute. reflexivity.
Defined.

(** Six swords cannot be listed by a seller who holds five. *)
Lemma CreateListing_rejections_witness :
  failsWith
    (fst (auctionExt.CreateListing catalog 100 "L-2" stallStore "seller" (offer 6 10)))
    ErrConflict = true.
Proof.
  pose proof (CreateListing_rejections catalog 100 "L-2" stallStore "seller" (offer 6 10))
    as Hrej.
  cbv zeta in Hrej. destruct Hrej as (_ & _ & Hconflict & _).
  apply (Hconflict (itemDef "sword" true)); [reflexivity|reflexivity|].
  right. intros e [<-|[]] _. reflexivity.
Defined.

Lemma Cancel_returns_escrow_witness : held cancelledStore "seller" "sword" = 5.
Proof.
  assert (Hcancel : auctionExt.Cancel 200 listedStore "seller" "L-1"
                    = (inr (auctionExt.cancelled swordListing), cancelledStore))
    by (vm_compute; reflexivity).
  destruct (Cancel_returns_escrow 200 listedStore "seller" "L-1"
              (auctionExt.cancelled swordListing) cancelledStore Hcancel)
    as (listing & Hget & _ & _ & _ & _ & Hheld & _).
  vm_compute in Hget. injection Hget as <-.
  rewrite Hheld. vm_compute. reflexivity.
Defined.

(** The buyer cannot cancel the seller's listing. *)
Lemma Cancel_rejections_witness :
  failsWith (fst (auctionExt.Cancel 200 listedStore "buyer" "L-1")) ErrForbidden = true.
Proof.
  pose proof (Cancel_rejections 200 listedStore "buyer" "L-1") as Hrej.
  cbv zeta in Hrej. destruct Hrej as (_ & Hlisting & _).
  destruct (Hlisting swordListing) as [Hforeign _]; [reflexivity|].
  apply Hforeign. discriminate.
Defined.

Lemma CreateListing_then_Cancel_witness :
  exists st2,
    auctionExt.Cancel 200 listedStore "seller" "L-1"
    = (inr (auctionExt.cancelled swordListing), st2)
    /\ held st2 "seller" "sword" = 5.
Proof.
  assert (Hq : int64 (CreateListingRequest.Qty (offer 3 10))) by compare_Z.
  assert (Huniq : (entriesOf stallStore "seller" (CreateListingRequest.ItemID (offer 3 10))
                   <= 1)%nat) by (vm_compute; lia).
  assert (Hint : forall e, In e (inventory stallStore) -> int64 (InventoryEntry.Qty e))
    by (intros e [<-|[]]; compare_Z).
  assert (Hlist : auctionExt.CreateListing catalog 100 "L-1" stallStore "seller" (offer 3 10)
                  = (inr swordListing, listedStore)) by (vm_compute; reflexivity).
  destruct (CreateListing_then_Cancel catalog 100 "L-1" stallStore "seller" (offer 3 10)
              swordListing listedStore 200 Hq Huniq Hint Hlist)
    as (st2 & Hcancel & Hheld & _).
  exists st2. split; [exact Hcancel|].
  rewrite Hheld. vm_compute. reflexivity.
Defined.

Lemma Buy_delivers_items_witness :
  held soldStore "buyer" "sword" = 3 /\ held soldStore "seller" "sword" = 2.
Proof.
  assert (Hget : auctionRepo.GetByID listedStore "L-1" = inr swordListing)
    by (vm_compute; reflexivity).
  assert (Hbuy : auction.Buy 150 150 "T-1" listedStore "buyer" "L-1" (buyQty 3)
                 = (inr soldListing, soldStore)) by (vm_compute; reflexivity).
  pose proof (Buy_delivers_items 150 150 "T-1" listedStore "buyer" "L-1" (buyQty 3)
                swordListing soldListing soldStore Hget Hbuy) as Hheld.
  split; rewrite Hheld; vm_compute; reflexivity.
Defined.

(** The cancelled listing cannot be bought. *)
Lemma cancelled_listing_is_final_witness :
  auction.Buy 300 300 "T-9" cancelledStore "buyer" "L-1" (buyQty 1)
  = (inl (Errorf "listing is not active" (Sentinel ErrConflict)), cancelledStore).
Proof.
  assert (Hcancel : auctionExt.Cancel 200 listedStore "seller" "L-1"
                    = (inr (auctionExt.cancelled swordListing), cancelledStore))
    by (vm_compute; reflexivity).
  destruct (cancelled_listing_is_final 200 listedStore "seller" "L-1"
              (auctionExt.cancelled swordListing) cancelledStore Hcancel) as (Hbuy & _).
  apply Hbuy. reflexivity.
Defined.

(** The listing bought in full cannot be cancelled. *)
Lemma Buy_whole_listing_is_final_witness :
  auctionExt.Cancel 300 soldStore "seller" "L-1"
  = (inl (Errorf "listing cannot be cancelled in current state" (Sentinel ErrConflict)),
     soldStore).
Proof.
  assert (Hget : auctionRepo.GetByID listedStore "L-1" = inr swordListing)
    by (vm_compute; reflexivity).
  assert (Hq : int64 (Listing.Qty swordListing)) by compare_Z.
  assert (Hbuy : auction.Buy 150 150 "T-1" listedStore "buyer" "L-1" (buyQty 3)
                 = (inr soldListing, soldStore)) by (vm_compute; reflexivity).
  destruct (Buy_whole_listing_is_final 150 150 "T-1" listedStore "buyer" "L-1" (buyQty 3)
              swordListing soldListing soldStore Hget Hq Hbuy) as (Hwhole & _).
  destruct (Hwhole eq_refl) as (_ & _ & _ & _ & Hcancel).
  exact (Hcancel 300).
Defined.

(** Player p-1 enters the published dungeon d-1. *)
Lemma Start_creates_run_witness :
  runExt.Get dungeonStore "p-1" "run-1" = inr freshRun
  /\ activeRuns dungeonStore "p-1" "d-1" = 1%nat.
Proof.
  assert (Hstart : runExt.Start catalog 10 "run-1" lobbyStore "p-1" (enter "d-1")
                   = (inr freshRun, dungeonStore)) by (vm_compute; reflexivity).
  destruct (Start_creates_run catalog 10 "run-1" lobbyStore "p-1" (enter "d-1") freshRun
              dungeonStore Hstart) as (_ & Hget & _ & _ & _ & Hone & _).
  split; [exact Hget|exact Hone].
Defined.

(** The draft dungeon d-2 cannot be entered. *)
Lemma Start_rejections_witness :
  runExt.Start catalog 10 "run-2" lobbyStore "p-1" (enter "d-2")
  = (inl (Errorf "dungeon not published" (Sentinel ErrValidation)), lobbyStore).
Proof.
  destruct (Start_rejections catalog 10 "run-2" lobbyStore "p-1" (enter "d-2"))
    as (_ & _ & Hvalid).
  destruct (Hvalid eq_refl) as (_ & Hdungeon).
  destruct (Hdungeon (dungeonOf "d-2" DungeonStatusDraft) eq_refl) as (Hdraft & _).
  apply Hdraft. discriminate.
Defined.

(** Player p-1 cannot enter d-1 a second time while the run is active. *)
Lemma Start_keeps_one_active_run_witness :
  runExt.Start catalog 20 "run-2" dungeonStore "p-1" (enter "d-1")
  = (inl (Errorf "an active run already exists for this dungeon" (Sentinel ErrConflict)),
     dungeonStore).
Proof.
  assert (Hstart : runExt.Start catalog 10 "run-1" lobbyStore "p-1" (enter "d-1")
                   = (inr freshRun, dungeonStore)) by (vm_compute; reflexivity).
  destruct (Start_keeps_one_active_run catalog 10 "run-1" lobbyStore "p-1" (enter "d-1")
              (inr freshRun) dungeonStore Hstart) as (_ & Hagain).
  exact (Hagain freshRun 20 "run-2" (enter "d-1") eq_refl eq_refl).
Defined.

(** An attempt at the wrong step leaves the store as it found it. *)
Lemma Attempt_writes_only_on_settlement_witness :
  dungeonStore = dungeonStore \/ dungeonStore = run.sequential dungeonStore.
Proof.
  assert (Hrun : run.Attempt run.sequential 1000 "a-1" dungeonStore "p-1" "run-1" "s-2"
                   (onSite "idem-key-1")
                 = (inl (Errorf "expected step order" (Sentinel ErrWrongStepOrder)),
                    dungeonStore)) by (vm_compute; reflexivity).
  apply (Attempt_writes_only_on_settlement run.sequential 1000 "a-1" dungeonStore "p-1"
           "run-1" "s-2" (onSite "idem-key-1") _ dungeonStore Hrun).
  intros resp Hresp. discriminate Hresp.
Defined.

(** The first attempt of the scenario pays 50 gold and one potion. *)
Lemma Attempt_pays_reward_witness :
  Player.Gold (AttemptResponse.Player firstResponse) = 50
  /\ held settledStore "p-1" "potion" = 1.
Proof.
  assert (Hrun : run.Attempt run.sequential 1000 "a-1" dungeonStore "p-1" "run-1" "s-1"
                   (onSite "idem-key-1") = (inr firstResponse, settledStore))
    by (vm_compute; reflexivity).
  destruct (Attempt_pays_reward run.sequential 1000 "a-1" dungeonStore "p-1" "run-1" "s-1"
              (onSite "idem-key-1") firstResponse settledStore Hrun eq_refl)
    as (run & step & p & Hget & Hstep & Hp & _ & Hgold & _ & _ & Hheld & _).
  vm_compute in Hget. injection Hget as <-.
  vm_compute in Hstep. injection Hstep as <-.
  vm_compute in Hp. injection Hp as <-.
  split; [rewrite Hgold; reflexivity|].
  rewrite Hheld. vm_compute. reflexivity.
Defined.

Lemma Attempt_records_attempt_witness : recordsOf settledStore "run-1" "s-1" = 1%nat.
Proof.
  assert (Hrun : run.Attempt run.sequential 1000 "a-1" dungeonStore "p-1" "run-1" "s-1"
                   (onSite "idem-key-1") = (inr firstResponse, settledStore))
    by (vm_compute; reflexivity).
  destruct (Attempt_records_attempt run.sequential 1000 "a-1" dungeonStore "p-1" "run-1"
              "s-1" (onSite "idem-key-1") firstResponse settledStore Hrun eq_refl)
    as (_ & Hcount & _).
  rewrite Hcount. reflexivity.
Defined.

Lemma Attempt_keeps_one_active_run_witness :
  (activeRuns settledStore "p-1" "d-1" <= activeRuns dungeonStore "p-1" "d-1")%nat.
Proof.
  assert (Hrun : run.Attempt run.sequential 1000 "a-1" dungeonStore "p-1" "run-1" "s-1"
                   (onSite "idem-key-1") = (inr firstResponse, settledStore))
    by (vm_compute; reflexivity).
  destruct (Attempt_keeps_one_active_run 1000 "a-1" dungeonStore "p-1" "run-1" "s-1"
              (onSite "idem-key-1") (inr firstResponse) settledStore Hrun) as (Hle & _).
  exact (Hle "p-1" "d-1").
Defined.

(** The first page of the market can be read. *)
Lemma ListActive_results_witness :
  exists listings, auctionExt.ListActive 120 listedStore firstPage = inr listings.
Proof.
  destruct (ListActive_results 120 listedStore firstPage) as (_ & Hok).
  apply Hok. compare_Z.
Defined.

Lemma List_results_witness :
  exists found, runExt.List dungeonStore "p-1" firstPage = inr found.
Proof.
  destruct (List_results dungeonStore "p-1" firstPage) as (_ & Hok).
  apply Hok. compare_Z.
Defined.

(** With three swords on the market the seller's inventory shows two. *)
Lemma GetInventory_shows_holdings_witness :
  exists resp,
    inventory.GetInventory listedStore "seller" = inr resp
    /\ In {| InventoryItem.ItemID := "sword"; InventoryItem.Qty := 2 |}
          (InventoryResponse.Items resp).
Proof.
  assert (Huniq : (entriesOf listedStore "seller" "sword" <= 1)%nat) by (vm_compute; lia).
  destruct (GetInventory_shows_holdings listedStore "seller" "sword" Huniq)
    as (resp & Hget & _ & Hshown).
  exists resp. split; [exact Hget|].
  apply Hshown. split; [reflexivity|reflexivity].
Defined.

Lemma market_keeps_inventory_sound_witness : inventoryOk listedStore.
Proof.
  assert (Hok : inventoryOk stallStore).
  { split.
    - intros p i. unfold entriesOf, stallStore. cbn [inventory filter].
      destruct (inventoryRepo.byPlayerItem p i (swords 5)); cbn; lia.
    - intros e [<-|[]]. cbn. lia. }
  destruct (market_keeps_inventory_sound stallStore Hok) as (Hlist & _).
  apply (Hlist catalog 100 "L-1" "seller" (offer 3 10) (inr swordListing) listedStore).
  - compare_Z.
  - vm_compute. reflexivity.
Defined.

Lemma Attempt_keeps_inventory_sound_witness : inventoryOk settledStore.
Proof.
  assert (Hok : inventoryOk dungeonStore).
  { split; [intros p i; cbn; lia|intros e []]. }
  apply (Attempt_keeps_inventory_sound run.sequential 1000 "a-1" dungeonStore "p-1" "run-1"
           "s-1" (onSite "idem-key-1") (inr firstResponse) settledStore Hok Hok).
  vm_compute. reflexivity.
Defined.

(** The master of the game publishes the draft of d-1. *)
Lemma PublishDungeon_publishes_witness :
  dungeonRepoExt.GetDungeonByID publishedCatalog "d-1"
  = inr (dungeon.published 50 (dungeonOf "d-1" DungeonStatusDraft)).
Proof.
  assert (Hpub : dungeon.PublishDungeon 50 draftCatalog dungeonStore "mj-1" "d-1"
                 = (inr (dungeon.published 50 (dungeonOf "d-1" DungeonStatusDraft)),
                    publishedCatalog)) by (vm_compute; reflexivity).
  destruct (PublishDungeon_publishes 50 draftCatalog dungeonStore "mj-1" "d-1" _ _ Hpub)
    as (_ & Hget & _).
  exact Hget.
Defined.

(** Someone else cannot publish it. *)
Lemma PublishDungeon_rejections_witness :
  dungeon.PublishDungeon 50 draftCatalog dungeonStore "mj-2" "d-1"
  = (inl (Errorf "cannot publish foreign dungeon" (Sentinel ErrForbidden)), draftCatalog).
Proof.
  destruct (PublishDungeon_rejections 50 draftCatalog dungeonStore "mj-2" "d-1")
    as (_ & _ & Hfound).
  destruct (Hfound (dungeonOf "d-1" DungeonStatusDraft) eq_refl) as (Hforeign & _).
  apply Hforeign. discriminate.
Defined.

Lemma Start_succeeds_witness :
  runExt.Start catalog 10 "run-1" lobbyStore "p-1" (enter "d-1")
  = (inr freshRun, dungeonStore).
Proof.
  exact (Start_succeeds catalog 10 "run-1" lobbyStore "p-1" (enter "d-1")
           (dungeonOf "d-1" DungeonStatusPublished) (player "p-1" 0)
           eq_refl eq_refl eq_refl eq_refl eq_refl eq_refl).
Defined.

(** Before the publication d-1 cannot be entered, afterwards it can. *)
Lemma PublishDungeon_opens_dungeon_witness :
  runExt.Start draftCatalog 10 "run-1" lobbyStore "p-1" (enter "d-1")
  = (inl (Errorf "dungeon not published" (Sentinel ErrValidation)), lobbyStore)
  /\ runExt.Start publishedCatalog 60 "run-1" lobbyStore "p-1" (enter "d-1")
     = (inr (runExt.newRun 60 "run-1" "p-1" (enter "d-1")),
        set_runs (runs lobbyStore ++ [runExt.newRun 60 "run-1" "p-1" (enter "d-1")])
          lobbyStore).
Proof.
  assert (Hpub : dungeon.PublishDungeon 50 draftCatalog dungeonStore "mj-1" "d-1"
                 = (inr (dungeon.published 50 (dungeonOf "d-1" DungeonStatusDraft)),
                    publishedCatalog)) by (vm_compute; reflexivity).
  destruct (PublishDungeon_opens_dungeon 50 draftCatalog dungeonStore "mj-1" "d-1" _ _
              (dungeonOf "d-1" DungeonStatusDraft) Hpub eq_refl)
    as (Hbefore & _ & Hafter).
  split.
  - destruct Hbefore as (_ & Hrefused); [discriminate|].
    apply Hrefused; reflexivity.
  - apply (Hafter 60 "run-1" lobbyStore "p-1" (enter "d-1") (player "p-1" 0));
      reflexivity.
Defined.
